(** * Blackjack simulator: the round engine of [code/blackjack_sim2.py]

    A shallow embedding of the card/shoe model, the hand arithmetic, the
    playing strategies, the round engine and the simulation driver, and
    the properties of these that the specification states. *)

From Stdlib Require Import ZArith QArith List Bool Lia.
From stdpp Require Import gmap strings.

Local Open Scope Z_scope.

(** ** 1. Core classes *)

(** *** Card *)

Inductive Suit := Hearts | Diamonds | Clubs | Spades.

(** [Card.RANKS], in the order of the source list. *)
Inductive Rank :=
  | R2 | R3 | R4 | R5 | R6 | R7 | R8 | R9 | R10 | RJ | RQ | RK | RA.

#[global] Instance Suit_eq_dec : EqDecision Suit.
Proof. solve_decision. Defined.

#[global] Instance Rank_eq_dec : EqDecision Rank.
Proof. solve_decision. Defined.

Definition SUITS : list Suit := [Hearts; Diamonds; Clubs; Spades].
Definition RANKS : list Rank :=
  [R2; R3; R4; R5; R6; R7; R8; R9; R10; RJ; RQ; RK; RA].

(** [Card.VALUES]: the pip value of 2..10, 10 for the faces, 11 for the ace. *)
Definition VALUES (r : Rank) : Z :=
  match r with
  | R2 => 2 | R3 => 3 | R4 => 4 | R5 => 5 | R6 => 6 | R7 => 7 | R8 => 8
  | R9 => 9 | R10 => 10 | RJ => 10 | RQ => 10 | RK => 10 | RA => 11
  end.

(** A card stores its suit and rank; [value] is fixed at construction as
    [Card.VALUES[rank]]. *)
Record Card := mkCard { suit : Suit; rank : Rank }.

Definition value (c : Card) : Z := VALUES (rank c).

#[global] Instance Card_eq_dec : EqDecision Card.
Proof. solve_decision. Defined.

(** [Card.__str__]: the rank token. *)
Definition rank_str (r : Rank) : string :=
  match r with
  | R2 => "2" | R3 => "3" | R4 => "4" | R5 => "5" | R6 => "6" | R7 => "7"
  | R8 => "8" | R9 => "9" | R10 => "10" | RJ => "J" | RQ => "Q" | RK => "K"
  | RA => "A"
  end%string.

Definition card_str (c : Card) : string := rank_str (rank c).

(** [r in [...]] on rank tokens. *)
Definition rank_in (r : Rank) (l : list Rank) : bool := bool_decide (r ∈ l).

(** *** The random generator

    [random.shuffle] is the library's Fisher-Yates pass: for [i] from
    [len(x)-1] down to [1], [j = randbelow(i+1)] and [x[i]], [x[j]] are
    exchanged.  The generator is modelled by the sequence of numbers it
    will produce and the number already consumed. *)

Record Random := mkRandom { source : nat -> nat; used : nat }.

Definition randbelow (n : nat) (r : Random) : nat * Random :=
  ((source r (used r) mod n)%nat, mkRandom (source r) (S (used r))).

Definition swap (x : list Card) (i j : nat) : list Card :=
  match x !! i, x !! j with
  | Some a, Some b => <[i := b]> (<[j := a]> x)
  | _, _ => x
  end.

Fixpoint shuffle_from (i : nat) (x : list Card) (r : Random)
  : list Card * Random :=
  match i with
  | O => (x, r)
  | S i' =>
      let '(j, r') := randbelow (S i) r in
      shuffle_from i' (swap x i j) r'
  end.

Definition random_shuffle (x : list Card) (r : Random) : list Card * Random :=
  shuffle_from (length x - 1)%nat x r.

(** *** Deck

    [history] is not a program variable: it records, in order, every
    [build] and every card handed out by [deal], so that properties of
    the dealing sequence can be stated.  [random] is the state of the
    module-level generator, which only the shoe uses.  The number of
    decks is positive: with no deck at all [deal] pops from an empty
    list and raises. *)

Inductive Event := Built | Dealt (c : Card).

Record Deck := mkDeck {
  num_decks : positive;
  cards : list Card;
  random : Random;
  history : list Event
}.

(** One deck in the order of the comprehension: suits outside, ranks inside. *)
Definition one_deck : list Card :=
  s ← SUITS; r ← RANKS; [mkCard s r].

Definition fresh_cards (n : positive) : list Card :=
  mjoin (replicate (Pos.to_nat n) one_deck).

Definition build (d : Deck) : Deck :=
  mkDeck (num_decks d) (fresh_cards (num_decks d)) (random d)
         (history d ++ [Built]).

Definition shuffle (d : Deck) : Deck :=
  let '(x, r) := random_shuffle (cards d) (random d) in
  mkDeck (num_decks d) x r (history d).

(** [self.cards.pop()]: the last card of the list. *)
Definition pop (x : list Card) : option (Card * list Card) :=
  match rev x with
  | c :: rest => Some (c, rev rest)
  | [] => None
  end.

(** The card that stands for the result of popping an empty list; [deal]
    never produces it (lemma [deal_pops]). *)
Definition no_card : Card := mkCard Spades RA.

(** The first statement of [deal]: an empty shoe is rebuilt and shuffled. *)
Definition ready (d : Deck) : Deck :=
  if (length (cards d) =? 0)%nat then shuffle (build d) else d.

Definition deal (d : Deck) : Card * Deck :=
  let d1 := ready d in
  match pop (cards d1) with
  | Some (c, rest) =>
      (c, mkDeck (num_decks d1) rest (random d1) (history d1 ++ [Dealt c]))
  | None => (no_card, d1)
  end.

(** *** Hand *)

(** A hand is the list [cards] of the [Hand] object. *)
Abbreviation Hand := (list Card).

Definition add_card (h : Hand) (c : Card) : Hand := h ++ [c].

Definition raw_sum (h : Hand) : Z := fold_right Z.add 0 (map value h).

Definition count_aces (h : Hand) : nat :=
  length (filter (fun c => rank c = RA) h).

(** The ace-adjusting loop of [get_value], on its two variables. *)
Fixpoint adjust_aces (value : Z) (num_aces : nat) : Z * nat :=
  match num_aces with
  | O => (value, O)
  | S n => if 21 <? value then adjust_aces (value - 10) n else (value, num_aces)
  end.

Definition get_value (h : Hand) : Z :=
  fst (adjust_aces (raw_sum h) (count_aces h)).

(** The value of [num_aces] when the loop of [get_value] ends: the aces
    still counted as 11 in the returned total. *)
Definition aces_at_11 (h : Hand) : nat :=
  snd (adjust_aces (raw_sum h) (count_aces h)).

Fixpoint join (sep : string) (l : list string) : string :=
  match l with
  | [] => ""
  | [s] => s
  | s :: rest => s +:+ sep +:+ join sep rest
  end.

Definition hand_str (h : Hand) : string := join "-" (map card_str h).

Definition is_blackjack (h : Hand) : bool :=
  (length h =? 2)%nat && (get_value h =? 21).

Definition is_soft (h : Hand) : bool :=
  let value := raw_sum h in
  let num_aces := count_aces h in
  (0 <? num_aces)%nat && (value <=? 21).

(** The soft predicate in the words of the specification: at least one
    ace still counted as 11 in the current total, and that total at most
    21. *)
Definition spec_soft (h : Hand) : bool :=
  (0 <? aces_at_11 h)%nat && (get_value h <=? 21).

(** ** Keyword arguments, actions and result tags *)

(** The values passed by keyword: flags and numbers.  A flag used as a
    number is 1 or 0, a number used as a flag is true unless it is zero. *)
Inductive pyval := PBool (b : bool) | PNum (q : Q).

Definition truthy (v : pyval) : bool :=
  match v with PBool b => b | PNum q => negb (Qeq_bool q 0) end.

Definition number (v : pyval) : Q :=
  match v with PBool b => if b then 1%Q else 0%Q | PNum q => q end.

(** [kw.get(k, dflt)] read as a flag and as a number. *)
Definition kw_flag (k : string) (dflt : bool) (kw : gmap string pyval) : bool :=
  match kw !! k with Some v => truthy v | None => dflt end.

Definition kw_num (k : string) (dflt : Q) (kw : gmap string pyval) : Q :=
  match kw !! k with Some v => number v | None => dflt end.

(** The strings a strategy returns. *)
Inductive Action := Hit | Stand | Double | Split | Insurance.

#[global] Instance Action_eq_dec : EqDecision Action.
Proof. solve_decision. Defined.

(** A strategy is called as [strategy_func(hand, upcard, **kw)]; each
    strategy binds its own named parameters out of [kw]. *)
Definition Strategy := Hand -> Card -> gmap string pyval -> Action.

Definition Qltb (x y : Q) : bool := negb (Qle_bool y x).

(** The strings ['win'], ['loss'] and ['push']. *)
Inductive ResultTag := Win | Loss | Push.

#[global] Instance ResultTag_eq_dec : EqDecision ResultTag.
Proof. solve_decision. Defined.

(** ** 2. Game rules: one round *)

(** The variables that the two functions nested in [play_round] share and
    mutate: the shoe and the list [cards_seen].  [dealer_runs] is not a
    program variable: it records what each call of [play_dealer]
    returned (dealer string and value), in order. *)
Record RoundEnv := mkEnv {
  env_deck : Deck;
  env_cards_seen : list Card;
  env_dealer_runs : list (string * Z)
}.

(** State passing over [RoundEnv]; [None] is a loop of the model that ran
    out of steps (the bounds below are shown to suffice). *)
Definition M (A : Type) : Type := RoundEnv -> option (A * RoundEnv).

#[global] Instance M_ret : MRet M := fun A a e => Some (a, e).
#[global] Instance M_bind : MBind M := fun A B f m e =>
  match m e with
  | Some (a, e') => f a e'
  | None => None
  end.

Definition out_of_steps {A} : M A := fun _ => None.

(** [deck.deal()] on the shared shoe. *)
Definition deal_card : M Card := fun e =>
  let '(card, d) := deal (env_deck e) in
  Some (card, mkEnv d (env_cards_seen e) (env_dealer_runs e)).

(** [cards_seen += l]. *)
Definition see (l : list Card) : M unit := fun e =>
  Some (tt, mkEnv (env_deck e) (env_cards_seen e ++ l) (env_dealer_runs e)).

Definition note_dealer_run (run : string * Z) : M unit := fun e =>
  Some (tt, mkEnv (env_deck e) (env_cards_seen e) (env_dealer_runs e ++ [run])).

(** Bounds on the two loops: the dealer's loop stops within 17 draws and
    the player's hit loop within 22 hits, whatever the cards. *)
Definition dealer_steps : nat := 18.
Definition hit_steps : nat := 23.

(** The condition of the [while] loop of [play_dealer]. *)
Definition dealer_draws (dealer : Hand) : bool :=
  (get_value dealer <? 17) || ((get_value dealer =? 17) && is_soft dealer).

Section Round.
(** What the nested functions capture from [play_round]: the strategy
    and its keyword arguments, and the dealer's hand, whose first card
    is the upcard [dealer_hand.cards[0]]. *)
Variable strategy_func : Strategy.
Variable strategy_args : gmap string pyval.
Variable dealer_up : Card.
Variable dealer_rest : list Card.

Definition dealer_hand_cards : Hand := dealer_up :: dealer_rest.

(** The [while] loop of [play_dealer]. *)
Fixpoint dealer_loop (steps : nat) (dealer : Hand) (dealer_cards : list Card)
  : M (Hand * list Card) :=
  match steps with
  | O => out_of_steps
  | S steps' =>
      if dealer_draws dealer then
        card ← deal_card;
        dealer_loop steps' (add_card dealer card) (dealer_cards ++ [card])
      else mret (dealer, dealer_cards)
  end.

(** [play_dealer] plays a copy of the dealer's hand. *)
Definition play_dealer : M (string * Z * list Card) :=
  '(dealer, dealer_cards) ← dealer_loop dealer_steps dealer_hand_cards [];
  _ ← note_dealer_run (hand_str dealer, get_value dealer);
  mret (hand_str dealer, get_value dealer, dealer_cards).

(** The comparison after the dealer's turn, for a stake of [stake]. *)
Definition settle (player_val dealer_val stake : Z) : Z :=
  if (21 <? dealer_val) || (dealer_val <? player_val) then stake
  else if player_val <? dealer_val then - stake
  else 0.

(** The [while True] loop of normal play: the hand when the loop is
    left, and whether it was left by the bust [return]. *)
Fixpoint hit_loop (steps : nat) (hand : Hand) : M (Hand * bool) :=
  match steps with
  | O => out_of_steps
  | S steps' =>
      let action := strategy_func hand dealer_up strategy_args in
      if bool_decide (action = Hit) then
        card ← deal_card;
        let hand := add_card hand card in
        _ ← see [card];
        if 21 <? get_value hand then mret (hand, true)
        else hit_loop steps' hand
      else mret (hand, false)
  end.

(** Normal play and the dealer's turn that follows it.  The third
    component is the state of the [hand] object when the call returns. *)
Definition normal_play (hand : Hand) (bet : Z) : M (string * Z * Hand) :=
  '(hand, bust) ← hit_loop hit_steps hand;
  if bust : bool then mret (hand_str hand, - bet, hand)
  else
    '(dealer_final, dealer_val, dealer_cards) ← play_dealer;
    _ ← see dealer_cards;
    let player_val := get_value hand in
    mret (hand_str hand, settle player_val dealer_val bet, hand).

(** The doubling block of [play_single_hand], entered when the strategy
    answered ['double']. *)
Definition double_play (hand : Hand) (bet : Z) : M (string * Z * Hand) :=
  card ← deal_card;
  let hand := add_card hand card in
  _ ← see [card];
  if 21 <? get_value hand then mret (hand_str hand, -2 * bet, hand)
  else
    '(dealer_final, dealer_val, dealer_cards) ← play_dealer;
    _ ← see dealer_cards;
    let player_val := get_value hand in
    mret (hand_str hand, settle player_val dealer_val (2 * bet), hand).

(** [play_single_hand] from the comment [# Handle doubling] on: what a
    call does once the split block is passed.  The strategy is called
    with [can_double=True] beside [**strategy_args], which holds no
    [can_double] of its own ([plain_keywords]). *)
Definition play_unsplit (hand : Hand) (bet : Z) (allow_double : bool)
  : M (string * Z * Hand) :=
  if allow_double && (length hand =? 2)%nat
     && bool_decide
          (strategy_func hand dealer_up
             (<["can_double" := PBool true]> strategy_args) = Double)
  then double_play hand bet
  else normal_play hand bet.

(** Whether the split block is entered and the strategy answers
    ['split'], called with [can_split=True] beside [**strategy_args],
    which holds no [can_split] of its own ([plain_keywords]). *)
Definition splits (hand : Hand) (allow_split : bool) : bool :=
  match hand with
  | [c0; c1] =>
      allow_split && bool_decide (rank c0 = rank c1)
      && bool_decide
           (strategy_func hand dealer_up
              (<["can_split" := PBool true]> strategy_args) = Split)
  | _ => false
  end.

(** [play_single_hand].  The two recursive calls pass
    [allow_split=False], so they skip the split block: they are
    [play_unsplit]. *)
Definition play_single_hand (hand : Hand) (bet : Z)
  (allow_double allow_split : bool) : M (string * Z * Hand) :=
  match hand with
  | [c0; c1] =>
      if splits hand allow_split then
        let hand1 := add_card [] c0 in
        let hand2 := add_card [] c1 in
        x1 ← deal_card;
        let hand1 := add_card hand1 x1 in
        x2 ← deal_card;
        let hand2 := add_card hand2 x2 in
        _ ← see [x1; x2];
        '(res1, prof1, hand1) ← play_unsplit hand1 bet true;
        '(res2, prof2, hand2) ← play_unsplit hand2 bet true;
        mret (hand_str hand1 +:+ "|" +:+ hand_str hand2, prof1 + prof2, hand)
      else play_unsplit hand bet allow_double
  | _ => play_unsplit hand bet allow_double
  end.
End Round.

(** The dictionary that [play_round] returns; [bet] is the key that the
    driver adds afterwards. *)
Record Outcome := mkOutcome {
  player_hand : string;
  player_final_value : Z;
  dealer_hand : string;
  dealer_final_value : Z;
  result : ResultTag;
  profit : Q;
  cards_seen : list Card;
  bet : option Z
}.

(** The names that the calls of a round bind themselves: the first three
    parameters of [play_round], the flags that [play_single_hand] passes
    beside [**strategy_args], and the two positional parameters of the
    strategies of the module.  A call that is given one of these names
    again among its keywords raises [TypeError]; the functions below
    describe the calls in which the keywords hold none of them. *)
Definition bound_names : list string :=
  ["deck"; "strategy_func"; "betting_amount"; "can_double"; "can_split";
   "player_hand"; "dealer_upcard"]%string.

Definition plain_keywords (kw : gmap string pyval) : Prop :=
  Forall (fun name => kw !! name = None) bound_names.

(** The bets for which the double [1.5 * betting_amount] is the exact
    product: beyond, the source rounds it, and from [2 ** 1024] on the
    conversion of the bet raises [OverflowError]. *)
Definition exact_bet (betting_amount : Z) : Prop :=
  3 * Z.abs betting_amount < 2 ^ 53.

(** How a call [play_round(deck, strategy_func, betting_amount=..., **kw)]
    binds its keywords: [running_count] and [betting_strategy] bind the
    parameters of these names of [play_round], which the body never
    reads; what remains is [strategy_args]. *)
Definition strategy_args_of (kw : gmap string pyval) : gmap string pyval :=
  delete "betting_strategy" (delete "running_count" kw).

(** [play_round], called with keywords that are [plain_keywords].  (The
    parameter [betting_strategy] is not read and is left out.)  Returns
    the dictionary together with the shared variables at the end of the
    round.  The profit of a blackjack is the product [1.5 *
    betting_amount] as it is for an [exact_bet]. *)
Definition play_round (deck : Deck) (strategy_func : Strategy)
  (betting_amount : Z) (kw : gmap string pyval)
  : option (Outcome * RoundEnv) :=
  let strategy_args := strategy_args_of kw in
  let '(p1, deck) := deal deck in
  let '(d1, deck) := deal deck in
  let '(p2, deck) := deal deck in
  let '(d2, deck) := deal deck in
  let player := add_card (add_card [] p1) p2 in
  let dealer := add_card (add_card [] d1) d2 in
  let env := mkEnv deck (player ++ dealer) [] in
  let player_blackjack := is_blackjack player in
  let dealer_blackjack := is_blackjack dealer in
  let outcome player_str player_now result profit env :=
    Some (mkOutcome player_str (get_value player_now)
            (hand_str dealer) (get_value dealer)
            result profit (env_cards_seen env) None, env) in
  if player_blackjack && dealer_blackjack then
    outcome (hand_str player) player Push 0%Q env
  else if player_blackjack then
    outcome (hand_str player) player Win ((3 # 2) * inject_Z betting_amount)%Q env
  else if dealer_blackjack then
    outcome (hand_str player) player Loss (inject_Z (- betting_amount)) env
  else
    match play_single_hand strategy_func strategy_args d1 [d2]
            player betting_amount true true env with
    | Some ((player_final, profit, player_now), env) =>
        let result :=
          if 0 <? profit then Win else if profit <? 0 then Loss else Push in
        outcome player_final player_now result (inject_Z profit) env
    | None => None
    end.

(** ** 3. Playing strategies *)

Definition strategy_mimic_dealer : Strategy := fun player_hand dealer_upcard kw =>
  if get_value player_hand <? 17 then Hit else Stand.

Definition strategy_fixed_threshold : Strategy := fun player_hand dealer_upcard kw =>
  let threshold := kw_num "threshold" 15 kw in
  if Qltb (inject_Z (get_value player_hand)) threshold then Hit else Stand.

Definition strategy_dealer_weakness : Strategy := fun player_hand dealer_upcard kw =>
  if rank_in (rank dealer_upcard) [R2; R3; R4; R5; R6]
     && (12 <=? get_value player_hand)
  then Stand
  else if get_value player_hand <? 17 then Hit else Stand.

(** The pair chart of [strategy_basic]; [None] when no line of the chart
    returns. *)
Definition basic_pairs (can_double : bool) (pair up : Rank) : option Action :=
  if rank_in pair [RA; R8] then Some Split
  else if rank_in pair [R2; R3; R7] && rank_in up [R2; R3; R4; R5; R6; R7]
  then Some Split
  else if bool_decide (pair = R6) && rank_in up [R2; R3; R4; R5; R6]
  then Some Split
  else if bool_decide (pair = R9) && rank_in up [R2; R3; R4; R5; R6; R8; R9]
  then Some Split
  else if bool_decide (pair = R4) && rank_in up [R5; R6] then Some Split
  else if bool_decide (pair = R5) && rank_in up [R2; R3; R4; R5; R6; R7; R8; R9]
  then Some (if can_double then Double else Hit)
  else if bool_decide (pair = R10) then Some Stand
  else None.

(** [others[0] if others else None] for [others = [r for r in ranks if r != 'A']]. *)
Definition first_other (ranks : list Rank) : option Rank :=
  head (filter (fun r => r <> RA) ranks).

(** The doubling chart; [None] when no line returns. *)
Definition basic_double (ranks : list Rank) (val : Z) (up : Rank)
  : option Action :=
  let soft_line :=
    match first_other ranks with
    | Some other =>
        if rank_in RA ranks then
          if rank_in other [R2; R3] && rank_in up [R5; R6] then Some Double
          else if rank_in other [R4; R5] && rank_in up [R4; R5; R6]
          then Some Double
          else if bool_decide (other = R6) && rank_in up [R3; R4; R5; R6]
          then Some Double
          else if bool_decide (other = R7) && rank_in up [R3; R4; R5; R6]
          then Some Double
          else None
        else None
    | None => None
    end in
  match soft_line with
  | Some a => Some a
  | None =>
      if (val =? 9) && rank_in up [R3; R4; R5; R6] then Some Double
      else if (val =? 10) && rank_in up [R2; R3; R4; R5; R6; R7; R8; R9]
      then Some Double
      else if (val =? 11) && rank_in up [R2; R3; R4; R5; R6; R7; R8; R9; R10]
      then Some Double
      else None
  end.

(** The hard totals at the end of [strategy_basic]. *)
Definition basic_hard (val : Z) (up : Rank) : Action :=
  if val <=? 11 then Hit
  else if val =? 12 then
    if rank_in up [R4; R5; R6] then Stand else Hit
  else if (13 <=? val) && (val <=? 16) then
    if rank_in up [R2; R3; R4; R5; R6] then Stand else Hit
  else Stand.

(** The soft totals and then the hard totals. *)
Definition basic_standard (ranks : list Rank) (val : Z) (up : Rank) : Action :=
  if rank_in RA ranks && (length ranks =? 2)%nat then
    match first_other ranks with
    | Some other =>
        if rank_in other [R8; R9; R10] then Stand
        else if bool_decide (other = R7) then
          if rank_in up [R2; R7; R8] then Stand else Hit
        else if bool_decide (other = R6) then
          if rank_in up [R2; R3; R4; R5; R6] then Stand else Hit
        else if rank_in other [R2; R3; R4; R5] then
          if rank_in up [R4; R5; R6] then Stand else Hit
        else if rank_in other [R2; R3] && rank_in up [R5; R6] then Stand
        else Hit
    | None => Hit
    end
  else basic_hard val up.

Definition strategy_basic : Strategy := fun player_hand dealer_upcard kw =>
  let can_double := kw_flag "can_double" false kw in
  let can_split := kw_flag "can_split" false kw in
  let ranks := map rank player_hand in
  let val := get_value player_hand in
  let up := rank dealer_upcard in
  let pairs :=
    match ranks with
    | [r0; r1] =>
        if can_split && bool_decide (r0 = r1) then basic_pairs can_double r0 up
        else None
    | _ => None
    end in
  match pairs with
  | Some a => a
  | None =>
      let doubling :=
        if can_double && (length player_hand =? 2)%nat
        then basic_double ranks val up else None in
      match doubling with
      | Some a => a
      | None => basic_standard ranks val up
      end
  end.

(** [max(a, 1)]. *)
Definition max_1 (a : Q) : Q := if Qltb a 1 then 1%Q else a.

(** The named parameter [running_count=0] of [strategy_card_counter], as
    bound by a call with the keywords [kw]. *)
Definition counter_running_count (kw : gmap string pyval) : Q :=
  kw_num "running_count" 0 kw.

(** The true count that [strategy_card_counter] computes:
    [decks_remaining] is read from the keywords other than
    [running_count] (default 1). *)
Definition counter_true_count (kw : gmap string pyval) : Q :=
  let running_count := counter_running_count kw in
  let kwargs := delete "running_count" kw in
  let decks_remaining := max_1 (kw_num "decks_remaining" 1 kwargs) in
  (running_count / decks_remaining)%Q.

Definition strategy_card_counter : Strategy := fun player_hand dealer_upcard kw =>
  let kwargs := delete "running_count" kw in
  let true_count := counter_true_count kw in
  let val := get_value player_hand in
  let up := rank dealer_upcard in
  if bool_decide (up = RA) && Qle_bool 3 true_count then Insurance
  else if (val =? 16) && bool_decide (up = R10) && Qle_bool 0 true_count
  then Stand
  else if (val =? 15) && bool_decide (up = R10) && Qle_bool 4 true_count
  then Stand
  else if (val =? 13) && bool_decide (up = R2) && Qle_bool true_count (-1)
  then Hit
  else if (val =? 12) && bool_decide (up = R3) && Qle_bool true_count 0
  then Hit
  else if (val =? 12) && bool_decide (up = R2) && Qle_bool 3 true_count
  then Stand
  else strategy_basic player_hand dealer_upcard kwargs.

(** ** 4. Betting strategies *)

Definition betting_flat (base_bet : Z) : Z := base_bet.

Definition betting_martingale (base_bet : Z) (last_result : option ResultTag)
  (current_bet : Z) : Z :=
  if bool_decide (last_result = Some Loss) then current_bet * 2 else base_bet.

(** ** 5. Card counting *)

Definition update_count (count : Z) (card : Card) : Z :=
  if rank_in (rank card) [R2; R3; R4; R5; R6] then count + 1
  else if rank_in (rank card) [R10; RJ; RQ; RK; RA] then count - 1
  else count.

(** ** 6. Simulation engine *)

(** The playing and betting functions of the module; the driver compares
    its arguments with [strategy_card_counter] and [betting_martingale]
    by identity. *)
Inductive PlayingStrategy :=
  MimicDealer | FixedThreshold | DealerWeakness | Basic | CardCounter.

Inductive BettingStrategy := Flat | Martingale.

#[global] Instance PlayingStrategy_eq_dec : EqDecision PlayingStrategy.
Proof. solve_decision. Defined.

#[global] Instance BettingStrategy_eq_dec : EqDecision BettingStrategy.
Proof. solve_decision. Defined.

Definition strategy_of (p : PlayingStrategy) : Strategy :=
  match p with
  | MimicDealer => strategy_mimic_dealer
  | FixedThreshold => strategy_fixed_threshold
  | DealerWeakness => strategy_dealer_weakness
  | Basic => strategy_basic
  | CardCounter => strategy_card_counter
  end.

(** The variables of [run_simulation] that the loop updates. *)
Record Sim := mkSim {
  sim_deck : Deck;
  running_count : Z;
  last_result : option ResultTag;
  current_bet : Z;
  game_results : list Outcome
}.

(** [max(len(deck.cards) / 52, 1)]. *)
Definition decks_remaining (d : Deck) : Q :=
  max_1 (inject_Z (Z.of_nat (length (cards d))) / 52)%Q.

(** The true count that the driver computes for the bet. *)
Definition driver_true_count (running_count : Z) (d : Deck) : Q :=
  (inject_Z running_count / decks_remaining d)%Q.

(** The bet spread of the card counter, as the chain of tests on
    [true_count]. *)
Definition bet_spread (true_count : Q) : Z :=
  if Qltb true_count 1 then 10
  else if Qeq_bool true_count 2 then 25
  else if Qeq_bool true_count 3 then 50
  else if Qle_bool 4 true_count then 100
  else 10.

(** The first half of the loop body: reshuffling, resetting the count and
    choosing the bet.  Returns the bet with the updated variables. *)
Definition prepare_round (playing_strategy : PlayingStrategy)
  (betting_strategy : BettingStrategy) (base_bet : Z)
  (reshuffle_each_hand : bool) (s : Sim) : Z * Sim :=
  if bool_decide (playing_strategy = CardCounter) then
    let '(deck, running_count) :=
      if (length (cards (sim_deck s)) =? 0)%nat
      then (shuffle (build (sim_deck s)), 0)
      else (sim_deck s, running_count s) in
    let true_count := driver_true_count running_count deck in
    (bet_spread true_count,
     mkSim deck running_count (last_result s) (current_bet s) (game_results s))
  else
    let '(deck, running_count) :=
      if reshuffle_each_hand || (length (cards (sim_deck s)) <? 52)%nat
      then (shuffle (build (sim_deck s)), 0)
      else (sim_deck s, running_count s) in
    if bool_decide (betting_strategy = Martingale) then
      let bet := betting_martingale base_bet (last_result s) (current_bet s) in
      (bet, mkSim deck running_count (last_result s) bet (game_results s))
    else
      (betting_flat base_bet,
       mkSim deck running_count (last_result s) (current_bet s) (game_results s)).

(** The keyword arguments of the call of [play_round]. *)
Definition round_args (strategy_args : gmap string pyval) (running_count : Z)
  : gmap string pyval :=
  <["running_count" := PNum (inject_Z running_count)]> strategy_args.

Definition with_bet (r : Outcome) (b : Z) : Outcome :=
  mkOutcome (player_hand r) (player_final_value r) (dealer_hand r)
    (dealer_final_value r) (result r) (profit r) (cards_seen r) (Some b).

(** One pass of the [for] loop.  Besides the updated variables it gives
    the shared variables of the round just played. *)
Definition sim_round (playing_strategy : PlayingStrategy)
  (betting_strategy : BettingStrategy) (base_bet : Z)
  (reshuffle_each_hand : bool) (strategy_args : gmap string pyval) (s : Sim)
  : option (Sim * RoundEnv) :=
  let '(bet, s) :=
    prepare_round playing_strategy betting_strategy base_bet
      reshuffle_each_hand s in
  match play_round (sim_deck s) (strategy_of playing_strategy) bet
          (round_args strategy_args (running_count s)) with
  | Some (r, env) =>
      let running_count := fold_left update_count (cards_seen r) (running_count s) in
      let r := with_bet r bet in
      Some (mkSim (env_deck env) running_count (Some (result r)) (current_bet s)
              (game_results s ++ [r]), env)
  | None => None
  end.

Fixpoint sim_rounds (playing_strategy : PlayingStrategy)
  (betting_strategy : BettingStrategy) (base_bet : Z)
  (reshuffle_each_hand : bool) (strategy_args : gmap string pyval)
  (num_games : nat) (s : Sim) : option Sim :=
  match num_games with
  | O => Some s
  | S n =>
      match sim_round playing_strategy betting_strategy base_bet
              reshuffle_each_hand strategy_args s with
      | Some (s', _) =>
          sim_rounds playing_strategy betting_strategy base_bet
            reshuffle_each_hand strategy_args n s'
      | None => None
      end
  end.

(** [Deck(num_decks=6)]: the constructor builds the shoe. *)
Definition new_deck (n : positive) (r : Random) : Deck :=
  build (mkDeck n [] r []).

(** [run_simulation] up to the end of its loop, from the state [r] of
    the generator; the statistics computed from [game_results] afterwards
    are left out. *)
Definition run_simulation (playing_strategy : PlayingStrategy)
  (num_games : nat) (betting_strategy : BettingStrategy) (base_bet : Z)
  (reshuffle_each_hand : bool) (strategy_args : gmap string pyval)
  (r : Random) : option Sim :=
  let deck := shuffle (new_deck 6 r) in
  sim_rounds playing_strategy betting_strategy base_bet reshuffle_each_hand
    strategy_args num_games (mkSim deck 0 None base_bet []).

(** ** 6b. The statistics of [run_simulation] *)

(** The exceptions that the aggregation can raise. *)
Inductive Raised := KeyError | ZeroDivisionError | ValueError.

(** The dictionary [stats].  The four quotients are floats in the
    source; the fields hold their exact values. *)
Record Stats := mkStats {
  stats_num_games : nat;
  total_profit : Q;
  total_bet : Z;
  win_rate : Q;
  loss_rate : Q;
  push_rate : Q;
  avg_bet : Q;
  max_bet : Z;
  min_bet : Z
}.

(** [sum(r['profit'] for r in game_results)]. *)
Definition sum_profit (game_results : list Outcome) : Q :=
  fold_left (fun acc r => (acc + profit r)%Q) game_results 0%Q.

(** [r['bet'] for r in game_results], consumed to the end; [None] when
    a record has no key ['bet']. *)
Fixpoint bets (game_results : list Outcome) : option (list Z) :=
  match game_results with
  | [] => Some []
  | r :: rest =>
      match bet r, bets rest with
      | Some b, Some bs => Some (b :: bs)
      | _, _ => None
      end
  end.

(** [sum(...)] of integers. *)
Definition sum_Z (l : list Z) : Z := fold_left Z.add l 0.

(** [sum(1 for r in game_results if r['result'] == tag)]. *)
Definition count_results (tag : ResultTag) (game_results : list Outcome) : nat :=
  length (filter (fun r => result r = tag) game_results).

(** [max(...)] and [min(...)]; [None] for an empty sequence. *)
Definition max_of (l : list Z) : option Z :=
  match l with
  | [] => None
  | x :: rest => Some (fold_left Z.max rest x)
  end.

Definition min_of (l : list Z) : option Z :=
  match l with
  | [] => None
  | x :: rest => Some (fold_left Z.min rest x)
  end.

Definition rate (count num_games : nat) : Q :=
  (inject_Z (Z.of_nat count) / inject_Z (Z.of_nat num_games))%Q.

(** The lines of [run_simulation] after the loop, in their order of
    evaluation. *)
Definition aggregate (game_results : list Outcome) (num_games : nat)
  : Raised + Stats :=
  let total_profit := sum_profit game_results in
  match bets game_results with
  | None => inl KeyError
  | Some bs =>
      let total_bet := sum_Z bs in
      let num_wins := count_results Win game_results in
      let num_losses := count_results Loss game_results in
      let num_pushes := count_results Push game_results in
      if (num_games =? 0)%nat then inl ZeroDivisionError
      else
        match max_of bs, min_of bs with
        | Some highest, Some lowest =>
            inr (mkStats num_games total_profit total_bet
                   (rate num_wins num_games) (rate num_losses num_games)
                   (rate num_pushes num_games)
                   (inject_Z (sum_Z bs) / inject_Z (Z.of_nat num_games))%Q
                   highest lowest)
        | _, _ => inl ValueError
        end
  end.

(** [run_simulation] with its return value [(game_results, stats)], or
    the exception that the aggregation raises.  The loop is the loop of
    [run_simulation] above: it describes the runs whose keywords are
    [plain_keywords]. *)
Definition run_simulation_stats (playing_strategy : PlayingStrategy)
  (num_games : nat) (betting_strategy : BettingStrategy) (base_bet : Z)
  (reshuffle_each_hand : bool) (strategy_args : gmap string pyval)
  (r : Random) : option (Raised + list Outcome * Stats) :=
  match run_simulation playing_strategy num_games betting_strategy base_bet
          reshuffle_each_hand strategy_args r with
  | Some s =>
      Some match aggregate (game_results s) num_games with
           | inr stats => inr (game_results s, stats)
           | inl raised => inl raised
           end
  | None => None
  end.

(** The largest bet that a run of [num_games] rounds can place: the
    card counter bets 100 at most, the flat system the base bet, the
    martingale system the base bet doubled once for each round. *)
Definition largest_bet (playing_strategy : PlayingStrategy)
  (betting_strategy : BettingStrategy) (base_bet : Z) (num_games : nat) : Z :=
  if bool_decide (playing_strategy = CardCounter) then 100
  else if bool_decide (betting_strategy = Martingale)
       then Z.abs base_bet * 2 ^ Z.of_nat num_games
       else Z.abs base_bet.

(** The runs in which every profit and every partial sum of the profits
    is a double without rounding: no round wins or loses more than four
    times its bet, and the halves of the blackjack wins are exact below
    [2 ** 52]. *)
Definition exact_sums (playing_strategy : PlayingStrategy)
  (betting_strategy : BettingStrategy) (base_bet : Z) (num_games : nat)
  : Prop :=
  4 * Z.of_nat num_games
  * largest_bet playing_strategy betting_strategy base_bet num_games
  < 2 ^ 52.

(** ** Notions used to state the properties *)

(** The total of a hand with every ace counted as 1. *)
Definition hard_total (h : Hand) : Z :=
  raw_sum h - 10 * Z.of_nat (count_aces h).

(** The per-card increment of the count: +1 for 2..6, -1 for 10, J, Q, K
    and A, 0 for 7, 8 and 9. *)
Definition increment (card : Card) : Z :=
  match rank card with
  | R2 | R3 | R4 | R5 | R6 => 1
  | R10 | RJ | RQ | RK | RA => -1
  | R7 | R8 | R9 => 0
  end.

Definition tally (l : list Card) : Z := fold_right Z.add 0 (map increment l).

(** The cards handed out, in order, according to a history. *)
Definition dealt_in (h : list Event) : list Card :=
  omap (fun ev => match ev with Dealt card => Some card | Built => None end) h.

(** The cards handed out since the shoe was last built. *)
Definition since_last_build (h : list Event) : list Card :=
  fold_left
    (fun acc ev => match ev with Built => [] | Dealt card => acc ++ [card] end)
    h [].

(** The count that a tracker reset at each build of the shoe would show. *)
Definition shoe_count (d : Deck) : Z := tally (since_last_build (history d)).

(** The cards still in the shoe and the cards dealt from it since it was
    built count to zero together. *)
Definition balanced (d : Deck) : Prop := tally (cards d) + shoe_count d = 0.

(** [deals d l d']: dealing from [d] hands out the cards [l] in this
    order and leaves the shoe [d']. *)
Fixpoint deals (d : Deck) (l : list Card) (d' : Deck) : Prop :=
  match l with
  | [] => d' = d
  | card :: l' => (deal d).1 = card /\ deals (deal d).2 l' d'
  end.

(** What a step of the round did to the shared variables: the cards it
    appended to [cards_seen], the cards it drew from the shoe, and the
    dealer runs it made. *)
Definition effect (e e' : RoundEnv) (seen dealt : list Card)
  (runs : list (string * Z)) : Prop :=
  env_cards_seen e' = env_cards_seen e ++ seen
  /\ deals (env_deck e) dealt (env_deck e')
  /\ env_dealer_runs e' = env_dealer_runs e ++ runs.

(** The four cards of the initial deal, in dealing order, and the shoe
    after them. *)
Definition initial_deal (deck : Deck) : Card * Card * Card * Card * Deck :=
  let '(p1, deck) := deal deck in
  let '(d1, deck) := deal deck in
  let '(p2, deck) := deal deck in
  let '(d2, deck) := deal deck in
  (p1, d1, p2, d2, deck).

(** Whether [play_single_hand], past the split block, doubles the hand:
    the test of the doubling block and the answer of the strategy. *)
Definition doubles (strategy_func : Strategy)
  (strategy_args : gmap string pyval) (dealer_up : Card) (hand : Hand)
  (allow_double : bool) : bool :=
  allow_double && (length hand =? 2)%nat
  && bool_decide
       (strategy_func hand dealer_up
          (<["can_double" := PBool true]> strategy_args) = Double).

(** The stake of a hand: twice the bet when it is doubled. *)
Definition stake_of (strategy_func : Strategy)
  (strategy_args : gmap string pyval) (dealer_up : Card) (hand : Hand)
  (allow_double : bool) (bet : Z) : Z :=
  if doubles strategy_func strategy_args dealer_up hand allow_double
  then 2 * bet else bet.

(** A play-out of the dealer's initial cards [dealer] with the cards
    [drawn]: the dealer drew as long as the rule told to, and stopped. *)
Definition played_out (dealer : Hand) (drawn : list Card) : Prop :=
  (forall k : nat, (k < length drawn)%nat ->
     dealer_draws (dealer ++ take k drawn) = true)
  /\ dealer_draws (dealer ++ drawn) = false.

(** One hand settled on its own, as it stands at the end ([final]).  If
    it is bust, the dealer is not played for it: no card is drawn for the
    dealer, no dealer run is made, and the stake is lost.  If it is not
    bust, the dealer is played exactly once for it, from the dealer's
    initial cards [dealer] with the cards [drawn], and the hand is
    compared with the value of that run. *)
Definition settled_once (dealer : Hand) (stake : Z) (final : Hand)
  (drawn : list Card) (runs : list (string * Z)) (prof : Z) : Prop :=
  if 21 <? get_value final
  then drawn = [] /\ runs = [] /\ prof = - stake
  else played_out dealer drawn
       /\ runs = [(hand_str (dealer ++ drawn), get_value (dealer ++ drawn))]
       /\ prof = settle (get_value final) (get_value (dealer ++ drawn)) stake.

(** The invariant of the driver: the shoe is balanced and the running
    count is the count of the cards dealt since the shoe was last built. *)
Definition count_follows_shoe (s : Sim) : Prop :=
  balanced (sim_deck s) /\ running_count s = shoe_count (sim_deck s).

(** ** Further notions *)

(** The sum of a weight over a list of cards. *)
Definition weigh (f : Card -> Z) (l : list Card) : Z :=
  fold_right Z.add 0 (map f l).

(** The number of copies of a card in a list. *)
Definition copies (card : Card) (l : list Card) : Z :=
  weigh (fun x => if decide (x = card) then 1 else 0) l.

(** The total of a hand when [high] of its aces count 11 and the others
    count 1. *)
Definition total_with (h : Hand) (high : nat) : Z :=
  hard_total h + 10 * Z.of_nat high.

(** Every card is there as often as the shoe has decks, counting the
    cards still in the shoe and the cards dealt since it was built. *)
Definition complete (d : Deck) : Prop :=
  forall card,
    copies card (cards d) + copies card (since_last_build (history d))
    = Z.pos (num_decks d).

(** A strategy that only ever answers hit or stand. *)
Definition hit_or_stand (strategy_func : Strategy) : Prop :=
  forall (h : Hand) upcard kw,
    strategy_func h upcard kw = Hit \/ strategy_func h upcard kw = Stand.

(** Two strategies with their keyword arguments give the same answers
    in the three kinds of call that [play_single_hand] makes. *)
Definition same_answers (sf1 : Strategy) (args1 : gmap string pyval)
  (sf2 : Strategy) (args2 : gmap string pyval) : Prop :=
  forall (h : Hand) upcard,
    sf1 h upcard args1 = sf2 h upcard args2
    /\ sf1 h upcard (<["can_double" := PBool true]> args1)
       = sf2 h upcard (<["can_double" := PBool true]> args2)
    /\ sf1 h upcard (<["can_split" := PBool true]> args1)
       = sf2 h upcard (<["can_split" := PBool true]> args2).

(** The number of losses at the head of a list of results, and the
    number of rounds lost in a row at the end of one. *)
Fixpoint losses_at_head (l : list ResultTag) : nat :=
  match l with
  | Loss :: l' => S (losses_at_head l')
  | _ => O
  end.

Definition losing_streak (l : list ResultTag) : nat := losses_at_head (rev l).

(** The variables of the driver other than [current_bet]. *)
Definition without_bet (s : Sim)
  : Deck * Z * option ResultTag * list Outcome :=
  (sim_deck s, running_count s, last_result s, game_results s).

(** The number of cards that a shoe has handed out in its life. *)
Definition cards_dealt (d : Deck) : nat := length (dealt_in (history d)).

(** ** Concrete shoes and runs *)

Definition sp (r : Rank) : Card := mkCard Spades r.

(** A shoe in the middle of its life whose next cards are [next], first
    dealt first. *)
Definition stacked (next : list Rank) : Deck :=
  mkDeck 6 (rev (map sp next)) (mkRandom (fun _ => 0%nat) 0) [Built].

(** Player 10-7, dealer A-A, then a 5. *)
Definition shoe_two_aces : Deck := stacked [R10; RA; R7; RA; R5; R9; R2].

(** Player 8-8, dealer 10-6; the split hands draw 10 and K; then 5, Q. *)
Definition shoe_eights : Deck :=
  stacked [R8; R10; R8; R6; R10; RK; R5; RQ; R2].

(** Player 8-8, dealer 9-7; the split hands draw 10 and 10; then 5, K. *)
Definition shoe_eights_nine : Deck :=
  stacked [R8; R9; R8; R7; R10; R10; R5; RK; R3].

(** Player 10-7, dealer 10-6, then a 5. *)
Definition shoe_sixteen : Deck := stacked [R10; R10; R7; R6; R5; RQ; R2].

(** Player A-K, dealer 9-7. *)
Definition shoe_natural : Deck := stacked [RA; R9; RK; R7; R5; R2].

(** Generators: every draw 0, every draw 5, the draws 0, 1, 2, ... and
    the draws 0, 3, 6, 10, 13, ... *)
Definition gen_zero : Random := mkRandom (fun _ => 0%nat) 0.
Definition gen_five : Random := mkRandom (fun _ => 5%nat) 0.
Definition gen_count : Random := mkRandom (fun k => k) 0.
Definition gen_mixed : Random := mkRandom (fun k => (k * 3 + k / 3)%nat) 0.

(** The card counter's simulation with its default arguments. *)
Definition counter_run (num_games : nat) (r : Random) : option Sim :=
  run_simulation CardCounter num_games Flat 10 true ∅ r.

Definition counter_round (s : Sim) : option (Sim * RoundEnv) :=
  sim_round CardCounter Flat 10 true ∅ s.

(** A state of the driver with one deck left in the shoe and a given
    running count. *)
Definition one_deck_left (running_count : Z) : Sim :=
  mkSim (mkDeck 6 one_deck gen_zero []) running_count None 10 [].

(** The same with two decks left. *)
Definition two_decks_left (running_count : Z) : Sim :=
  mkSim (mkDeck 6 (one_deck ++ one_deck) gen_zero []) running_count None 10 [].

(** Player 6-5, dealer 10-6, then a 9 for the player and a 5 for the
    dealer. *)
Definition shoe_eleven : Deck := stacked [R6; R10; R5; R6; R9; R5; R2].

(** * Properties *)

(** ** Hand arithmetic *)

Lemma raw_sum_app (h1 h2 : Hand) : raw_sum (h1 ++ h2) = raw_sum h1 + raw_sum h2.
Proof.
  unfold raw_sum. induction h1 as [|a h1 IH]; simpl; [reflexivity|].
  rewrite IH. lia.
Qed.

Lemma raw_sum_add (h : Hand) card :
  raw_sum (add_card h card) = raw_sum h + value card.
Proof. unfold add_card. rewrite raw_sum_app. unfold raw_sum. simpl. lia. Qed.

Lemma count_aces_add (h : Hand) card :
  count_aces (add_card h card)
  = (count_aces h + (if decide (rank card = RA) then 1 else 0))%nat.
Proof.
  unfold add_card, count_aces. rewrite filter_app, length_app.
  f_equal. rewrite filter_cons, filter_nil.
  destruct (decide (rank card = RA)); reflexivity.
Qed.

Lemma value_bounds card :
  2 <= value card <= 11 /\ (value card = 11 <-> rank card = RA).
Proof.
  unfold value. destruct (rank card); simpl;
    repeat split; try lia; try congruence; try discriminate.
Qed.

Lemma hard_total_add (h : Hand) card :
  hard_total h + 1 <= hard_total (add_card h card).
Proof.
  unfold hard_total. rewrite raw_sum_add, count_aces_add.
  pose proof (value_bounds card) as [Hb Ha].
  destruct (decide (rank card = RA)) as [E|E]; rewrite Nat2Z.inj_add; simpl.
  - apply Ha in E. lia.
  - lia.
Qed.

Lemma hard_total_nonneg (h : Hand) : 0 <= hard_total h.
Proof.
  induction h as [|a h IH] using rev_ind.
  - vm_compute. discriminate.
  - pose proof (hard_total_add h a). unfold add_card in *. lia.
Qed.

Lemma adjust_aces_bounds v n :
  v - 10 * Z.of_nat n <= (adjust_aces v n).1 <= v.
Proof.
  revert v. induction n as [|n IH]; intros v; simpl; [lia|].
  destruct (21 <? v); simpl; [|lia].
  specialize (IH (v - 10)). lia.
Qed.

Lemma adjust_aces_small v n : v <= 21 -> adjust_aces v n = (v, n).
Proof.
  intros H. destruct n as [|n]; simpl; [reflexivity|].
  destruct (21 <? v) eqn:E; [apply Z.ltb_lt in E; lia | reflexivity].
Qed.

(** When the loop of [get_value] leaves an ace at 11 the total is at most
    21. *)
Lemma adjust_aces_high v n :
  (0 < (adjust_aces v n).2)%nat -> (adjust_aces v n).1 <= 21.
Proof.
  revert v. induction n as [|n IH]; intros v; simpl; [lia|].
  destruct (21 <? v) eqn:E; simpl.
  - apply IH.
  - intros _. apply Z.ltb_ge in E. exact E.
Qed.

Lemma get_value_ge_hard (h : Hand) : hard_total h <= get_value h.
Proof.
  unfold get_value, hard_total.
  pose proof (adjust_aces_bounds (raw_sum h) (count_aces h)). lia.
Qed.

Lemma get_value_le_raw (h : Hand) : get_value h <= raw_sum h.
Proof.
  unfold get_value.
  pose proof (adjust_aces_bounds (raw_sum h) (count_aces h)). lia.
Qed.

Lemma two_card_value (a b : Card) : 4 <= get_value [a; b] <= 21.
Proof.
  destruct a as [sa ra], b as [sb rb].
  destruct ra, rb; vm_compute; split; discriminate.
Qed.

(** ** The soft predicate (claim C2) *)

(** What [is_soft] computes: an ace in the hand and no ace adjusted. *)
Lemma is_soft_spec (h : Hand) :
  is_soft h = true <-> (0 < count_aces h)%nat /\ raw_sum h <= 21.
Proof.
  unfold is_soft. rewrite andb_true_iff, Nat.ltb_lt, Z.leb_le. reflexivity.
Qed.

(** Whenever [is_soft] answers yes the hand is soft in the sense of the
    specification. *)
Lemma is_soft_sound (h : Hand) : is_soft h = true -> spec_soft h = true.
Proof.
  intros H. apply is_soft_spec in H as [Ha Hv].
  unfold spec_soft, aces_at_11, get_value.
  rewrite (adjust_aces_small _ _ Hv). simpl.
  apply andb_true_iff. split; [apply Nat.ltb_lt | apply Z.leb_le]; assumption.
Qed.

(** The two predicates agree on hands with at most one ace. *)
Lemma is_soft_one_ace (h : Hand) :
  (count_aces h <= 1)%nat -> is_soft h = spec_soft h.
Proof.
  intros H. unfold is_soft, spec_soft, aces_at_11, get_value.
  destruct (count_aces h) as [|[|n]] eqn:E; [reflexivity| |lia].
  simpl. destruct (21 <? raw_sum h) eqn:Ev; simpl.
  - apply Z.ltb_lt in Ev. apply Z.leb_gt. exact Ev.
  - reflexivity.
Qed.

(** They differ exactly on the soft hands in which some ace was adjusted. *)
Lemma is_soft_misses (h : Hand) :
  spec_soft h = true -> is_soft h = false -> 21 < raw_sum h.
Proof.
  intros Hs Hc. destruct (Z.lt_ge_cases 21 (raw_sum h)) as [|Hle]; [assumption|].
  exfalso. unfold spec_soft, aces_at_11, get_value in Hs.
  rewrite adjust_aces_small in Hs by lia. simpl in Hs.
  unfold is_soft in Hc. rewrite Hs in Hc. discriminate.
Qed.

(** C2, at the hand of two aces: [get_value] gives 12 with one ace still
    counted as 11, so the hand is soft as the specification defines it,
    and [is_soft] answers that it is not. *)
Theorem is_soft_rejects_two_aces :
  get_value [sp RA; mkCard Hearts RA] = 12
  /\ aces_at_11 [sp RA; mkCard Hearts RA] = 1%nat
  /\ spec_soft [sp RA; mkCard Hearts RA] = true
  /\ is_soft [sp RA; mkCard Hearts RA] = false.
Proof. repeat split. Qed.

(** ** The shoe *)

Lemma swap_length x i j : length (swap x i j) = length x.
Proof.
  unfold swap. destruct (x !! i), (x !! j); try reflexivity.
  rewrite !length_insert. reflexivity.
Qed.

Lemma shuffle_from_length i : forall x r,
  length (shuffle_from i x r).1 = length x.
Proof.
  induction i as [|i IH]; intros x r; [reflexivity|].
  cbn [shuffle_from]. unfold randbelow. rewrite IH. apply swap_length.
Qed.

Lemma shuffle_length d : length (cards (shuffle d)) = length (cards d).
Proof.
  unfold shuffle, random_shuffle.
  pose proof (shuffle_from_length (length (cards d) - 1) (cards d) (random d)) as H.
  destruct (shuffle_from _ _ _). exact H.
Qed.

Lemma shuffle_history d : history (shuffle d) = history d.
Proof. unfold shuffle. destruct (random_shuffle _ _). reflexivity. Qed.

Lemma fresh_cards_length n : length (fresh_cards n) = (52 * Pos.to_nat n)%nat.
Proof.
  unfold fresh_cards. induction (Pos.to_nat n) as [|k IH]; [reflexivity|].
  change (mjoin (replicate (S k) one_deck))
    with (one_deck ++ mjoin (replicate k one_deck)).
  rewrite length_app, IH.
  change (length one_deck) with 52%nat. lia.
Qed.

Lemma pop_snoc x card : pop (x ++ [card]) = Some (card, x).
Proof. unfold pop. rewrite rev_app_distr. simpl. rewrite rev_involutive. reflexivity. Qed.

Lemma pop_nonempty (x : list Card) :
  x <> [] -> exists card rest, x = rest ++ [card].
Proof.
  intros H. destruct x as [|a x] using rev_ind; [congruence|]. eauto.
Qed.

Lemma ready_nonempty d : cards (ready d) <> [].
Proof.
  unfold ready. destruct (length (cards d) =? 0)%nat eqn:E.
  - intros H. apply (f_equal length) in H.
    rewrite shuffle_length in H. simpl in H. rewrite fresh_cards_length in H.
    simpl in H. lia.
  - apply Nat.eqb_neq in E. intros H. rewrite H in E. simpl in E. lia.
Qed.

(** [deal] always pops a card of the shoe: the placeholder for the empty
    pop is never used. *)
Lemma deal_pops d :
  exists rest,
    cards (ready d) = rest ++ [(deal d).1]
    /\ (deal d).2 = mkDeck (num_decks (ready d)) rest (random (ready d))
                      (history (ready d) ++ [Dealt (deal d).1]).
Proof.
  destruct (pop_nonempty _ (ready_nonempty d)) as (card & rest & H).
  exists rest. unfold deal. rewrite H, pop_snoc. simpl.
  split; reflexivity.
Qed.

(** ** Counting *)

Lemma update_count_increment count card :
  update_count count card = count + increment card.
Proof.
  unfold update_count, increment, rank_in.
  destruct (rank card); vm_compute; destruct count; reflexivity.
Qed.

Lemma tally_app l1 l2 : tally (l1 ++ l2) = tally l1 + tally l2.
Proof.
  unfold tally. induction l1 as [|a l1 IH]; simpl; [reflexivity|].
  rewrite IH. lia.
Qed.

(** Folding the cards seen into the count adds their increments. *)
Lemma fold_update_count l : forall count,
  fold_left update_count l count = count + tally l.
Proof.
  induction l as [|a l IH]; intros count; simpl.
  - unfold tally. simpl. lia.
  - rewrite IH, update_count_increment.
    change (a :: l) with ([a] ++ l). rewrite tally_app.
    unfold tally at 2. simpl. lia.
Qed.

Lemma tally_insert (l : list Card) : forall i a b,
  l !! i = Some a -> tally (<[i := b]> l) = tally l - increment a + increment b.
Proof.
  induction l as [|x l IH]; intros i a b H; [discriminate|].
  destruct i as [|i]; simpl in *.
  - injection H as ->. unfold tally. simpl. lia.
  - unfold tally in *. simpl. rewrite (IH i a b H). lia.
Qed.

Lemma tally_swap x i j : tally (swap x i j) = tally x.
Proof.
  unfold swap. destruct (x !! i) as [a|] eqn:Hi; [|reflexivity].
  destruct (x !! j) as [b|] eqn:Hj; [|reflexivity].
  assert (Ha : <[j := a]> x !! i = Some a).
  { destruct (decide (i = j)) as [->|Hne].
    - apply list_lookup_insert_eq. apply lookup_lt_Some in Hj. exact Hj.
    - rewrite list_lookup_insert_ne by congruence. exact Hi. }
  rewrite (tally_insert _ _ _ _ Ha), (tally_insert _ _ _ _ Hj). lia.
Qed.

Lemma tally_shuffle_from i : forall x r, tally (shuffle_from i x r).1 = tally x.
Proof.
  induction i as [|i IH]; intros x r; [reflexivity|].
  cbn [shuffle_from]. unfold randbelow. rewrite IH. apply tally_swap.
Qed.

Lemma tally_shuffle d : tally (cards (shuffle d)) = tally (cards d).
Proof.
  unfold shuffle, random_shuffle.
  pose proof (tally_shuffle_from (length (cards d) - 1) (cards d) (random d)) as H.
  destruct (shuffle_from _ _ _). exact H.
Qed.

(** A full shoe counts to zero: each deck has as many low as high cards. *)
Lemma tally_fresh n : tally (fresh_cards n) = 0.
Proof.
  unfold fresh_cards. induction (Pos.to_nat n) as [|k IH]; [reflexivity|].
  change (mjoin (replicate (S k) one_deck))
    with (one_deck ++ mjoin (replicate k one_deck)).
  rewrite tally_app, IH. reflexivity.
Qed.

Lemma since_last_build_built h : since_last_build (h ++ [Built]) = [].
Proof. unfold since_last_build. rewrite fold_left_app. reflexivity. Qed.

Lemma since_last_build_dealt h card :
  since_last_build (h ++ [Dealt card]) = since_last_build h ++ [card].
Proof. unfold since_last_build. rewrite fold_left_app. reflexivity. Qed.

Lemma dealt_in_dealt h card : dealt_in (h ++ [Dealt card]) = dealt_in h ++ [card].
Proof. unfold dealt_in. rewrite omap_app. reflexivity. Qed.

Lemma dealt_in_built h : dealt_in (h ++ [Built]) = dealt_in h.
Proof. unfold dealt_in. rewrite omap_app. simpl. apply app_nil_r. Qed.

Lemma rebuilt_balanced d :
  balanced (shuffle (build d)) /\ shoe_count (shuffle (build d)) = 0.
Proof.
  unfold balanced, shoe_count. rewrite tally_shuffle, shuffle_history. simpl.
  rewrite tally_fresh, since_last_build_built. split; reflexivity.
Qed.

(** On a balanced shoe every deal adds the increment of its card to the
    count of the shoe, also when the deal rebuilds the shoe: the shoe it
    replaces was dealt to the last card and counted to zero. *)
Lemma deal_balanced d :
  balanced d ->
  balanced (deal d).2
  /\ shoe_count (deal d).2 = shoe_count d + increment (deal d).1.
Proof.
  intros Hb. destruct (deal_pops d) as (rest & Hc & ->).
  assert (Hr : balanced (ready d) /\ shoe_count (ready d) = shoe_count d).
  { unfold ready. destruct (length (cards d) =? 0)%nat eqn:E; [|auto].
    destruct (rebuilt_balanced d) as [H1 H2]. split; [exact H1|].
    rewrite H2. apply Nat.eqb_eq in E.
    destruct (cards d) eqn:Ec; [|discriminate].
    unfold balanced in Hb. rewrite Ec in Hb. unfold tally in Hb at 1.
    simpl in Hb. lia. }
  destruct Hr as [Hr1 Hr2]. unfold balanced, shoe_count in *. simpl.
  rewrite since_last_build_dealt, tally_app.
  rewrite Hc, tally_app in Hr1.
  assert (Hone : tally [(deal d).1] = increment (deal d).1)
    by (unfold tally; simpl; lia).
  rewrite Hone in *. lia.
Qed.

Lemma deals_app d l1 : forall d1 l2 d2,
  deals d l1 d1 -> deals d1 l2 d2 -> deals d (l1 ++ l2) d2.
Proof.
  revert d. induction l1 as [|a l1 IH]; intros d d1 l2 d2 H1 H2; simpl in *.
  - subst d1. exact H2.
  - destruct H1 as [Ha H1]. split; [exact Ha|]. eapply IH; eassumption.
Qed.

Lemma deals_one d : deals d [(deal d).1] (deal d).2.
Proof. simpl. auto. Qed.

Lemma deals_balanced l : forall d d',
  balanced d -> deals d l d' ->
  balanced d' /\ shoe_count d' = shoe_count d + tally l.
Proof.
  induction l as [|a l IH]; intros d d' Hb H; simpl in H.
  - subst d'. split; [exact Hb|]. unfold tally. simpl. lia.
  - destruct H as [Ha H]. destruct (deal_balanced d Hb) as [Hb1 Hc1].
    destruct (IH _ _ Hb1 H) as [Hb2 Hc2]. split; [exact Hb2|].
    rewrite Hc2, Hc1, Ha. change (a :: l) with ([a] ++ l).
    rewrite tally_app. unfold tally at 2. simpl. lia.
Qed.

Lemma deal_dealt_in d :
  dealt_in (history (deal d).2) = dealt_in (history d) ++ [(deal d).1].
Proof.
  destruct (deal_pops d) as (rest & _ & ->). simpl. rewrite dealt_in_dealt.
  f_equal. unfold ready. destruct (length (cards d) =? 0)%nat; [|reflexivity].
  rewrite shuffle_history. simpl. apply dealt_in_built.
Qed.

(** The cards that [deals] lists are the cards that the history records. *)
Lemma deals_dealt_in l : forall d d',
  deals d l d' -> dealt_in (history d') = dealt_in (history d) ++ l.
Proof.
  induction l as [|a l IH]; intros d d' H; simpl in H.
  - subst d'. symmetry. apply app_nil_r.
  - destruct H as [Ha H]. rewrite (IH _ _ H), deal_dealt_in, Ha.
    rewrite <- app_assoc. reflexivity.
Qed.

(** ** The steps of a round *)

Lemma bind_Some {A B} (m : M A) (f : A -> M B) e a e' :
  m e = Some (a, e') -> (m ≫= f) e = f a e'.
Proof. intros H. unfold mbind, M_bind. rewrite H. reflexivity. Qed.

Ltac mstep H := rewrite (bind_Some _ _ _ _ _ H).

Lemma effect_refl e : effect e e [] [] [].
Proof. unfold effect. rewrite !app_nil_r. simpl. auto. Qed.

Lemma effect_trans e e1 e2 s1 s2 d1 d2 r1 r2 :
  effect e e1 s1 d1 r1 -> effect e1 e2 s2 d2 r2 ->
  effect e e2 (s1 ++ s2) (d1 ++ d2) (r1 ++ r2).
Proof.
  intros (Ha & Hb & Hc) (Ha' & Hb' & Hc'). unfold effect.
  rewrite Ha', Ha, Hc', Hc, <- !app_assoc.
  repeat split. eapply deals_app; eassumption.
Qed.

(** Closes a goal [effect e e2 ...] from the effects of two steps in a row. *)
Ltac chain H1 H2 :=
  let H := fresh in
  pose proof (effect_trans _ _ _ _ _ _ _ _ _ H1 H2) as H;
  rewrite ?app_nil_r in H; simpl in H; exact H.

Lemma deal_card_spec e :
  exists card e',
    deal_card e = Some (card, e') /\ effect e e' [] [card] [].
Proof.
  unfold deal_card. destruct (deal (env_deck e)) as [card d] eqn:E.
  exists card, (mkEnv d (env_cards_seen e) (env_dealer_runs e)).
  split; [reflexivity|]. unfold effect. simpl. rewrite !app_nil_r, E. simpl. auto.
Qed.

Lemma see_spec l e :
  exists e', see l e = Some (tt, e') /\ effect e e' l [] [].
Proof.
  eexists. split; [reflexivity|]. unfold effect. simpl.
  rewrite app_nil_r. auto.
Qed.

Lemma note_dealer_run_spec run e :
  exists e', note_dealer_run run e = Some (tt, e') /\ effect e e' [] [] [run].
Proof.
  eexists. split; [reflexivity|]. unfold effect. simpl.
  rewrite app_nil_r. auto.
Qed.

Lemma is_soft_hard (h : Hand) : is_soft h = true -> hard_total h <= 11.
Proof. intros H. apply is_soft_spec in H. unfold hard_total. lia. Qed.

Lemma dealer_draws_hard dealer :
  dealer_draws dealer = true -> hard_total dealer <= 16.
Proof.
  unfold dealer_draws. intros H. apply orb_true_iff in H as [H|H].
  - apply Z.ltb_lt in H. pose proof (get_value_ge_hard dealer). lia.
  - apply andb_true_iff in H as [_ H]. apply is_soft_hard in H. lia.
Qed.

(** Where the dealer's loop stops: at 17 or more, and at 17 only if
    [is_soft] answers no. *)
Lemma dealer_stops dealer :
  dealer_draws dealer = false <->
  17 <= get_value dealer /\ (get_value dealer = 17 -> is_soft dealer = false).
Proof.
  unfold dealer_draws. rewrite orb_false_iff, andb_false_iff, Z.ltb_ge, Z.eqb_neq.
  split.
  - intros [H1 [H2|H2]]; split; auto. intros; lia.
  - intros [H1 H2]. split; [exact H1|].
    destruct (Z.eq_dec (get_value dealer) 17); auto.
Qed.

(** The dealer's loop ends within the bound: each draw raises the hard
    total, and the loop draws only below a hard total of 17. *)
Lemma dealer_loop_spec steps : forall dealer drawn e,
  1 <= Z.of_nat steps -> 18 - hard_total dealer <= Z.of_nat steps ->
  exists new e',
    dealer_loop steps dealer drawn e = Some ((dealer ++ new, drawn ++ new), e')
    /\ dealer_draws (dealer ++ new) = false
    /\ effect e e' [] new []
    /\ forall k : nat, (k < length new)%nat ->
         dealer_draws (dealer ++ take k new) = true.
Proof.
  induction steps as [|steps IH]; intros dealer drawn e H1s Hs; [lia|].
  cbn [dealer_loop]. destruct (dealer_draws dealer) eqn:E.
  - destruct (deal_card_spec e) as (card & e1 & Hd & He1). mstep Hd.
    pose proof (dealer_draws_hard _ E) as Eh.
    pose proof (hard_total_add dealer card).
    destruct (IH (add_card dealer card) (drawn ++ [card]) e1)
      as (new & e' & Hl & Hstop & He' & Hdrew); [lia | lia |].
    exists (card :: new), e'. unfold add_card in *.
    rewrite <- !app_assoc in Hl. simpl in Hl. rewrite <- app_assoc in Hstop.
    refine (conj Hl (conj Hstop (conj _ _))).
    + apply (effect_trans _ _ _ _ _ _ _ _ _ He1 He').
    + intros [|k] Hk.
      * cbn [take]. rewrite app_nil_r. exact E.
      * cbn [take]. cbn [length] in Hk.
        specialize (Hdrew k ltac:(lia)).
        rewrite <- app_assoc in Hdrew. exact Hdrew.
  - exists [], e. rewrite !app_nil_r.
    refine (conj eq_refl (conj E (conj (effect_refl e) _))).
    intros k Hk. cbn in Hk. lia.
Qed.

Lemma play_dealer_spec up rest e :
  exists new e',
    let final := (up :: rest) ++ new in
    play_dealer up rest e = Some ((hand_str final, get_value final, new), e')
    /\ dealer_draws final = false
    /\ effect e e' [] new [(hand_str final, get_value final)]
    /\ played_out (up :: rest) new.
Proof.
  destruct (dealer_loop_spec dealer_steps (up :: rest) [] e)
    as (new & e1 & Hl & Hstop & He1 & Hdrew).
  { unfold dealer_steps. lia. }
  { pose proof (hard_total_nonneg (up :: rest)). unfold dealer_steps. lia. }
  destruct (note_dealer_run_spec
              (hand_str ((up :: rest) ++ new), get_value ((up :: rest) ++ new)) e1)
    as (e' & Hn & He').
  exists new, e'. cbn zeta. unfold play_dealer, dealer_hand_cards.
  mstep Hl. mstep Hn. split; [reflexivity|]. split; [exact Hstop|].
  split; [chain He1 He' | exact (conj Hdrew Hstop)].
Qed.

Section RoundProperties.
Variable strategy_func : Strategy.
Variable strategy_args : gmap string pyval.
Variable dealer_up : Card.
Variable dealer_rest : list Card.

(** The hit loop ends within the bound whatever the strategy answers:
    each hit raises the hard total, and above 21 the hand is bust. *)
Lemma hit_loop_spec steps : forall (hand : Hand) e,
  1 <= Z.of_nat steps -> 23 - hard_total hand <= Z.of_nat steps ->
  exists new bust e',
    hit_loop strategy_func strategy_args dealer_up steps hand e
    = Some ((hand ++ new, bust), e')
    /\ effect e e' new new []
    /\ (bust = true -> 21 < get_value (hand ++ new))
    /\ (bust = false -> get_value hand <= 21 -> get_value (hand ++ new) <= 21).
Proof.
  induction steps as [|steps IH]; intros hand e H1s Hs; [lia|].
  cbn [hit_loop].
  destruct (bool_decide (strategy_func hand dealer_up strategy_args = Hit)).
  - destruct (deal_card_spec e) as (card & e1 & Hd & He1). mstep Hd.
    destruct (see_spec [card] e1) as (e2 & Hsee & He2). mstep Hsee.
    pose proof (effect_trans _ _ _ _ _ _ _ _ _ He1 He2) as He12.
    simpl in He12.
    destruct (21 <? get_value (add_card hand card)) eqn:Ev.
    + exists [card], true, e2. split; [reflexivity|].
      split; [exact He12|]. split; [|discriminate].
      intros _. apply Z.ltb_lt in Ev. exact Ev.
    + apply Z.ltb_ge in Ev.
      pose proof (hard_total_add hand card).
      pose proof (get_value_ge_hard (add_card hand card)).
      destruct (IH (add_card hand card) e2)
        as (new & bust & e' & Hl & He' & Hb & Hn); [lia | lia |].
      exists (card :: new), bust, e'. unfold add_card in *.
      rewrite <- !app_assoc in Hl, Hb, Hn. simpl in Hl, Hb, Hn.
      refine (conj Hl (conj _ (conj Hb _))).
      * apply (effect_trans _ _ _ _ _ _ _ _ _ He12 He').
      * intros Hf _. apply (Hn Hf Ev).
  - exists [], false, e. rewrite !app_nil_r.
    refine (conj eq_refl (conj (effect_refl e) (conj _ _)));
      [discriminate | auto].
Qed.

(** The dealer's turn and the comparison that end normal play and a
    double. *)
Lemma dealer_turn_spec (hand : Hand) (stake : Z) e :
  exists new e',
    let final := (dealer_up :: dealer_rest) ++ new in
    (play_dealer dealer_up dealer_rest ≫=
      (fun '(dealer_final, dealer_val, dealer_cards) =>
         see dealer_cards ≫= fun _ =>
         mret (hand_str hand, settle (get_value hand) dealer_val stake, hand))) e
    = Some ((hand_str hand, settle (get_value hand) (get_value final) stake,
             hand), e')
    /\ effect e e' new new [(hand_str final, get_value final)]
    /\ played_out (dealer_up :: dealer_rest) new.
Proof.
  destruct (play_dealer_spec dealer_up dealer_rest e)
    as (new & e1 & Hp & _ & He1 & Hout).
  cbn zeta in *. destruct (see_spec new e1) as (e2 & Hsee & He2).
  exists new, e2. mstep Hp. mstep Hsee. split; [reflexivity|].
  split; [chain He1 He2 | exact Hout].
Qed.

(** Normal play: the hand is hit until the strategy stops or the hand
    is bust, then settled on its own for the bet. *)
Lemma normal_play_spec (hand : Hand) (bet : Z) e :
  exists hits drawn runs prof e',
    normal_play strategy_func strategy_args dealer_up dealer_rest hand bet e
    = Some ((hand_str (hand ++ hits), prof, hand ++ hits), e')
    /\ effect e e' (hits ++ drawn) (hits ++ drawn) runs
    /\ (get_value hand <= 21 ->
        settled_once (dealer_up :: dealer_rest) bet (hand ++ hits) drawn
          runs prof).
Proof.
  destruct (hit_loop_spec hit_steps hand e)
    as (hits & bust & e1 & Hl & He1 & Hb & Hn).
  { unfold hit_steps. lia. }
  { pose proof (hard_total_nonneg hand). unfold hit_steps. lia. }
  unfold normal_play. mstep Hl.
  destruct bust.
  - exists hits, [], [], (- bet), e1. rewrite app_nil_r.
    split; [reflexivity|]. split; [exact He1|]. intros _.
    unfold settled_once. specialize (Hb eq_refl).
    apply Z.ltb_lt in Hb. rewrite Hb. auto.
  - destruct (dealer_turn_spec (hand ++ hits) bet e1)
      as (drawn & e' & Hd & He' & Hout).
    cbn zeta in *. eexists hits, drawn, _, _, e'.
    split; [exact Hd|]. split; [chain He1 He'|]. intros Hv.
    unfold settled_once. specialize (Hn eq_refl Hv).
    apply Z.ltb_ge in Hn. rewrite Hn. auto.
Qed.

(** A double: one card, then the hand is settled on its own for twice
    the bet. *)
Lemma double_play_spec (hand : Hand) (bet : Z) e :
  exists card drawn runs prof e',
    double_play dealer_up dealer_rest hand bet e
    = Some ((hand_str (hand ++ [card]), prof, hand ++ [card]), e')
    /\ effect e e' ([card] ++ drawn) ([card] ++ drawn) runs
    /\ settled_once (dealer_up :: dealer_rest) (2 * bet) (hand ++ [card])
         drawn runs prof.
Proof.
  destruct (deal_card_spec e) as (card & e1 & Hd & He1).
  destruct (see_spec [card] e1) as (e2 & Hsee & He2).
  assert (He12 : effect e e2 [card] [card] []) by chain He1 He2.
  unfold double_play. mstep Hd. mstep Hsee.
  unfold add_card. unfold settled_once.
  destruct (21 <? get_value (hand ++ [card])) eqn:Ev.
  - exists card, [], [], (-2 * bet), e2. rewrite app_nil_r, Ev.
    split; [reflexivity|]. split; [exact He12|].
    split; [reflexivity|]. split; [reflexivity | lia].
  - destruct (dealer_turn_spec (hand ++ [card]) (2 * bet) e2)
      as (drawn & e' & Ht & He' & Hout).
    cbn zeta in *. eexists card, drawn, _, _, e'. rewrite Ev.
    split; [exact Ht|]. split; [chain He12 He'|]. auto.
Qed.

(** Past the split block: the hand is doubled or played normally, and
    settled on its own for its stake. *)
Lemma play_unsplit_spec (hand : Hand) (bet : Z) (allow_double : bool) e :
  exists hits drawn runs prof e',
    play_unsplit strategy_func strategy_args dealer_up dealer_rest
      hand bet allow_double e
    = Some ((hand_str (hand ++ hits), prof, hand ++ hits), e')
    /\ effect e e' (hits ++ drawn) (hits ++ drawn) runs
    /\ (get_value hand <= 21 ->
        settled_once (dealer_up :: dealer_rest)
          (stake_of strategy_func strategy_args dealer_up hand allow_double bet)
          (hand ++ hits) drawn runs prof)
    /\ (doubles strategy_func strategy_args dealer_up hand allow_double = true ->
        length hits = 1%nat).
Proof.
  unfold play_unsplit, stake_of, doubles.
  destruct (_ && _ && _).
  - destruct (double_play_spec hand bet e)
      as (card & drawn & runs & prof & e' & H1 & H2 & H3).
    exists [card], drawn, runs, prof, e'. auto.
  - destruct (normal_play_spec hand bet e)
      as (hits & drawn & runs & prof & e' & H1 & H2 & H3).
    exists hits, drawn, runs, prof, e'.
    split; [exact H1|]. split; [exact H2|]. split; [exact H3 | discriminate].
Qed.
End RoundProperties.

Lemma settled_once_runs dealer stake final drawn runs prof :
  settled_once dealer stake final drawn runs prof -> (length runs <= 1)%nat.
Proof.
  unfold settled_once. destruct (21 <? get_value final).
  - intros (_ & -> & _). simpl. lia.
  - intros (_ & -> & _). simpl. lia.
Qed.

(** What a call of [play_single_hand] does, split or not: a hand that is
    not split draws its cards and is settled once; the two hands of a split
    get a card each and are then played and settled once each, one after
    the other.  The cards that the call takes from the shoe and appends
    to [cards_seen] are, in order, those of the hands and of the dealer
    runs. *)
Lemma play_single_hand_spec
  (strategy_func : Strategy) (strategy_args : gmap string pyval)
  (dealer_up : Card) (dealer_rest : list Card)
  (hand : Hand) (bet : Z) (allow_double allow_split : bool) (e : RoundEnv) :
  exists res prof hand' e' new runs,
    play_single_hand strategy_func strategy_args dealer_up dealer_rest
      hand bet allow_double allow_split e = Some ((res, prof, hand'), e')
    /\ effect e e' new new runs
    /\ (get_value hand <= 21 ->
        if splits strategy_func strategy_args dealer_up hand allow_split
        then exists c0 c1 x1 x2 hits1 drawn1 hits2 drawn2 prof1 prof2
               runs1 runs2,
               hand = [c0; c1] /\ hand' = hand
               /\ res = hand_str ([c0; x1] ++ hits1) +:+ "|"
                        +:+ hand_str ([c1; x2] ++ hits2)
               /\ new = [x1; x2] ++ (hits1 ++ drawn1) ++ (hits2 ++ drawn2)
               /\ runs = runs1 ++ runs2
               /\ settled_once (dealer_up :: dealer_rest)
                    (stake_of strategy_func strategy_args dealer_up
                       [c0; x1] true bet)
                    ([c0; x1] ++ hits1) drawn1 runs1 prof1
               /\ settled_once (dealer_up :: dealer_rest)
                    (stake_of strategy_func strategy_args dealer_up
                       [c1; x2] true bet)
                    ([c1; x2] ++ hits2) drawn2 runs2 prof2
               /\ prof = prof1 + prof2
        else exists hits drawn,
               hand' = hand ++ hits /\ res = hand_str (hand ++ hits)
               /\ new = hits ++ drawn
               /\ settled_once (dealer_up :: dealer_rest)
                    (stake_of strategy_func strategy_args dealer_up
                       hand allow_double bet)
                    (hand ++ hits) drawn runs prof).
Proof.
  destruct (splits strategy_func strategy_args dealer_up hand allow_split) eqn:Es.
  - destruct hand as [|c0 [|c1 [|c2 hand]]]; try discriminate Es.
    unfold play_single_hand. rewrite Es.
    destruct (deal_card_spec e) as (x1 & e1 & Hd1 & He1). mstep Hd1.
    destruct (deal_card_spec e1) as (x2 & e2 & Hd2 & He2). mstep Hd2.
    destruct (see_spec [x1; x2] e2) as (e3 & Hsee & He3). mstep Hsee.
    assert (He03 : effect e e3 [x1; x2] [x1; x2] []).
    { assert (He02 : effect e e2 [] [x1; x2] []) by chain He1 He2.
      chain He02 He3. }
    destruct (play_unsplit_spec strategy_func strategy_args dealer_up dealer_rest
                [c0; x1] bet true e3)
      as (hits1 & drawn1 & runs1 & prof1 & e4 & Hp1 & He4 & Hs1 & _).
    destruct (play_unsplit_spec strategy_func strategy_args dealer_up dealer_rest
                [c1; x2] bet true e4)
      as (hits2 & drawn2 & runs2 & prof2 & e5 & Hp2 & He5 & Hs2 & _).
    cbn zeta.
    change (add_card (add_card [] c0) x1) with [c0; x1].
    change (add_card (add_card [] c1) x2) with [c1; x2].
    mstep Hp1. mstep Hp2.
    eexists _, (prof1 + prof2), [c0; c1], e5,
      ([x1; x2] ++ (hits1 ++ drawn1) ++ (hits2 ++ drawn2)), (runs1 ++ runs2).
    split; [reflexivity|]. split.
    + assert (He35 : effect e3 e5 ((hits1 ++ drawn1) ++ (hits2 ++ drawn2))
                       ((hits1 ++ drawn1) ++ (hits2 ++ drawn2))
                       (runs1 ++ runs2)).
      { apply (effect_trans _ _ _ _ _ _ _ _ _ He4 He5). }
      apply (effect_trans _ _ _ _ _ _ _ _ _ He03 He35).
    + intros _.
      exists c0, c1, x1, x2, hits1, drawn1, hits2, drawn2, prof1, prof2,
        runs1, runs2.
      pose proof (two_card_value c0 x1). pose proof (two_card_value c1 x2).
      repeat (split; [reflexivity|]).
      split; [apply Hs1; lia|]. split; [apply Hs2; lia | reflexivity].
  - destruct (play_unsplit_spec strategy_func strategy_args dealer_up dealer_rest
                hand bet allow_double e)
      as (hits & drawn & runs & prof & e' & H1 & H2 & H3 & _).
    exists (hand_str (hand ++ hits)), prof, (hand ++ hits), e',
      (hits ++ drawn), runs.
    split.
    { rewrite <- H1. unfold play_single_hand.
      destruct hand as [|c0 [|c1 [|c2 hand]]]; try reflexivity.
      rewrite Es. reflexivity. }
    split; [exact H2|]. intros Hv. exists hits, drawn. auto.
Qed.

(** ** The round *)

(** Replaces the four deals at the head of [play_round] by the cards
    named in [H : initial_deal deck = (p1, d1, p2, d2, deck')]. *)
Ltac open_round H :=
  unfold play_round; unfold initial_deal in H;
  destruct (deal _) as [? ?]; destruct (deal _) as [? ?];
  destruct (deal _) as [? ?]; destruct (deal _) as [? ?];
  injection H as -> -> -> -> ->;
  change (add_card (add_card [] ?a) ?b) with [a; b].

Lemma initial_deal_deals deck p1 d1 p2 d2 deck' :
  initial_deal deck = (p1, d1, p2, d2, deck') -> deals deck [p1; d1; p2; d2] deck'.
Proof.
  unfold initial_deal. intros H.
  destruct (deal deck) as [a k1] eqn:E1.
  destruct (deal k1) as [b k2] eqn:E2.
  destruct (deal k2) as [c0 k3] eqn:E3.
  destruct (deal k3) as [d k4] eqn:E4.
  injection H as <- <- <- <- <-.
  cbn [deals]. rewrite E1. cbn [fst snd]. rewrite E2. cbn [fst snd].
  rewrite E3. cbn [fst snd]. rewrite E4. cbn [fst snd]. auto.
Qed.

Lemma Qlt_inject_Z (z : Z) : (0 < inject_Z z)%Q <-> 0 < z.
Proof. unfold Qlt. simpl. lia. Qed.

Lemma Qgt_inject_Z (z : Z) : (inject_Z z < 0)%Q <-> z < 0.
Proof. unfold Qlt. simpl. lia. Qed.

Lemma Qeq_inject_Z (z : Z) : (inject_Z z == 0)%Q <-> z = 0.
Proof. unfold Qeq. simpl. lia. Qed.

(** ** The calls described *)

Lemma plain_keywords_empty : plain_keywords ∅.
Proof. repeat constructor. Qed.

Lemma exact_bet_10 : exact_bet 10.
Proof. unfold exact_bet. simpl. lia. Qed.

(** Every round ends; what its record holds, by the four cases of the
    blackjack checks. *)
Lemma play_round_outcome
  (deck : Deck) (strategy_func : Strategy) (betting_amount : Z)
  (kw : gmap string pyval) (p1 d1 p2 d2 : Card) (deck' : Deck) :
  initial_deal deck = (p1, d1, p2, d2, deck') ->
  let player := [p1; p2] in
  let dealer := [d1; d2] in
  let e0 := mkEnv deck' (player ++ dealer) [] in
  exists r e,
    play_round deck strategy_func betting_amount kw = Some (r, e)
    /\ dealer_hand r = hand_str dealer
    /\ dealer_final_value r = get_value dealer
    /\ cards_seen r = env_cards_seen e
    /\ match is_blackjack player, is_blackjack dealer with
       | true, true => e = e0 /\ result r = Push /\ profit r = 0%Q
       | true, false =>
           e = e0 /\ result r = Win
           /\ profit r = ((3 # 2) * inject_Z betting_amount)%Q
       | false, true =>
           e = e0 /\ result r = Loss /\ profit r = inject_Z (- betting_amount)
       | false, false =>
           exists res prof hand',
             play_single_hand strategy_func (strategy_args_of kw) d1 [d2]
               player betting_amount true true e0 = Some ((res, prof, hand'), e)
             /\ player_hand r = res /\ profit r = inject_Z prof
             /\ player_final_value r = get_value hand'
             /\ result r
                = if 0 <? prof then Win else if prof <? 0 then Loss else Push
       end.
Proof.
  intros H player dealer e0. subst player dealer e0. open_round H.
  destruct (is_blackjack [p1; p2]), (is_blackjack [d1; d2]); simpl.
  1-3: eexists _, _; split; [reflexivity|]; simpl; auto 10.
  destruct (play_single_hand_spec strategy_func (strategy_args_of kw)
              d1 [d2] [p1; p2] betting_amount true true
              (mkEnv deck' ([p1; p2] ++ [d1; d2]) []))
    as (res & prof & hand' & e & new & runs & Hp & _).
  simpl in Hp. rewrite Hp.
  eexists _, e. split; [reflexivity|]. simpl.
  repeat (split; [reflexivity|]). exists res, prof, hand'. auto 10.
Qed.

(** What a round does, case by case: with a blackjack in the initial
    deal nothing more is dealt and the dealer is not played; otherwise
    the hand, or each hand of a split, is settled once on its own. *)
Lemma play_round_settles
  (deck : Deck) (strategy_func : Strategy) (betting_amount : Z)
  (kw : gmap string pyval) (p1 d1 p2 d2 : Card) (deck' : Deck) :
  initial_deal deck = (p1, d1, p2, d2, deck') ->
  let strategy_args := strategy_args_of kw in
  let stake hand :=
    stake_of strategy_func strategy_args d1 hand true betting_amount in
  exists r e later,
    play_round deck strategy_func betting_amount kw = Some (r, e)
    /\ cards_seen r = [p1; p2; d1; d2] ++ later
    /\ deals deck' later (env_deck e)
    /\ if is_blackjack [p1; p2] || is_blackjack [d1; d2]
       then later = [] /\ env_dealer_runs e = []
            /\ player_hand r = hand_str [p1; p2]
            /\ result r
               = (if is_blackjack [d1; d2]
                  then if is_blackjack [p1; p2] then Push else Loss
                  else Win)
       else if splits strategy_func strategy_args d1 [p1; p2] true
       then exists x1 x2 hits1 drawn1 hits2 drawn2 prof1 prof2 runs1 runs2,
              later = [x1; x2] ++ (hits1 ++ drawn1) ++ (hits2 ++ drawn2)
              /\ player_hand r
                 = hand_str ([p1; x1] ++ hits1) +:+ "|"
                   +:+ hand_str ([p2; x2] ++ hits2)
              /\ env_dealer_runs e = runs1 ++ runs2
              /\ settled_once [d1; d2] (stake [p1; x1]) ([p1; x1] ++ hits1)
                   drawn1 runs1 prof1
              /\ settled_once [d1; d2] (stake [p2; x2]) ([p2; x2] ++ hits2)
                   drawn2 runs2 prof2
              /\ profit r = inject_Z (prof1 + prof2)
       else exists hits drawn prof,
              later = hits ++ drawn
              /\ player_hand r = hand_str ([p1; p2] ++ hits)
              /\ settled_once [d1; d2] (stake [p1; p2]) ([p1; p2] ++ hits)
                   drawn (env_dealer_runs e) prof
              /\ profit r = inject_Z prof.
Proof.
  intros H strategy_args stake. subst strategy_args stake.
  destruct (play_round_outcome deck strategy_func betting_amount kw _ _ _ _ _ H)
    as (r & e & Hr & _ & _ & Hseen & B).
  cbn zeta in B.
  assert (Hname : is_blackjack [p1; p2] || is_blackjack [d1; d2] = true ->
            player_hand r = hand_str [p1; p2]).
  { clear B. revert Hr. open_round H.
    destruct (is_blackjack [p1; p2]), (is_blackjack [d1; d2]);
      try discriminate; intros Hr _; injection Hr as <- _; reflexivity. }
  destruct (is_blackjack [p1; p2]), (is_blackjack [d1; d2]); cbn [orb] in *.
  1-3: destruct B as (-> & Ht & _); eexists r, _, [];
       (split; [exact Hr|]); rewrite Hseen, app_nil_r;
       cbn [env_cards_seen env_dealer_runs env_deck deals app]; auto 10.
  destruct B as (res & prof & hand' & Hs & Hres & Hprof & _).
  destruct (play_single_hand_spec strategy_func (strategy_args_of kw) d1 [d2]
              [p1; p2] betting_amount true true
              (mkEnv deck' ([p1; p2] ++ [d1; d2]) []))
    as (res' & prof' & hand'' & e' & new & runs & Hs'
        & (Hsn & Hdeals & Hruns) & Hcase).
  rewrite Hs in Hs'. injection Hs' as <- <- <- <-.
  cbn [env_cards_seen env_deck env_dealer_runs app] in Hsn, Hdeals, Hruns.
  specialize (Hcase ltac:(apply two_card_value)).
  exists r, e, new. split; [exact Hr|].
  split; [rewrite Hseen; exact Hsn|]. split; [exact Hdeals|].
  destruct (splits strategy_func (strategy_args_of kw) d1 [p1; p2] true).
  - destruct Hcase as (c0 & c1 & x1 & x2 & hits1 & drawn1 & hits2 & drawn2
                       & prof1 & prof2 & runs1 & runs2
                       & Hh & _ & -> & -> & -> & S1 & S2 & ->).
    injection Hh as <- <-.
    exists x1, x2, hits1, drawn1, hits2, drawn2, prof1, prof2, runs1, runs2.
    auto 10.
  - destruct Hcase as (hits & drawn & _ & -> & -> & S).
    exists hits, drawn, prof. rewrite Hruns. auto.
Qed.

(** ** One dealer run for each hand (claim C3) *)

(** C3, as amended. With a blackjack in the initial deal the round is
    settled on the four cards: no card is drawn and the dealer is not
    played. Otherwise a hand that is not split draws its cards and is
    settled once: if it is bust the dealer is not played for it and the
    stake is lost, if not the dealer is played exactly once, from the
    dealer's two initial cards with the next cards of the shoe, and the hand
    is compared with the value of that run. When the hand is split, each of
    the two hands gets a card and is then played and settled once on its
    own, one after the other, each hand that is not bust against a dealer
    run of its own that starts again from the dealer's two initial cards;
    the profit is the sum of the two. The cards of the hands and of the
    dealer runs are, in this order, the cards that the round takes from the
    shoe after the initial deal, and the record shows the hands so played.
    The keyword arguments repeat none of the names that the calls of a round
    bind themselves ([plain_keywords]) and the bet is in the range in which
    the double product of 1.5 and the bet is exact ([exact_bet]). *)
Theorem each_hand_settled_on_its_own
  (deck : Deck) (strategy_func : Strategy) (betting_amount : Z)
  (kw : gmap string pyval) (p1 d1 p2 d2 : Card) (deck' : Deck) :
  plain_keywords kw ->
  exact_bet betting_amount ->
  initial_deal deck = (p1, d1, p2, d2, deck') ->
  let strategy_args := strategy_args_of kw in
  let stake hand :=
    stake_of strategy_func strategy_args d1 hand true betting_amount in
  exists r e later,
    play_round deck strategy_func betting_amount kw = Some (r, e)
    /\ cards_seen r = [p1; p2; d1; d2] ++ later
    /\ deals deck' later (env_deck e)
    /\ if is_blackjack [p1; p2] || is_blackjack [d1; d2]
       then later = [] /\ env_dealer_runs e = []
            /\ player_hand r = hand_str [p1; p2]
            /\ result r
               = (if is_blackjack [d1; d2]
                  then if is_blackjack [p1; p2] then Push else Loss
                  else Win)
       else if splits strategy_func strategy_args d1 [p1; p2] true
       then exists x1 x2 hits1 drawn1 hits2 drawn2 prof1 prof2 runs1 runs2,
              later = [x1; x2] ++ (hits1 ++ drawn1) ++ (hits2 ++ drawn2)
              /\ player_hand r
                 = hand_str ([p1; x1] ++ hits1) +:+ "|"
                   +:+ hand_str ([p2; x2] ++ hits2)
              /\ env_dealer_runs e = runs1 ++ runs2
              /\ settled_once [d1; d2] (stake [p1; x1]) ([p1; x1] ++ hits1)
                   drawn1 runs1 prof1
              /\ settled_once [d1; d2] (stake [p2; x2]) ([p2; x2] ++ hits2)
                   drawn2 runs2 prof2
              /\ profit r = inject_Z (prof1 + prof2)
       else exists hits drawn prof,
              later = hits ++ drawn
              /\ player_hand r = hand_str ([p1; p2] ++ hits)
              /\ settled_once [d1; d2] (stake [p1; p2]) ([p1; p2] ++ hits)
                   drawn (env_dealer_runs e) prof
              /\ profit r = inject_Z prof.
Proof. intros _ _. apply play_round_settles. Qed.

(** A round with a split: 8-8 against 10-6 under the basic strategy. *)
Lemma each_hand_settled_on_its_own_witness :
  plain_keywords ∅ /\ exact_bet 10
  /\ initial_deal shoe_eights
     = (sp R8, sp R10, sp R8, sp R6, (initial_deal shoe_eights).2)
  /\ exists r e later,
       play_round shoe_eights strategy_basic 10 ∅ = Some (r, e)
       /\ cards_seen r = [sp R8; sp R8; sp R10; sp R6] ++ later
       /\ deals (initial_deal shoe_eights).2 later (env_deck e).
Proof.
  assert (K : plain_keywords ∅) by apply plain_keywords_empty.
  assert (B : exact_bet 10) by apply exact_bet_10.
  assert (E : initial_deal shoe_eights
              = (sp R8, sp R10, sp R8, sp R6, (initial_deal shoe_eights).2))
    by reflexivity.
  split; [exact K|]. split; [exact B|]. split; [exact E|].
  destruct (each_hand_settled_on_its_own shoe_eights strategy_basic 10 ∅
              _ _ _ _ _ K B E) as (r & e & later & Hr & Hseen & Hdeals & _).
  exists r, e, later. auto.
Defined.

(** C3 as stated fails on a split: with 8-8 against 10-6, the first hand
    8-10 is compared with a dealer run 10-6-5 of 21 and loses, the second
    hand 8-K is compared with another dealer run 10-6-Q of 26 and wins. *)
Lemma split_round_plays_dealer_twice :
  exists r e,
    play_round shoe_eights strategy_basic 10 ∅ = Some (r, e)
    /\ player_hand r = "8-10|8-K"%string
    /\ env_dealer_runs e = [("10-6-5"%string, 21); ("10-6-Q"%string, 26)]
    /\ ~ (length (env_dealer_runs e) <= 1)%nat.
Proof.
  eexists _, _. split; [vm_compute; reflexivity|]. simpl.
  repeat split. lia.
Qed.

(** ** The blackjack checks (claim C7) *)

(** C7. After the four cards of the initial deal: two blackjacks give a push
    with profit 0, a blackjack of the player alone a win with profit one and
    a half times the bet, a blackjack of the dealer alone a loss with profit
    minus the bet, and in these three cases no more card is dealt; otherwise
    the round is what [play_single_hand] makes of the player's two cards.
    The keyword arguments repeat none of the names that the calls of a round
    bind themselves ([plain_keywords]) and the bet is in the range in which
    the double product of 1.5 and the bet is exact ([exact_bet]). *)
Theorem blackjack_check
  (deck : Deck) (strategy_func : Strategy) (betting_amount : Z)
  (kw : gmap string pyval) (p1 d1 p2 d2 : Card) (deck' : Deck) :
  plain_keywords kw ->
  exact_bet betting_amount ->
  initial_deal deck = (p1, d1, p2, d2, deck') ->
  let player := [p1; p2] in
  let dealer := [d1; d2] in
  let e0 := mkEnv deck' (player ++ dealer) [] in
  match is_blackjack player, is_blackjack dealer with
  | true, true =>
      exists r, play_round deck strategy_func betting_amount kw = Some (r, e0)
                /\ result r = Push /\ (profit r == 0)%Q
  | true, false =>
      exists r, play_round deck strategy_func betting_amount kw = Some (r, e0)
                /\ result r = Win
                /\ (profit r == (3 # 2) * inject_Z betting_amount)%Q
  | false, true =>
      exists r, play_round deck strategy_func betting_amount kw = Some (r, e0)
                /\ result r = Loss
                /\ (profit r == - inject_Z betting_amount)%Q
  | false, false =>
      exists res prof hand' e r,
        play_single_hand strategy_func (strategy_args_of kw) d1 [d2]
          player betting_amount true true e0 = Some ((res, prof, hand'), e)
        /\ play_round deck strategy_func betting_amount kw = Some (r, e)
        /\ player_hand r = res /\ profit r = inject_Z prof
        /\ result r
           = if 0 <? prof then Win else if prof <? 0 then Loss else Push
  end.
Proof.
  intros _ _.
  intros H player dealer e0.
  destruct (play_round_outcome deck strategy_func betting_amount kw _ _ _ _ _ H)
    as (r & e & Hr & _ & _ & _ & Hcase).
  fold player dealer e0 in Hcase.
  destruct (is_blackjack player), (is_blackjack dealer).
  - destruct Hcase as (-> & Ht & Hp). exists r. rewrite Hp. auto using Qeq_refl.
  - destruct Hcase as (-> & Ht & Hp). exists r. rewrite Hp. auto using Qeq_refl.
  - destruct Hcase as (-> & Ht & Hp). exists r. rewrite Hp.
    split; [exact Hr|]. split; [exact Ht|]. unfold Qeq. simpl. lia.
  - destruct Hcase as (res & prof & hand' & Hs & Hres & Hp & _ & Ht).
    exists res, prof, hand', e, r. auto.
Qed.

(** A round with a blackjack of the player alone: A-K against 9-7 with a
    bet of 10 is a win of 15. *)
Lemma blackjack_check_witness :
  plain_keywords ∅ /\ exact_bet 10 /\
  initial_deal shoe_natural
  = (sp RA, sp R9, sp RK, sp R7, (initial_deal shoe_natural).2)
  /\ exists r e, play_round shoe_natural strategy_basic 10 ∅ = Some (r, e)
                 /\ result r = Win /\ (profit r == 15)%Q.
Proof.
  assert (K : plain_keywords ∅) by apply plain_keywords_empty.
  split; [exact K|].
  assert (B : exact_bet 10) by apply exact_bet_10.
  split; [exact B|].
  assert (E : initial_deal shoe_natural
              = (sp RA, sp R9, sp RK, sp R7, (initial_deal shoe_natural).2))
    by reflexivity.
  split; [exact E|].
  destruct (blackjack_check shoe_natural strategy_basic 10 ∅ _ _ _ _ _ K B E)
    as (r & Hr & Hw & Hp).
  exists r. eexists. split; [exact Hr|]. split; [exact Hw|].
  rewrite Hp. reflexivity.
Defined.

(** ** The result tag (claim C10) *)

(** C10. In a round without blackjack the tag is the sign of the profit: win
    exactly when it is positive, loss exactly when it is negative, push
    exactly when it is zero.  The keyword arguments repeat none of the names
    that the calls of a round bind themselves ([plain_keywords]). *)
Theorem result_is_sign_of_profit
  (deck : Deck) (strategy_func : Strategy) (betting_amount : Z)
  (kw : gmap string pyval) (p1 d1 p2 d2 : Card) (deck' : Deck) :
  plain_keywords kw ->
  initial_deal deck = (p1, d1, p2, d2, deck') ->
  is_blackjack [p1; p2] = false ->
  is_blackjack [d1; d2] = false ->
  exists r e,
    play_round deck strategy_func betting_amount kw = Some (r, e)
    /\ (result r = Win <-> (0 < profit r)%Q)
    /\ (result r = Loss <-> (profit r < 0)%Q)
    /\ (result r = Push <-> (profit r == 0)%Q).
Proof.
  intros _.
  intros H Hp Hd.
  destruct (play_round_outcome deck strategy_func betting_amount kw _ _ _ _ _ H)
    as (r & e & Hr & _ & _ & _ & B).
  cbn zeta in B. rewrite Hp, Hd in B.
  destruct B as (res & prof & hand' & Hs & _ & Hprof & _ & Htag).
  exists r, e. split; [exact Hr|]. rewrite Hprof, Htag.
  rewrite Qlt_inject_Z, Qgt_inject_Z, Qeq_inject_Z.
  destruct (0 <? prof) eqn:E1; [apply Z.ltb_lt in E1 | apply Z.ltb_ge in E1].
  - repeat split; intros; try lia; try discriminate.
  - destruct (prof <? 0) eqn:E2; [apply Z.ltb_lt in E2 | apply Z.ltb_ge in E2];
      repeat split; intros; try lia; try discriminate.
Qed.

(** The split round 8-8 against 9-7: the hand 8-10 loses 10 to the run
    9-7-5, the hand 8-10 wins 10 from the run 9-7-K, the profits sum to 0
    and the round is tagged push. *)
Lemma result_is_sign_of_profit_witness :
  plain_keywords ∅ /\
  initial_deal shoe_eights_nine
  = (sp R8, sp R9, sp R8, sp R7, (initial_deal shoe_eights_nine).2)
  /\ is_blackjack [sp R8; sp R8] = false
  /\ is_blackjack [sp R9; sp R7] = false
  /\ exists r e,
       play_round shoe_eights_nine strategy_basic 10 ∅ = Some (r, e)
       /\ player_hand r = "8-10|8-10"%string
       /\ env_dealer_runs e = [("9-7-5"%string, 21); ("9-7-K"%string, 26)]
       /\ (profit r == 0)%Q
       /\ result r = Push.
Proof.
  assert (K : plain_keywords ∅) by apply plain_keywords_empty.
  split; [exact K|].
  assert (E : initial_deal shoe_eights_nine
              = (sp R8, sp R9, sp R8, sp R7, (initial_deal shoe_eights_nine).2))
    by reflexivity.
  split; [exact E|]. split; [reflexivity|]. split; [reflexivity|].
  destruct (result_is_sign_of_profit shoe_eights_nine strategy_basic 10 ∅
              _ _ _ _ _ K E eq_refl eq_refl) as (r & e & Hr & _ & _ & Hpush).
  exists r, e. split; [exact Hr|].
  assert (Hv : play_round shoe_eights_nine strategy_basic 10 ∅
               = Some (mkOutcome "8-10|8-10" 16 "9-7" 16 Push 0
                         (cards_seen r) None, e)).
  { rewrite Hr. revert Hr. vm_compute. intros Hr. injection Hr as <- <-.
    reflexivity. }
  rewrite Hr in Hv. injection Hv as Hv. rewrite Hv in *. simpl.
  split; [reflexivity|]. split.
  - revert Hr. vm_compute. intros Hr. injection Hr as _ <-. reflexivity.
  - split; [reflexivity|]. apply Hpush. reflexivity.
Defined.

(** ** The dealer's protocol (claim C1) *)

(** Every run of the dealer ends, at a hand on which the loop's test
    fails: 17 or more, and at 17 only if [is_soft] answers no. *)
Lemma play_dealer_stops (dealer_up : Card) (dealer_rest : list Card) (e : RoundEnv) :
  exists drawn e',
    let final := (dealer_up :: dealer_rest) ++ drawn in
    play_dealer dealer_up dealer_rest e
    = Some ((hand_str final, get_value final, drawn), e')
    /\ 17 <= get_value final
    /\ (get_value final = 17 -> is_soft final = false).
Proof.
  destruct (play_dealer_spec dealer_up dealer_rest e) as (drawn & e' & Hp & Hs & _).
  exists drawn, e'. cbn zeta in *. split; [exact Hp|].
  apply dealer_stops. exact Hs.
Qed.

(** With at most one ace in the final hand the dealer does not stand on
    a soft 17 in the sense of the specification. *)
Lemma dealer_hits_soft_17_one_ace (final : Hand) :
  dealer_draws final = false -> (count_aces final <= 1)%nat ->
  get_value final = 17 -> spec_soft final = false.
Proof.
  intros Hs Ha Hv. apply dealer_stops in Hs as [_ Hs].
  rewrite <- (is_soft_one_ace _ Ha). auto.
Qed.

(** C1, at the dealer's hand A-A followed by a 5: the run ends at A-A-5,
    which is 17 with one ace still counted as 11, a soft 17 on which the
    dealer stands. *)
Theorem dealer_stands_on_soft_17_of_two_aces :
  exists r e,
    play_round shoe_two_aces strategy_mimic_dealer 10 ∅ = Some (r, e)
    /\ dealer_hand r = "A-A"%string
    /\ env_dealer_runs e = [("A-A-5"%string, 17)]
    /\ get_value [sp RA; sp RA; sp R5] = 17
    /\ aces_at_11 [sp RA; sp RA; sp R5] = 1%nat
    /\ spec_soft [sp RA; sp RA; sp R5] = true
    /\ dealer_draws [sp RA; sp RA; sp R5] = false.
Proof.
  eexists _, _. split; [vm_compute; reflexivity|]. simpl. repeat split.
Qed.

(** ** The dealer's hand in the record (claim C6) *)

(** The record always carries the dealer's two initial cards and their
    value. *)
Lemma record_keeps_initial_dealer_hand
  (deck : Deck) (strategy_func : Strategy) (betting_amount : Z)
  (kw : gmap string pyval) (p1 d1 p2 d2 : Card) (deck' : Deck) r e :
  initial_deal deck = (p1, d1, p2, d2, deck') ->
  play_round deck strategy_func betting_amount kw = Some (r, e) ->
  dealer_hand r = hand_str [d1; d2] /\ dealer_final_value r = get_value [d1; d2].
Proof.
  intros H Hr.
  destruct (play_round_outcome deck strategy_func betting_amount kw _ _ _ _ _ H)
    as (r' & e' & Hr' & Hh & Hv & _).
  rewrite Hr in Hr'. injection Hr' as <- <-. auto.
Qed.

(** C6, at player 10-7 against dealer 10-6 followed by a 5: the dealer's
    run ends at 10-6-5 with 21 and the player loses to it, and the record
    shows the dealer's hand as 10-6 with final value 16. *)
Theorem record_shows_dealer_before_the_draw :
  exists r e,
    play_round shoe_sixteen strategy_mimic_dealer 10 ∅ = Some (r, e)
    /\ env_dealer_runs e = [("10-6-5"%string, 21)]
    /\ result r = Loss
    /\ dealer_hand r = "10-6"%string
    /\ dealer_final_value r = 16.
Proof.
  eexists _, _. split; [vm_compute; reflexivity|]. simpl. repeat split.
Qed.

(** ** Cards seen and the running count (claims C8 and C4) *)

(** The cards that a round appends to [cards_seen] after the first four
    are the cards that it draws after the first four, in the same order. *)
Lemma play_round_effect
  (deck : Deck) (strategy_func : Strategy) (betting_amount : Z)
  (kw : gmap string pyval) (p1 d1 p2 d2 : Card) (deck' : Deck) :
  initial_deal deck = (p1, d1, p2, d2, deck') ->
  exists r e later,
    play_round deck strategy_func betting_amount kw = Some (r, e)
    /\ cards_seen r = [p1; p2; d1; d2] ++ later
    /\ deals deck ([p1; d1; p2; d2] ++ later) (env_deck e).
Proof.
  intros H. pose proof (initial_deal_deals _ _ _ _ _ _ H) as Hd.
  destruct (play_round_outcome deck strategy_func betting_amount kw _ _ _ _ _ H)
    as (r & e & Hr & _ & _ & Hseen & Hcase).
  cbn zeta in Hcase.
  assert (Hblackjack : e = mkEnv deck' ([p1; p2] ++ [d1; d2]) [] ->
    exists later, cards_seen r = [p1; p2; d1; d2] ++ later
                  /\ deals deck ([p1; d1; p2; d2] ++ later) (env_deck e)).
  { intros ->. exists []. rewrite Hseen, !app_nil_r. auto. }
  assert (Hgoal : exists later, cards_seen r = [p1; p2; d1; d2] ++ later
                  /\ deals deck ([p1; d1; p2; d2] ++ later) (env_deck e)).
  { destruct (is_blackjack [p1; p2]), (is_blackjack [d1; d2]);
      try (apply Hblackjack; apply Hcase).
    destruct Hcase as (res & prof & hand' & Hs & _).
    destruct (play_single_hand_spec strategy_func (strategy_args_of kw)
                d1 [d2] [p1; p2] betting_amount true true
                (mkEnv deck' ([p1; p2] ++ [d1; d2]) []))
      as (res' & prof' & hand'' & e' & new & runs & Hp & (Hsn & Hdeals & _) & _).
    rewrite Hs in Hp. injection Hp as <- <- <- <-.
    exists new. rewrite Hseen. simpl in Hsn, Hdeals. split; [exact Hsn|].
    apply (deals_app _ _ _ _ _ Hd Hdeals). }
  destruct Hgoal as (later & H1 & H2). exists r, e, later. auto.
Qed.

Lemma initial_deal_total deck :
  exists p1 d1 p2 d2 deck', initial_deal deck = (p1, d1, p2, d2, deck').
Proof. destruct (initial_deal deck) as [[[[p1 d1] p2] d2] deck']. eauto 6. Qed.

(** Every card dealt during a round is in the round's [cards_seen], and
    nothing else is: the list is a rearrangement of the cards that the
    history of the shoe records for the round. *)
Lemma cards_seen_are_the_cards_dealt
  (deck : Deck) (strategy_func : Strategy) (betting_amount : Z)
  (kw : gmap string pyval) :
  exists r e dealt,
    play_round deck strategy_func betting_amount kw = Some (r, e)
    /\ dealt_in (history (env_deck e)) = dealt_in (history deck) ++ dealt
    /\ cards_seen r ≡ₚ dealt.
Proof.
  destruct (initial_deal_total deck) as (p1 & d1 & p2 & d2 & deck' & H).
  destruct (play_round_effect deck strategy_func betting_amount kw _ _ _ _ _ H)
    as (r & e & later & Hr & Hseen & Hdeals).
  exists r, e, ([p1; d1; p2; d2] ++ later). split; [exact Hr|].
  split; [apply deals_dealt_in, Hdeals|].
  rewrite Hseen. apply Permutation_app_tail. apply perm_skip, perm_swap.
Qed.

(** The first half of the loop body keeps the invariant: it leaves shoe
    and count alone, or rebuilds the one and resets the other. *)
Lemma prepare_round_follows ps bs base_bet reshuffle s :
  count_follows_shoe s ->
  count_follows_shoe (prepare_round ps bs base_bet reshuffle s).2.
Proof.
  intros Hs. pose proof (rebuilt_balanced (sim_deck s)) as [Hb Hc].
  assert (Hnew : forall lr cb gr,
    count_follows_shoe (mkSim (shuffle (build (sim_deck s))) 0 lr cb gr)).
  { intros. split; simpl; [exact Hb | symmetry; exact Hc]. }
  assert (Hold : forall lr cb gr,
    count_follows_shoe (mkSim (sim_deck s) (running_count s) lr cb gr)).
  { intros. exact Hs. }
  unfold prepare_round.
  destruct (bool_decide (ps = CardCounter)).
  - destruct (length (cards (sim_deck s)) =? 0)%nat; simpl; auto.
  - destruct (reshuffle || (length (cards (sim_deck s)) <? 52)%nat);
      destruct (bool_decide (bs = Martingale)); simpl; auto.
Qed.

(** One pass of the loop: the round ends, the count grows by the
    increments of the cards seen, and the invariant is kept. *)
Lemma sim_round_spec ps bs base_bet reshuffle strategy_args s :
  exists s' e r,
    sim_round ps bs base_bet reshuffle strategy_args s = Some (s', e)
    /\ last (game_results s') = Some r
    /\ running_count s'
       = running_count (prepare_round ps bs base_bet reshuffle s).2
         + tally (cards_seen r)
    /\ (count_follows_shoe s -> count_follows_shoe s').
Proof.
  pose proof (prepare_round_follows ps bs base_bet reshuffle s) as Hprep.
  unfold sim_round.
  destruct (prepare_round ps bs base_bet reshuffle s) as [bet s1]. simpl in *.
  destruct (initial_deal_total (sim_deck s1)) as (p1 & d1 & p2 & d2 & deck' & H).
  destruct (play_round_effect (sim_deck s1) (strategy_of ps) bet
              (round_args strategy_args (running_count s1)) _ _ _ _ _ H)
    as (r & e & later & Hr & Hseen & Hdeals).
  rewrite Hr. eexists _, e, (with_bet r bet). split; [reflexivity|]. simpl.
  split; [apply last_snoc|]. rewrite fold_update_count.
  split; [reflexivity|].
  intros Hs. destruct (Hprep Hs) as [Hb Hc].
  destruct (deals_balanced _ _ _ Hb Hdeals) as [Hb' Hc'].
  split; simpl; [exact Hb'|].
  rewrite Hc', Hc, Hseen, !tally_app. unfold tally. simpl. lia.
Qed.

Lemma sim_rounds_follow ps bs base_bet reshuffle strategy_args num_games :
  forall s, count_follows_shoe s ->
  exists s', sim_rounds ps bs base_bet reshuffle strategy_args num_games s = Some s'
             /\ count_follows_shoe s'.
Proof.
  induction num_games as [|n IH]; intros s Hs; simpl.
  - exists s. auto.
  - destruct (sim_round_spec ps bs base_bet reshuffle strategy_args s)
      as (s1 & e & r & Hr & _ & _ & Hkeep).
    rewrite Hr. apply IH, Hkeep, Hs.
Qed.

(** C4, as amended. Every simulation runs to the end of its rounds, and then
    the running count is the sum of the increments of the cards dealt since
    the shoe was last built. (The driver resets the count when it rebuilds
    the shoe itself; when [deal] rebuilds the shoe inside a round nothing is
    reset, and the cards of the old and of the new shoe are folded into the
    count together, those of the old shoe, now complete, adding up to zero.)
    The keyword arguments repeat none of the names that the calls of a round
    bind themselves ([plain_keywords]). *)
Theorem count_follows_the_current_shoe
  (playing_strategy : PlayingStrategy) (num_games : nat)
  (betting_strategy : BettingStrategy) (base_bet : Z)
  (reshuffle_each_hand : bool) (strategy_args : gmap string pyval)
  (r : Random) :
  plain_keywords strategy_args ->
  exists s,
    run_simulation playing_strategy num_games betting_strategy base_bet
      reshuffle_each_hand strategy_args r = Some s
    /\ running_count s = tally (since_last_build (history (sim_deck s))).
Proof.
  intros _.
  unfold run_simulation.
  destruct (sim_rounds_follow playing_strategy betting_strategy base_bet
              reshuffle_each_hand strategy_args num_games
              (mkSim (shuffle (new_deck 6 r)) 0 None base_bet []))
    as (s & Hs & _ & Hc).
  - destruct (rebuilt_balanced (mkDeck 6 [] r [])) as [Hb Hc].
    split; simpl; [exact Hb | symmetry; exact Hc].
  - exists s. auto.
Qed.

(** Sixty rounds of the card counter on the generator [gen_five], among
    them the round that uses up the shoe. *)
Lemma count_follows_the_current_shoe_witness :
  plain_keywords ∅
  /\ exists s,
       run_simulation CardCounter 60 Flat 10 false ∅ gen_five = Some s
       /\ running_count s = tally (since_last_build (history (sim_deck s))).
Proof.
  assert (K : plain_keywords ∅) by apply plain_keywords_empty.
  split; [exact K|].
  exact (count_follows_the_current_shoe CardCounter 60 Flat 10 false ∅
           gen_five K).
Defined.

(** C4 as stated fails when [deal] rebuilds the shoe inside a round.  In
    the card counter's run on the generator [gen_five] the 57th round
    starts with two cards in the shoe and a count of -2.  The round deals
    5 and 6 from the old shoe, then 7, A and K from the shoe that [deal]
    rebuilt.  Nothing resets the count: when the 7, the second card of
    [cards_seen], is counted the count stands at -1, and the count after
    the round is the count before it with all five cards folded in. *)
Lemma count_not_reset_by_rebuild_in_round :
  exists s s' e r,
    counter_run 56 gen_five = Some s
    /\ cards (sim_deck s) = [mkCard Hearts R6; mkCard Hearts R5]
    /\ running_count s = -2
    /\ counter_round s = Some (s', e)
    /\ last (game_results s') = Some r
    /\ since_last_build (history (sim_deck s'))
       = [mkCard Hearts R7; sp RA; sp RK]
    /\ cards_seen r
       = [mkCard Hearts R5; mkCard Hearts R7; mkCard Hearts R6; sp RA; sp RK]
    /\ fold_left update_count (take 1 (cards_seen r)) (running_count s) = -1
    /\ fold_left update_count (take 1 (cards_seen r)) (running_count s) <> 0
    /\ running_count s'
       = fold_left update_count (cards_seen r) (running_count s).
Proof.
  eexists _, _, _, _.
  split; [vm_compute; reflexivity|].
  split; [reflexivity|]. split; [reflexivity|].
  split; [vm_compute; reflexivity|].
  split; [vm_compute; reflexivity|].
  split; [vm_compute; reflexivity|].
  split; [vm_compute; reflexivity|].
  split; [vm_compute; reflexivity|].
  split; [vm_compute; discriminate|].
  vm_compute; reflexivity.
Qed.

(** ** The count that the strategy receives (claims C5 and C8) *)

(** The keyword [running_count] that the driver passes never reaches the
    strategy: [play_round] binds it to its own parameter. *)
Lemma strategy_args_without_count (strategy_args : gmap string pyval) (count : Z) :
  strategy_args_of (round_args strategy_args count)
  = strategy_args_of strategy_args.
Proof. unfold strategy_args_of, round_args. rewrite delete_insert_eq. reflexivity. Qed.

(** The round is the same whatever count the driver passes. *)
Lemma play_round_ignores_count deck strategy_func betting_amount
  (strategy_args : gmap string pyval) (count count' : Z) :
  play_round deck strategy_func betting_amount (round_args strategy_args count)
  = play_round deck strategy_func betting_amount (round_args strategy_args count').
Proof. unfold play_round. rewrite !strategy_args_without_count. reflexivity. Qed.

(** In every call that the round engine makes, with or without the
    flags [can_split] and [can_double], the card counter binds its
    parameter [running_count] to the default 0 and computes a true count
    of 0. *)
Lemma counter_true_count_in_round (strategy_args : gmap string pyval)
  (count : Z) (kw : gmap string pyval) :
  kw = strategy_args_of (round_args strategy_args count)
  \/ kw = <["can_split" := PBool true]>
            (strategy_args_of (round_args strategy_args count))
  \/ kw = <["can_double" := PBool true]>
            (strategy_args_of (round_args strategy_args count)) ->
  counter_running_count kw = 0%Q /\ (counter_true_count kw == 0)%Q.
Proof.
  intros H.
  assert (Hnone : kw !! "running_count" = None).
  { destruct H as [-> | [-> | ->]]; rewrite strategy_args_without_count;
      rewrite ?lookup_insert_ne by discriminate; unfold strategy_args_of;
      rewrite lookup_delete_ne by discriminate; apply lookup_delete_eq. }
  assert (Hz : counter_running_count kw = 0%Q).
  { unfold counter_running_count, kw_num. rewrite Hnone. reflexivity. }
  split; [exact Hz|]. unfold counter_true_count. rewrite Hz.
  unfold Qdiv. apply Qmult_0_l.
Qed.

(** C5, in the card counter's run on the generator [gen_count]: before
    the 51st round the running count is 3 and 39 cards are left, so the
    true count of the claim is 3.  The player is dealt 6-6 against a 2.
    The strategy is called without the count and without the decks
    remaining, computes a true count of 0 and splits; with the running
    count and the decks remaining it stands (12 against 2 at a true count
    of 3 or more). *)
Theorem counter_decides_at_true_count_zero :
  exists s s' e r,
    counter_run 50 gen_count = Some s
    /\ running_count s = 3
    /\ length (cards (sim_deck s)) = 39%nat
    /\ (driver_true_count (running_count s) (sim_deck s) == 3)%Q
    /\ (initial_deal (sim_deck s)).1
       = (sp R6, sp R2, mkCard Clubs R6, mkCard Clubs R8)
    /\ (let kw := <["can_split" := PBool true]>
                    (strategy_args_of (round_args ∅ (running_count s))) in
        (counter_true_count kw == 0)%Q
        /\ strategy_card_counter [sp R6; mkCard Clubs R6] (sp R2) kw = Split
        /\ strategy_card_counter [sp R6; mkCard Clubs R6] (sp R2)
             (<["running_count" := PNum (inject_Z (running_count s))]>
                (<["decks_remaining" := PNum (decks_remaining (sim_deck s))]> kw))
           = Stand)
    /\ counter_round s = Some (s', e)
    /\ last (game_results s') = Some r
    /\ player_hand r = "6-8|6-A"%string.
Proof.
  eexists _, _, _, _.
  split; [vm_compute; reflexivity|].
  split; [reflexivity|]. split; [reflexivity|].
  split; [vm_compute; reflexivity|].
  split; [vm_compute; reflexivity|].
  split; [cbn zeta; repeat split; vm_compute; reflexivity|].
  split; [vm_compute; reflexivity|].
  split; vm_compute; reflexivity.
Qed.

(** C8, in the card counter's run on the generator [gen_mixed]: before
    the 13th round the running count is 4.  The player is dealt 10-4
    against an ace.  The strategy is called without the count, decides
    with a count of 0 and hits (and goes bust); with the count of 4 it
    answers insurance. *)
Theorem counter_decides_at_count_zero :
  exists s s' e r,
    counter_run 12 gen_mixed = Some s
    /\ running_count s = 4
    /\ (initial_deal (sim_deck s)).1
       = (mkCard Hearts R10, mkCard Hearts RA, mkCard Diamonds R4,
          mkCard Diamonds R7)
    /\ (let kw := strategy_args_of (round_args ∅ (running_count s)) in
        kw !! "running_count" = None
        /\ counter_running_count kw = 0%Q
        /\ strategy_card_counter [mkCard Hearts R10; mkCard Diamonds R4]
             (mkCard Hearts RA) kw = Hit
        /\ strategy_card_counter [mkCard Hearts R10; mkCard Diamonds R4]
             (mkCard Hearts RA) (round_args ∅ (running_count s)) = Insurance)
    /\ counter_round s = Some (s', e)
    /\ last (game_results s') = Some r
    /\ player_hand r = "10-4-J"%string
    /\ result r = Loss.
Proof.
  eexists _, _, _, _.
  split; [vm_compute; reflexivity|].
  split; [reflexivity|].
  split; [vm_compute; reflexivity|].
  split; [cbn zeta; repeat split; vm_compute; reflexivity|].
  split; [vm_compute; reflexivity|].
  repeat split; vm_compute; reflexivity.
Qed.

(** ** The bet spread (claim C9) *)

Lemma Qltb_lt (x y : Q) : Qltb x y = true <-> (x < y)%Q.
Proof.
  unfold Qltb. rewrite negb_true_iff. split.
  - intros H. apply Qnot_le_lt. intros Hle. apply Qle_bool_iff in Hle. congruence.
  - intros H. destruct (Qle_bool y x) eqn:E; [|reflexivity].
    apply Qle_bool_iff in E. apply Qlt_not_le in H. contradiction.
Qed.

Lemma Qltb_ge (x y : Q) : Qltb x y = false <-> (y <= x)%Q.
Proof.
  unfold Qltb. rewrite negb_false_iff. apply Qle_bool_iff.
Qed.

Lemma bet_spread_below tc : (tc < 1)%Q -> bet_spread tc = 10.
Proof. intros H. unfold bet_spread. apply Qltb_lt in H. rewrite H. reflexivity. Qed.

Lemma bet_spread_two tc : (tc == 2)%Q -> bet_spread tc = 25.
Proof.
  intros H. unfold bet_spread.
  assert (H1 : Qltb tc 1 = false) by (apply Qltb_ge; rewrite H; discriminate).
  apply Qeq_bool_iff in H. rewrite H1, H. reflexivity.
Qed.

Lemma bet_spread_three tc : (tc == 3)%Q -> bet_spread tc = 50.
Proof.
  intros H. unfold bet_spread.
  assert (H1 : Qltb tc 1 = false) by (apply Qltb_ge; rewrite H; discriminate).
  assert (H2 : Qeq_bool tc 2 = false).
  { destruct (Qeq_bool tc 2) eqn:E; [|reflexivity].
    apply Qeq_bool_iff in E. rewrite H in E. discriminate E. }
  apply Qeq_bool_iff in H. rewrite H1, H2, H. reflexivity.
Qed.

Lemma bet_spread_high tc : (4 <= tc)%Q -> bet_spread tc = 100.
Proof.
  intros H. unfold bet_spread.
  assert (H1 : Qltb tc 1 = false).
  { apply Qltb_ge. eapply Qle_trans; [|exact H]. discriminate. }
  assert (H2 : Qeq_bool tc 2 = false).
  { destruct (Qeq_bool tc 2) eqn:E; [|reflexivity].
    apply Qeq_bool_iff in E. rewrite E in H. exfalso. apply H. reflexivity. }
  assert (H3 : Qeq_bool tc 3 = false).
  { destruct (Qeq_bool tc 3) eqn:E; [|reflexivity].
    apply Qeq_bool_iff in E. rewrite E in H. exfalso. apply H. reflexivity. }
  apply Qle_bool_iff in H. rewrite H1, H2, H3, H. reflexivity.
Qed.

Lemma bet_spread_gap tc :
  (1 <= tc)%Q -> (tc < 4)%Q -> ~ (tc == 2)%Q -> ~ (tc == 3)%Q ->
  bet_spread tc = 10.
Proof.
  intros H1 H4 H2 H3. unfold bet_spread.
  apply Qltb_ge in H1. rewrite H1.
  destruct (Qeq_bool tc 2) eqn:E2; [apply Qeq_bool_iff in E2; contradiction|].
  destruct (Qeq_bool tc 3) eqn:E3; [apply Qeq_bool_iff in E3; contradiction|].
  destruct (Qle_bool 4 tc) eqn:E4; [|reflexivity].
  apply Qle_bool_iff in E4. apply Qlt_not_le in H4. contradiction.
Qed.

(** The bet of the card counter is the spread at the driver's true
    count. *)
Lemma counter_bet bs base_bet reshuffle s :
  (prepare_round CardCounter bs base_bet reshuffle s).1
  = bet_spread
      (driver_true_count
         (running_count (prepare_round CardCounter bs base_bet reshuffle s).2)
         (sim_deck (prepare_round CardCounter bs base_bet reshuffle s).2)).
Proof.
  unfold prepare_round. rewrite bool_decide_eq_true_2 by reflexivity.
  destruct (length (cards (sim_deck s)) =? 0)%nat; reflexivity.
Qed.

(** C9.  Whatever true count the driver computes for the card counter,
    the bet is 10 below 1, 25 at 2, 50 at 3, 100 from 4 on, and 10
    everywhere else: from 1 up to 4 except at 2 and at 3. *)
Theorem counter_bet_spread
  (betting_strategy : BettingStrategy) (base_bet : Z)
  (reshuffle_each_hand : bool) (s : Sim) :
  let prepared :=
    prepare_round CardCounter betting_strategy base_bet reshuffle_each_hand s in
  let bet := prepared.1 in
  let true_count :=
    driver_true_count (running_count prepared.2) (sim_deck prepared.2) in
  ((true_count < 1)%Q -> bet = 10)
  /\ ((true_count == 2)%Q -> bet = 25)
  /\ ((true_count == 3)%Q -> bet = 50)
  /\ ((4 <= true_count)%Q -> bet = 100)
  /\ ((1 <= true_count)%Q -> (true_count < 4)%Q ->
      ~ (true_count == 2)%Q -> ~ (true_count == 3)%Q -> bet = 10).
Proof.
  intros prepared bet true_count. subst bet true_count prepared.
  rewrite counter_bet. set (tc := driver_true_count _ _).
  split; [apply bet_spread_below|]. split; [apply bet_spread_two|].
  split; [apply bet_spread_three|]. split; [apply bet_spread_high|].
  apply bet_spread_gap.
Qed.

(** The five cases at states of the driver with one deck left (true
    counts 0, 2, 3 and 4) and with two decks left (true count 5/2). *)
Lemma counter_bet_spread_witness :
  ((driver_true_count 0 (sim_deck (one_deck_left 0)) < 1)%Q
   /\ (prepare_round CardCounter Flat 10 true (one_deck_left 0)).1 = 10)
  /\ ((driver_true_count 2 (sim_deck (one_deck_left 2)) == 2)%Q
      /\ (prepare_round CardCounter Flat 10 true (one_deck_left 2)).1 = 25)
  /\ ((driver_true_count 3 (sim_deck (one_deck_left 3)) == 3)%Q
      /\ (prepare_round CardCounter Flat 10 true (one_deck_left 3)).1 = 50)
  /\ ((4 <= driver_true_count 4 (sim_deck (one_deck_left 4)))%Q
      /\ (prepare_round CardCounter Flat 10 true (one_deck_left 4)).1 = 100)
  /\ ((driver_true_count 5 (sim_deck (two_decks_left 5)) == 5 # 2)%Q
      /\ (prepare_round CardCounter Flat 10 true (two_decks_left 5)).1 = 10).
Proof.
  split; [split; [reflexivity|]|].
  { apply (proj1 (counter_bet_spread Flat 10 true (one_deck_left 0))).
    reflexivity. }
  split; [split; [reflexivity|]|].
  { apply (proj1 (proj2 (counter_bet_spread Flat 10 true (one_deck_left 2)))).
    reflexivity. }
  split; [split; [reflexivity|]|].
  { apply (proj1 (proj2 (proj2
             (counter_bet_spread Flat 10 true (one_deck_left 3))))).
    reflexivity. }
  split; [split; [discriminate|]|].
  { apply (proj1 (proj2 (proj2 (proj2
             (counter_bet_spread Flat 10 true (one_deck_left 4)))))).
    discriminate. }
  split; [reflexivity|].
  apply (proj2 (proj2 (proj2 (proj2
           (counter_bet_spread Flat 10 true (two_decks_left 5)))))).
  - discriminate.
  - reflexivity.
  - discriminate.
  - discriminate.
Defined.

(** * Further properties of the code *)

(** ** The value of a hand *)

(** The loop of [get_value] on its two variables: what it subtracts, and
    that it stops as soon as the value is at most 21. *)
Lemma adjust_aces_facts v n :
  (adjust_aces v n).1 = v - 10 * (Z.of_nat n - Z.of_nat (adjust_aces v n).2)
  /\ ((adjust_aces v n).2 <= n)%nat
  /\ (21 < (adjust_aces v n).1 -> (adjust_aces v n).2 = 0%nat)
  /\ (((adjust_aces v n).2 < n)%nat -> 11 < (adjust_aces v n).1).
Proof.
  revert v. induction n as [|n IH]; intros v; simpl.
  - repeat split; try lia.
  - destruct (21 <? v) eqn:E.
    + apply Z.ltb_lt in E. destruct (IH (v - 10)) as (H1 & H2 & H3 & H4).
      split; [lia|]. split; [lia|]. split; [exact H3|].
      intros _. destruct (Nat.eq_dec (adjust_aces (v - 10) n).2 n) as [Hn|Hn].
      * rewrite Hn in H1. lia.
      * apply H4. lia.
    + apply Z.ltb_ge in E. simpl. repeat split; lia.
Qed.

Lemma get_value_facts (h : Hand) :
  get_value h = total_with h (aces_at_11 h)
  /\ (aces_at_11 h <= count_aces h)%nat
  /\ (21 < get_value h -> aces_at_11 h = 0%nat)
  /\ ((aces_at_11 h < count_aces h)%nat -> 11 < get_value h).
Proof.
  unfold get_value, aces_at_11, total_with, hard_total.
  destruct (adjust_aces_facts (raw_sum h) (count_aces h)) as (H1 & H2 & H3 & H4).
  repeat split; try assumption. lia.
Qed.

(** X1. [get_value] gives the best total of the hand: the hand is bust
    exactly when it is bust with every ace counted as 1, and otherwise no
    way of counting aces as 11 that stays within 21 gives more. *)
Theorem get_value_is_best_total (h : Hand) :
  (21 < get_value h <-> 21 < hard_total h)
  /\ (exists high, (high <= count_aces h)%nat /\ get_value h = total_with h high)
  /\ (forall high, (high <= count_aces h)%nat -> total_with h high <= 21 ->
      total_with h high <= get_value h).
Proof.
  destruct (get_value_facts h) as (H1 & H2 & H3 & H4). unfold total_with in *.
  split; [|split].
  - split; intros H.
    + rewrite (H3 H) in H1. lia.
    + lia.
  - exists (aces_at_11 h). auto.
  - intros high Hh Ht.
    destruct (Nat.lt_ge_cases (aces_at_11 h) (count_aces h)) as [Hlt|Hge].
    + specialize (H4 Hlt). lia.
    + lia.
Qed.

(** A hand of A, 5 and 9 (hard total 15): counting the ace as 11 gives
    25, so the best total is 15. *)
Lemma get_value_is_best_total_witness :
  (0 <= count_aces [sp RA; sp R5; sp R9])%nat
  /\ total_with [sp RA; sp R5; sp R9] 0 <= 21
  /\ total_with [sp RA; sp R5; sp R9] 0 <= get_value [sp RA; sp R5; sp R9].
Proof.
  split; [lia|]. split; [discriminate|].
  apply (proj2 (proj2 (get_value_is_best_total [sp RA; sp R5; sp R9])) 0%nat).
  - lia.
  - discriminate.
Defined.

(** X2. A hand of two cards is never bust, and it is a blackjack exactly
    when it is an ace with a card worth 10. *)
Theorem two_cards_blackjack (a b : Card) :
  4 <= get_value [a; b] <= 21
  /\ (is_blackjack [a; b] = true <->
      (rank a = RA /\ value b = 10) \/ (value a = 10 /\ rank b = RA)).
Proof.
  destruct a as [sa ra], b as [sb rb].
  destruct ra, rb; vm_compute; (split; [split; discriminate|]);
    (split; [try discriminate; auto | intros [[? ?]|[? ?]]; congruence]).
Qed.

(** ** The shoe: what it holds and what it hands out *)

Lemma weigh_app f l1 l2 : weigh f (l1 ++ l2) = weigh f l1 + weigh f l2.
Proof.
  unfold weigh. induction l1 as [|a l1 IH]; simpl; [reflexivity|].
  rewrite IH. lia.
Qed.

Lemma weigh_insert f (l : list Card) : forall i a b,
  l !! i = Some a -> weigh f (<[i := b]> l) = weigh f l - f a + f b.
Proof.
  induction l as [|x l IH]; intros i a b H; [discriminate|].
  destruct i as [|i]; simpl in *.
  - injection H as ->. unfold weigh. simpl. lia.
  - unfold weigh in *. simpl. rewrite (IH i a b H). lia.
Qed.

Lemma weigh_swap f x i j : weigh f (swap x i j) = weigh f x.
Proof.
  unfold swap. destruct (x !! i) as [a|] eqn:Hi; [|reflexivity].
  destruct (x !! j) as [b|] eqn:Hj; [|reflexivity].
  assert (Ha : <[j := a]> x !! i = Some a).
  { destruct (decide (i = j)) as [->|Hne].
    - apply list_lookup_insert_eq. apply lookup_lt_Some in Hj. exact Hj.
    - rewrite list_lookup_insert_ne by congruence. exact Hi. }
  rewrite (weigh_insert _ _ _ _ _ Ha), (weigh_insert _ _ _ _ _ Hj). lia.
Qed.

Lemma weigh_shuffle_from f i : forall x r,
  weigh f (shuffle_from i x r).1 = weigh f x.
Proof.
  induction i as [|i IH]; intros x r; [reflexivity|].
  cbn [shuffle_from]. unfold randbelow. rewrite IH. apply weigh_swap.
Qed.

Lemma weigh_shuffle f d : weigh f (cards (shuffle d)) = weigh f (cards d).
Proof.
  unfold shuffle, random_shuffle.
  pose proof (weigh_shuffle_from f (length (cards d) - 1) (cards d) (random d)) as H.
  destruct (shuffle_from _ _ _). exact H.
Qed.

Lemma weigh_fresh f n :
  weigh f (fresh_cards n) = Z.pos n * weigh f one_deck.
Proof.
  unfold fresh_cards. rewrite <- positive_nat_Z.
  induction (Pos.to_nat n) as [|k IH]; [reflexivity|].
  change (mjoin (replicate (S k) one_deck))
    with (one_deck ++ mjoin (replicate k one_deck)).
  rewrite weigh_app, IH. lia.
Qed.

Lemma copies_one_deck card : copies card one_deck = 1.
Proof. destruct card as [s r]. destruct s, r; reflexivity. Qed.

Lemma copies_count_occ card (l : list Card) :
  copies card l = Z.of_nat (count_occ Card_eq_dec l card).
Proof.
  unfold copies, weigh. induction l as [|x l IH]; [reflexivity|].
  cbn [map fold_right]. rewrite IH.
  destruct (decide (x = card)) as [->|Hne].
  - rewrite count_occ_cons_eq by reflexivity. lia.
  - rewrite count_occ_cons_neq by exact Hne. lia.
Qed.

(** X3. A built shoe holds 52 cards for each deck, every card of the 52 once
    for each deck, and shuffling rearranges the cards of the shoe without
    adding or losing any. *)
Theorem shoe_composition (d : Deck) :
  length (cards (build d)) = (52 * Pos.to_nat (num_decks d))%nat
  /\ (forall card, copies card (cards (build d)) = Z.pos (num_decks d))
  /\ cards (shuffle d) ≡ₚ cards d.
Proof.
  split; [apply fresh_cards_length|]. split.
  - intros card. unfold copies. simpl. rewrite weigh_fresh.
    fold (copies card one_deck). rewrite copies_one_deck. lia.
  - apply (Permutation_count_occ Card_eq_dec). intros card.
    apply Nat2Z.inj. rewrite <- !copies_count_occ. apply weigh_shuffle.
Qed.

(** X4. [deal] never fails. From a shoe that is not empty it takes the last
    card of the list and leaves the others as they are; from an empty shoe
    it hands out a card of a newly built and shuffled shoe, of which all
    cards but this one remain. *)
Theorem deal_takes_one_card (d : Deck) :
  num_decks (deal d).2 = num_decks d
  /\ (cards d <> [] -> cards d = cards (deal d).2 ++ [(deal d).1])
  /\ (cards d = [] ->
      cards (shuffle (build d)) = cards (deal d).2 ++ [(deal d).1]
      /\ length (cards (deal d).2) = (52 * Pos.to_nat (num_decks d) - 1)%nat).
Proof.
  destruct (deal_pops d) as (rest & Hc & Hd). rewrite Hd. simpl.
  unfold ready in *.
  destruct (length (cards d) =? 0)%nat eqn:E;
    [apply Nat.eqb_eq in E | apply Nat.eqb_neq in E].
  - split; [unfold shuffle; destruct (random_shuffle _ _); reflexivity|].
    split; [intros H; destruct (cards d); [congruence | discriminate]|].
    intros _. split; [exact Hc|].
    apply (f_equal length) in Hc. rewrite shuffle_length in Hc. simpl in Hc.
    rewrite fresh_cards_length, length_app in Hc. simpl in Hc. lia.
  - split; [reflexivity|]. split; [intros _; exact Hc|].
    intros H. rewrite H in E. simpl in E. lia.
Qed.

(** A shoe with cards left, and an empty one. *)
Lemma deal_takes_one_card_witness :
  (cards shoe_sixteen <> []
   /\ cards shoe_sixteen = cards (deal shoe_sixteen).2 ++ [(deal shoe_sixteen).1])
  /\ (cards (mkDeck 6 [] gen_zero []) = []
      /\ length (cards (deal (mkDeck 6 [] gen_zero [])).2) = 311%nat).
Proof.
  split.
  - split; [discriminate|].
    apply (proj1 (proj2 (deal_takes_one_card shoe_sixteen))). discriminate.
  - split; [reflexivity|].
    apply (proj2 (proj2 (deal_takes_one_card (mkDeck 6 [] gen_zero [])))).
    reflexivity.
Defined.

Lemma shuffle_num_decks d : num_decks (shuffle d) = num_decks d.
Proof. unfold shuffle. destruct (random_shuffle _ _). reflexivity. Qed.

Lemma deal_num_decks d : num_decks (deal d).2 = num_decks d.
Proof.
  destruct (deal_pops d) as (rest & _ & ->). simpl. unfold ready.
  destruct (length (cards d) =? 0)%nat; [|reflexivity].
  rewrite shuffle_num_decks. reflexivity.
Qed.

Lemma complete_rebuilt d : complete (shuffle (build d)).
Proof.
  intros card. unfold copies. rewrite weigh_shuffle, shuffle_history.
  rewrite shuffle_num_decks. simpl. rewrite weigh_fresh, since_last_build_built.
  fold (copies card one_deck). rewrite copies_one_deck. unfold weigh. simpl. lia.
Qed.

Lemma complete_deal d : complete d -> complete (deal d).2.
Proof.
  intros Hd. destruct (deal_pops d) as (rest & Hc & ->).
  assert (Hr : complete (ready d)).
  { unfold ready. destruct (length (cards d) =? 0)%nat; [|exact Hd].
    apply complete_rebuilt. }
  intros card. specialize (Hr card). unfold copies in *. simpl.
  rewrite since_last_build_dealt, weigh_app.
  rewrite Hc, weigh_app in Hr. lia.
Qed.

Lemma deals_keep (P : Deck -> Prop) :
  (forall d, P d -> P (deal d).2) ->
  forall l d d', P d -> deals d l d' -> P d'.
Proof.
  intros Hdeal. induction l as [|a l IH]; intros d d' Hp H; simpl in H.
  - subst d'. exact Hp.
  - destruct H as [_ H]. eapply IH; [|exact H]. apply Hdeal, Hp.
Qed.

(** A property of the shoe that every deal keeps and that every rebuilt
    shoe has is kept by every pass of the driver's loop. *)
Lemma sim_round_keeps (P : Deck -> Prop) :
  (forall d, P d -> P (deal d).2) ->
  (forall d, P d -> P (shuffle (build d))) ->
  forall ps bs base_bet reshuffle strategy_args s,
    P (sim_deck s) ->
    exists s' e,
      sim_round ps bs base_bet reshuffle strategy_args s = Some (s', e)
      /\ P (sim_deck s').
Proof.
  intros Hdeal Hbuild ps bs base_bet reshuffle strategy_args s Hs.
  assert (Hprep : P (sim_deck (prepare_round ps bs base_bet reshuffle s).2)).
  { unfold prepare_round.
    destruct (bool_decide (ps = CardCounter)).
    - destruct (length (cards (sim_deck s)) =? 0)%nat; simpl; auto.
    - destruct (reshuffle || (length (cards (sim_deck s)) <? 52)%nat);
        destruct (bool_decide (bs = Martingale)); simpl; auto. }
  unfold sim_round.
  destruct (prepare_round ps bs base_bet reshuffle s) as [bet s1]. simpl in *.
  destruct (initial_deal_total (sim_deck s1)) as (p1 & d1 & p2 & d2 & deck' & H).
  destruct (play_round_effect (sim_deck s1) (strategy_of ps) bet
              (round_args strategy_args (running_count s1)) _ _ _ _ _ H)
    as (r & e & later & Hr & _ & Hdeals).
  rewrite Hr. eexists _, e. split; [reflexivity|]. simpl.
  apply (deals_keep P Hdeal _ _ _ Hprep Hdeals).
Qed.

Lemma sim_rounds_keep (P : Deck -> Prop) :
  (forall d, P d -> P (deal d).2) ->
  (forall d, P d -> P (shuffle (build d))) ->
  forall ps bs base_bet reshuffle strategy_args num_games s,
    P (sim_deck s) ->
    exists s',
      sim_rounds ps bs base_bet reshuffle strategy_args num_games s = Some s'
      /\ P (sim_deck s').
Proof.
  intros Hdeal Hbuild ps bs base_bet reshuffle strategy_args num_games.
  induction num_games as [|n IH]; intros s Hs; simpl.
  - exists s. auto.
  - destruct (sim_round_keeps P Hdeal Hbuild ps bs base_bet reshuffle
                strategy_args s Hs) as (s1 & e & Hr & H1).
    rewrite Hr. apply IH, H1.
Qed.

(** X5. No card is dealt more often than the shoe holds it: at the end of
    every simulation, each of the 52 cards is there six times, counting the
    cards left in the shoe and the cards dealt since the shoe was last
    built.  The keyword arguments repeat none of the names that the calls of
    a round bind themselves ([plain_keywords]) and the bets are in the range
    in which every profit and every sum of profits is exact as a double
    ([exact_sums]). *)
Theorem dealing_conserves_the_cards
  (playing_strategy : PlayingStrategy) (num_games : nat)
  (betting_strategy : BettingStrategy) (base_bet : Z)
  (reshuffle_each_hand : bool) (strategy_args : gmap string pyval)
  (r : Random) :
  plain_keywords strategy_args ->
  exact_sums playing_strategy betting_strategy base_bet num_games ->
  exists s,
    run_simulation playing_strategy num_games betting_strategy base_bet
      reshuffle_each_hand strategy_args r = Some s
    /\ forall card,
         copies card (cards (sim_deck s))
         + copies card (since_last_build (history (sim_deck s))) = 6.
Proof.
  intros _ _.
  unfold run_simulation.
  destruct (sim_rounds_keep (fun d => complete d /\ num_decks d = 6%positive))
    with (ps := playing_strategy) (bs := betting_strategy) (base_bet := base_bet)
         (reshuffle := reshuffle_each_hand) (strategy_args := strategy_args)
         (num_games := num_games)
         (s := mkSim (shuffle (new_deck 6 r)) 0 None base_bet [])
    as (s & Hs & Hc & Hn).
  - intros d [Hc Hn]. split; [apply complete_deal, Hc|].
    rewrite deal_num_decks. exact Hn.
  - intros d [Hc Hn]. split; [apply complete_rebuilt|].
    rewrite shuffle_num_decks. exact Hn.
  - cbn [sim_deck]. split; [apply complete_rebuilt|].
    rewrite shuffle_num_decks. reflexivity.
  - exists s. split; [exact Hs|]. intros card. rewrite (Hc card), Hn. reflexivity.
Qed.

(** Sixty rounds of the card counter on the generator [gen_five]. *)
Lemma dealing_conserves_the_cards_witness :
  plain_keywords ∅ /\ exact_sums CardCounter Flat 10 60
  /\ exists s,
       run_simulation CardCounter 60 Flat 10 false ∅ gen_five = Some s
       /\ forall card,
            copies card (cards (sim_deck s))
            + copies card (since_last_build (history (sim_deck s))) = 6.
Proof.
  assert (K : plain_keywords ∅) by apply plain_keywords_empty.
  assert (B : exact_sums CardCounter Flat 10 60) by (vm_compute; reflexivity).
  split; [exact K|]. split; [exact B|].
  exact (dealing_conserves_the_cards CardCounter 60 Flat 10 false ∅
           gen_five K B).
Defined.

(** X6. The count is balanced: folding [update_count] over all the cards of
    a newly built and shuffled shoe leaves the count where it was. *)
Theorem full_shoe_counts_to_zero (d : Deck) (count : Z) :
  fold_left update_count (cards (shuffle (build d))) count = count.
Proof.
  rewrite fold_update_count, tally_shuffle. simpl. rewrite tally_fresh. lia.
Qed.

(** ** The dealer's final value *)

Lemma hard_total_add_le (h : Hand) card :
  hard_total (add_card h card) <= hard_total h + 10.
Proof.
  unfold hard_total. rewrite raw_sum_add, count_aces_add.
  pose proof (value_bounds card) as [Hb Ha].
  destruct (decide (rank card = RA)) as [E|E]; rewrite Nat2Z.inj_add; simpl.
  - apply Ha in E. lia.
  - assert (value card <> 11) by tauto. lia.
Qed.

(** A card drawn by the dealer never takes the hand beyond 26. *)
Lemma dealer_draw_bound (h : Hand) card :
  dealer_draws h = true -> get_value (add_card h card) <= 26.
Proof.
  intros Hd.
  destruct (Z.le_gt_cases (get_value (add_card h card)) 26) as [|Hgt]; [assumption|].
  exfalso.
  destruct (get_value_facts (add_card h card)) as (H1 & _ & H3 & _).
  rewrite H3 in H1 by lia. unfold total_with in H1.
  pose proof (hard_total_add_le h card).
  unfold dealer_draws in Hd. apply orb_true_iff in Hd as [Hd|Hd].
  - apply Z.ltb_lt in Hd. pose proof (get_value_ge_hard h). lia.
  - apply andb_true_iff in Hd as [_ Hd]. apply is_soft_hard in Hd. lia.
Qed.

Lemma dealer_loop_bound steps : forall (dealer drawn : Hand) e final drawn' e',
  dealer_loop steps dealer drawn e = Some ((final, drawn'), e') ->
  final = dealer \/ get_value final <= 26.
Proof.
  induction steps as [|steps IH]; intros dealer drawn e final drawn' e' H;
    [discriminate|].
  cbn [dealer_loop] in H. destruct (dealer_draws dealer) eqn:E.
  - destruct (deal_card_spec e) as (card & e1 & Hd & _).
    rewrite (bind_Some _ _ _ _ _ Hd) in H.
    destruct (IH _ _ _ _ _ _ H) as [->|Hle]; [|auto].
    right. apply dealer_draw_bound, E.
  - injection H as <- _ _. auto.
Qed.

(** X7. Whatever the dealer's two cards and whatever cards follow, the value
    that [play_dealer] returns lies between 17 and 26. *)
Theorem dealer_final_value_range (d1 d2 : Card) (e : RoundEnv) :
  exists dealer_final dealer_val dealer_cards e',
    play_dealer d1 [d2] e = Some ((dealer_final, dealer_val, dealer_cards), e')
    /\ dealer_val = get_value ([d1; d2] ++ dealer_cards)
    /\ 17 <= dealer_val <= 26.
Proof.
  destruct (dealer_loop_spec dealer_steps [d1; d2] [] e)
    as (new & e1 & Hl & Hstop & _).
  { unfold dealer_steps. lia. }
  { pose proof (hard_total_nonneg [d1; d2]). unfold dealer_steps. lia. }
  pose proof (dealer_loop_bound _ _ _ _ _ _ _ Hl) as Hb.
  apply dealer_stops in Hstop as [H17 _].
  eexists _, _, new, _. unfold play_dealer, dealer_hand_cards.
  rewrite (bind_Some _ _ _ _ _ Hl). split; [reflexivity|].
  split; [reflexivity|]. split; [exact H17|].
  destruct Hb as [Hb|Hb]; [|exact Hb].
  rewrite Hb. pose proof (two_card_value d1 d2). lia.
Qed.

(** ** Stakes and profits *)

Lemma settle_values player_val dealer_val stake :
  settle player_val dealer_val stake = stake
  \/ settle player_val dealer_val stake = - stake
  \/ settle player_val dealer_val stake = 0.
Proof.
  unfold settle. destruct (_ || _); [auto|]. destruct (_ <? _); auto.
Qed.

Lemma settled_once_bound dealer stake final drawn runs prof :
  0 <= stake -> settled_once dealer stake final drawn runs prof ->
  - stake <= prof <= stake.
Proof.
  intros Hb. unfold settled_once. destruct (21 <? get_value final).
  - intros (_ & _ & ->). lia.
  - intros (_ & _ & ->).
    destruct (settle_values (get_value final) (get_value (dealer ++ drawn)) stake)
      as [-> | [-> | ->]]; lia.
Qed.

Lemma stake_of_bound strategy_func strategy_args dealer_up (hand : Hand)
  allow_double bet :
  0 <= bet ->
  bet <= stake_of strategy_func strategy_args dealer_up hand allow_double bet
  <= 2 * bet.
Proof. intros Hb. unfold stake_of. destruct (doubles _ _ _ _ _); lia. Qed.

Lemma play_round_profit
  (deck : Deck) (strategy_func : Strategy) (betting_amount : Z)
  (kw : gmap string pyval) (p1 d1 p2 d2 : Card) (deck' : Deck) :
  initial_deal deck = (p1, d1, p2, d2, deck') ->
  0 <= betting_amount ->
  exists r e,
    play_round deck strategy_func betting_amount kw = Some (r, e)
    /\ (inject_Z (-4 * betting_amount) <= profit r
        <= inject_Z (4 * betting_amount))%Q
    /\ (if splits strategy_func (strategy_args_of kw) d1 [p1; p2] true
        then True
        else (inject_Z (-2 * betting_amount) <= profit r
              <= inject_Z (2 * betting_amount))%Q).
Proof.
  intros H Hb.
  destruct (play_round_outcome deck strategy_func betting_amount kw _ _ _ _ _ H)
    as (r & e & Hr & _ & _ & _ & B).
  exists r, e. split; [exact Hr|]. cbn zeta in B.
  destruct (is_blackjack [p1; p2]), (is_blackjack [d1; d2]).
  1-3: destruct B as (_ & _ & ->);
       destruct (splits _ _ _ _ _); unfold Qle; simpl; lia.
  destruct B as (res & prof & hand' & Hs & _ & -> & _).
  destruct (play_single_hand_spec strategy_func (strategy_args_of kw) d1 [d2]
              [p1; p2] betting_amount true true
              (mkEnv deck' ([p1; p2] ++ [d1; d2]) []))
    as (res' & prof' & hand'' & e' & new & runs & Hs' & _ & Hcase).
  rewrite Hs in Hs'. injection Hs' as <- <- <- <-.
  specialize (Hcase ltac:(apply two_card_value)).
  rewrite <- !Zle_Qle.
  destruct (splits strategy_func (strategy_args_of kw) d1 [p1; p2] true).
  - destruct Hcase as (c0 & c1 & x1 & x2 & hits1 & drawn1 & hits2 & drawn2
                       & prof1 & prof2 & runs1 & runs2
                       & _ & _ & _ & _ & _ & S1 & S2 & ->).
    pose proof (stake_of_bound strategy_func (strategy_args_of kw) d1
                  [c0; x1] true betting_amount Hb) as B1.
    pose proof (stake_of_bound strategy_func (strategy_args_of kw) d1
                  [c1; x2] true betting_amount Hb) as B2.
    apply settled_once_bound in S1; [|lia].
    apply settled_once_bound in S2; [|lia].
    split; [lia|]. exact I.
  - destruct Hcase as (hits & drawn & _ & _ & _ & S).
    pose proof (stake_of_bound strategy_func (strategy_args_of kw) d1
                  [p1; p2] true betting_amount Hb) as B1.
    apply settled_once_bound in S; [|lia].
    split; lia.
Qed.

(** X8. With a bet that is not negative, no round wins or loses more than
    four times the bet, and a round without a split no more than twice.  The
    keyword arguments repeat none of the names that the calls of a round
    bind themselves ([plain_keywords]) and the bet is in the range in which
    the double product of 1.5 and the bet is exact ([exact_bet]). *)
Theorem round_profit_bounds
  (deck : Deck) (strategy_func : Strategy) (betting_amount : Z)
  (kw : gmap string pyval) (p1 d1 p2 d2 : Card) (deck' : Deck) :
  plain_keywords kw ->
  exact_bet betting_amount ->
  initial_deal deck = (p1, d1, p2, d2, deck') ->
  0 <= betting_amount ->
  exists r e,
    play_round deck strategy_func betting_amount kw = Some (r, e)
    /\ (inject_Z (-4 * betting_amount) <= profit r
        <= inject_Z (4 * betting_amount))%Q
    /\ (if splits strategy_func (strategy_args_of kw) d1 [p1; p2] true
        then True
        else (inject_Z (-2 * betting_amount) <= profit r
              <= inject_Z (2 * betting_amount))%Q).
Proof. intros _ _. apply play_round_profit. Qed.

(** The split round of 8-8 against 10-6 with a bet of 10. *)
Lemma round_profit_bounds_witness :
  plain_keywords ∅ /\ exact_bet 10 /\
  initial_deal shoe_eights
  = (sp R8, sp R10, sp R8, sp R6, (initial_deal shoe_eights).2)
  /\ 0 <= 10
  /\ exists r e,
       play_round shoe_eights strategy_basic 10 ∅ = Some (r, e)
       /\ (inject_Z (-40) <= profit r <= inject_Z 40)%Q.
Proof.
  assert (K : plain_keywords ∅) by apply plain_keywords_empty.
  split; [exact K|].
  assert (B : exact_bet 10) by apply exact_bet_10.
  split; [exact B|].
  assert (E : initial_deal shoe_eights
              = (sp R8, sp R10, sp R8, sp R6, (initial_deal shoe_eights).2))
    by reflexivity.
  split; [exact E|]. split; [lia|].
  destruct (round_profit_bounds shoe_eights strategy_basic 10 ∅ _ _ _ _ _ K B E)
    as (r & e & Hr & Hp & _); [lia|].
  exists r, e. auto.
Defined.

(** ** Strategies that only hit or stand *)

Lemma module_strategies_hit_or_stand :
  hit_or_stand strategy_mimic_dealer
  /\ hit_or_stand strategy_fixed_threshold
  /\ hit_or_stand strategy_dealer_weakness.
Proof.
  unfold hit_or_stand, strategy_mimic_dealer, strategy_fixed_threshold,
    strategy_dealer_weakness.
  repeat split; intros h upcard kw;
    repeat (match goal with |- context [if ?b then _ else _] => destruct b end);
    auto.
Qed.

(** Under a strategy that only hits or stands a hand is never split and
    never doubled: it is hit and then settled for the bet. *)
Lemma hit_or_stand_hand strategy_func strategy_args dealer_up dealer_rest
  (hand : Hand) bet allow_double allow_split e :
  hit_or_stand strategy_func ->
  exists hits new runs prof e',
    play_single_hand strategy_func strategy_args dealer_up dealer_rest
      hand bet allow_double allow_split e
    = Some ((hand_str (hand ++ hits), prof, hand ++ hits), e')
    /\ effect e e' new new runs
    /\ (length runs <= 1)%nat
    /\ (prof = - bet \/ prof = 0 \/ prof = bet).
Proof.
  intros Hs.
  assert (Hnot : forall h kw a, a <> Hit -> a <> Stand ->
            bool_decide (strategy_func h dealer_up kw = a) = false).
  { intros h kw a H1 H2. apply bool_decide_eq_false.
    destruct (Hs h dealer_up kw) as [-> | ->]; congruence. }
  assert (Hplay : play_single_hand strategy_func strategy_args dealer_up
                    dealer_rest hand bet allow_double allow_split e
                  = normal_play strategy_func strategy_args dealer_up
                      dealer_rest hand bet e).
  { assert (Hun : play_unsplit strategy_func strategy_args dealer_up
                    dealer_rest hand bet allow_double e
                  = normal_play strategy_func strategy_args dealer_up
                      dealer_rest hand bet e).
    { unfold play_unsplit. rewrite Hnot by discriminate.
      rewrite andb_false_r. reflexivity. }
    unfold play_single_hand, splits.
    destruct hand as [|c0 [|c1 [|c2 hand]]]; try exact Hun.
    rewrite Hnot by discriminate. rewrite andb_false_r. exact Hun. }
  rewrite Hplay.
  destruct (hit_loop_spec strategy_func strategy_args dealer_up hit_steps hand e)
    as (hits & bust & e1 & Hl & He1 & Hb).
  { unfold hit_steps. lia. }
  { pose proof (hard_total_nonneg hand). unfold hit_steps. lia. }
  unfold normal_play. mstep Hl. destruct bust.
  - exists hits, hits, [], (- bet), e1.
    split; [reflexivity|]. split; [exact He1|]. split; [simpl; lia | auto].
  - destruct (dealer_turn_spec dealer_up dealer_rest (hand ++ hits) bet e1)
      as (drawn & e' & Hd & He' & _).
    cbn zeta in *. eexists hits, (hits ++ drawn), _, _, e'.
    split; [exact Hd|]. split; [chain He1 He'|]. split; [simpl; lia|].
    destruct (settle_values (get_value (hand ++ hits))
                (get_value ((dealer_up :: dealer_rest) ++ drawn)) bet)
      as [-> | [-> | ->]]; auto.
Qed.

(** X9. Under a strategy that only answers hit or stand, as mimic-dealer,
    fixed-threshold and dealer-weakness do, a round plays the dealer at most
    once and its profit is the bet, minus the bet, zero, or one and a half
    times the bet.  The keyword arguments repeat none of the names that the
    calls of a round bind themselves ([plain_keywords]) and the bet is in
    the range in which the double product of 1.5 and the bet is exact
    ([exact_bet]). *)
Theorem hit_or_stand_round
  (deck : Deck) (strategy_func : Strategy) (betting_amount : Z)
  (kw : gmap string pyval) :
  plain_keywords kw ->
  exact_bet betting_amount ->
  hit_or_stand strategy_func ->
  exists r e,
    play_round deck strategy_func betting_amount kw = Some (r, e)
    /\ (length (env_dealer_runs e) <= 1)%nat
    /\ (profit r == inject_Z (- betting_amount)
        \/ profit r == 0
        \/ profit r == inject_Z betting_amount
        \/ profit r == (3 # 2) * inject_Z betting_amount)%Q.
Proof.
  intros _ _.
  intros Hs.
  destruct (initial_deal_total deck) as (p1 & d1 & p2 & d2 & deck' & H).
  destruct (play_round_outcome deck strategy_func betting_amount kw _ _ _ _ _ H)
    as (r & e & Hr & _ & _ & _ & B).
  exists r, e. split; [exact Hr|]. cbn zeta in B.
  destruct (is_blackjack [p1; p2]), (is_blackjack [d1; d2]).
  1-3: destruct B as (-> & _ & ->); simpl; split; [lia|];
       auto using Qeq_refl.
  destruct B as (res & prof & hand' & Hp & _ & -> & _).
  destruct (hit_or_stand_hand strategy_func (strategy_args_of kw) d1 [d2]
              [p1; p2] betting_amount true true
              (mkEnv deck' ([p1; p2] ++ [d1; d2]) []) Hs)
    as (hits & new & runs & prof' & e' & Hp' & (_ & _ & Hruns) & Hlen & Hprof).
  rewrite Hp in Hp'. injection Hp' as _ <- _ <-. simpl in Hruns.
  rewrite Hruns. split; [exact Hlen|].
  destruct Hprof as [-> | [-> | ->]]; auto using Qeq_refl.
Qed.

(** The mimic-dealer strategy on the round 10-7 against 10-6. *)
Lemma hit_or_stand_round_witness :
  plain_keywords ∅ /\ exact_bet 10 /\
  hit_or_stand strategy_mimic_dealer
  /\ exists r e,
       play_round shoe_sixteen strategy_mimic_dealer 10 ∅ = Some (r, e)
       /\ (length (env_dealer_runs e) <= 1)%nat.
Proof.
  assert (K : plain_keywords ∅) by apply plain_keywords_empty.
  split; [exact K|].
  assert (B : exact_bet 10) by apply exact_bet_10.
  split; [exact B|].
  split; [apply module_strategies_hit_or_stand|].
  destruct (hit_or_stand_round shoe_sixteen strategy_mimic_dealer 10 ∅ K B
              (proj1 module_strategies_hit_or_stand)) as (r & e & Hr & Hl & _).
  exists r, e. auto.
Defined.

(** ** Doubling *)

(** X10. When the strategy answers double on a two-card hand that is not
    split, the hand gets exactly one card, the next of the shoe, and the
    profit is twice the bet, minus twice the bet, or zero; if the card busts
    the hand, the dealer is not played and twice the bet is lost.  The
    keyword arguments repeat none of the names that the calls of a round
    bind themselves ([plain_keywords]). *)
Theorem double_takes_one_card
  (strategy_func : Strategy) (strategy_args : gmap string pyval)
  (dealer_up : Card) (dealer_rest : list Card)
  (hand : Hand) (bet : Z) (e : RoundEnv) :
  plain_keywords strategy_args ->
  length hand = 2%nat ->
  splits strategy_func strategy_args dealer_up hand true = false ->
  strategy_func hand dealer_up (<["can_double" := PBool true]> strategy_args)
  = Double ->
  let card := (deal (env_deck e)).1 in
  exists prof e',
    play_single_hand strategy_func strategy_args dealer_up dealer_rest
      hand bet true true e
    = Some ((hand_str (hand ++ [card]), prof, hand ++ [card]), e')
    /\ (prof = 2 * bet \/ prof = -2 * bet \/ prof = 0)
    /\ (21 < get_value (hand ++ [card]) ->
        prof = -2 * bet /\ env_dealer_runs e' = env_dealer_runs e).
Proof.
  intros _.
  intros Hlen Hsplit Hdouble card.
  assert (Hplay : play_single_hand strategy_func strategy_args dealer_up
                    dealer_rest hand bet true true e
                  = double_play dealer_up dealer_rest hand bet e).
  { assert (Hun : play_unsplit strategy_func strategy_args dealer_up
                    dealer_rest hand bet true e
                  = double_play dealer_up dealer_rest hand bet e).
    { unfold play_unsplit. rewrite Hlen, Hdouble. reflexivity. }
    unfold play_single_hand. rewrite Hsplit.
    destruct hand as [|c0 [|c1 [|c2 hand]]]; exact Hun. }
  rewrite Hplay. unfold double_play.
  destruct (deal_card_spec e) as (card' & e1 & Hd & He1).
  assert (Hcard : card' = card).
  { unfold deal_card in Hd. subst card. destruct (deal (env_deck e)).
    injection Hd as -> _. reflexivity. }
  subst card'. destruct (see_spec [card] e1) as (e2 & Hsee & He2).
  mstep Hd. mstep Hsee. unfold add_card.
  destruct (21 <? get_value (hand ++ [card])) eqn:Ev.
  - exists (-2 * bet), e2. split; [reflexivity|]. split; [auto|].
    intros _. split; [reflexivity|].
    destruct He1 as (_ & _ & H1), He2 as (_ & _ & H2).
    rewrite H2, H1, !app_nil_r. reflexivity.
  - apply Z.ltb_ge in Ev.
    destruct (dealer_turn_spec dealer_up dealer_rest (hand ++ [card]) (2 * bet) e2)
      as (drawn & e' & Ht & _ & _).
    cbn zeta in *. eexists _, e'. split; [exact Ht|]. split; [|lia].
    destruct (settle_values (get_value (hand ++ [card]))
                (get_value ((dealer_up :: dealer_rest) ++ drawn)) (2 * bet))
      as [-> | [-> | ->]]; lia.
Qed.

(** The basic strategy doubling 6-5 against a 10-6 dealer: the hand
    draws the 9 and stands on 20. *)
Lemma double_takes_one_card_witness :
  plain_keywords ∅ /\
  length [sp R6; sp R5] = 2%nat
  /\ splits strategy_basic ∅ (sp R10) [sp R6; sp R5] true = false
  /\ strategy_basic [sp R6; sp R5] (sp R10)
       (<["can_double" := PBool true]> ∅) = Double
  /\ exists prof e',
       play_single_hand strategy_basic ∅ (sp R10) [sp R6] [sp R6; sp R5] 10
         true true
         (mkEnv (initial_deal shoe_eleven).2 [sp R6; sp R5; sp R10; sp R6] [])
       = Some (("6-5-9"%string, prof, [sp R6; sp R5; sp R9]), e')
       /\ (prof = 20 \/ prof = -20 \/ prof = 0).
Proof.
  assert (K : plain_keywords ∅) by apply plain_keywords_empty.
  split; [exact K|].
  assert (H1 : length [sp R6; sp R5] = 2%nat) by reflexivity.
  assert (H2 : splits strategy_basic ∅ (sp R10) [sp R6; sp R5] true = false)
    by reflexivity.
  assert (H3 : strategy_basic [sp R6; sp R5] (sp R10)
                 (<["can_double" := PBool true]> ∅) = Double)
    by reflexivity.
  split; [exact H1|]. split; [exact H2|]. split; [exact H3|].
  destruct (double_takes_one_card strategy_basic ∅ (sp R10) [sp R6]
              [sp R6; sp R5] 10
              (mkEnv (initial_deal shoe_eleven).2
                 [sp R6; sp R5; sp R10; sp R6] [])
              K H1 H2 H3) as (prof & e' & Hp & Hv & _).
  exists prof, e'. split; [exact Hp | exact Hv].
Defined.

(** ** The basic strategy *)

Lemma basic_pairs_answers can_double pair up a :
  basic_pairs can_double pair up = Some a ->
  a = Split \/ (a = Double /\ can_double = true) \/ a = Hit \/ a = Stand.
Proof.
  unfold basic_pairs.
  repeat (match goal with |- context [if ?b then _ else _] => destruct b end);
    intros H; try discriminate H; injection H as <-; auto.
Qed.

Lemma basic_double_answers ranks val up a :
  basic_double ranks val up = Some a -> a = Double.
Proof.
  unfold basic_double.
  destruct (first_other ranks) as [other|]; [destruct (rank_in RA ranks)|];
    repeat (match goal with
            | |- context [if ?b then _ else _] => destruct b; cbn beta iota zeta
            end);
    intros H; try discriminate H; injection H as <-; reflexivity.
Qed.

Lemma basic_hard_answers val up :
  (basic_hard val up = Hit \/ basic_hard val up = Stand)
  /\ (val <= 11 -> basic_hard val up = Hit)
  /\ (17 <= val -> basic_hard val up = Stand).
Proof.
  unfold basic_hard.
  destruct (val <=? 11) eqn:E1; [apply Z.leb_le in E1 | apply Z.leb_gt in E1].
  { split; [auto|]. split; [auto | lia]. }
  destruct (val =? 12) eqn:E2; [apply Z.eqb_eq in E2 | apply Z.eqb_neq in E2].
  { destruct (rank_in up _); (split; [auto|]); split; lia. }
  destruct ((13 <=? val) && (val <=? 16)) eqn:E3.
  { apply andb_true_iff in E3 as [_ E3]. apply Z.leb_le in E3.
    destruct (rank_in up _); (split; [auto|]); split; lia. }
  split; [auto|]. split; [lia | auto].
Qed.

Lemma basic_standard_answers ranks val up :
  basic_standard ranks val up = Hit \/ basic_standard ranks val up = Stand.
Proof.
  unfold basic_standard.
  destruct (rank_in RA ranks && (length ranks =? 2)%nat);
    [|apply basic_hard_answers].
  destruct (first_other ranks) as [other|]; [|auto].
  repeat (match goal with
          | |- context [if ?b then _ else _] => destruct b
          end); auto.
Qed.

Lemma strategy_basic_offers (h : Hand) (upcard : Card)
  (kw : gmap string pyval) :
  strategy_basic h upcard kw <> Insurance
  /\ (strategy_basic h upcard kw = Split ->
      kw_flag "can_split" false kw = true
      /\ exists a b, h = [a; b] /\ rank a = rank b)
  /\ (strategy_basic h upcard kw = Double ->
      kw_flag "can_double" false kw = true /\ length h = 2%nat).
Proof.
  unfold strategy_basic.
  set (can_double := kw_flag "can_double" false kw).
  set (can_split := kw_flag "can_split" false kw).
  set (pairs := match map rank h with
                | [r0; r1] =>
                    if can_split && bool_decide (r0 = r1)
                    then basic_pairs can_double r0 (rank upcard) else None
                | _ => None
                end).
  assert (Hpairs : forall a, pairs = Some a ->
            (a = Split /\ can_split = true
             /\ exists x y, h = [x; y] /\ rank x = rank y)
            \/ (a = Double /\ can_double = true /\ length h = 2%nat)
            \/ a = Hit \/ a = Stand).
  { intros a. subst pairs.
    destruct h as [|x [|y [|z h]]]; try discriminate. cbn [map].
    destruct can_split; [|discriminate]. cbn [andb].
    destruct (bool_decide (rank x = rank y)) eqn:E; [|discriminate].
    apply bool_decide_eq_true in E. intros H.
    apply basic_pairs_answers in H as [-> | [[-> Hd] | [-> | ->]]]; eauto 10. }
  destruct pairs as [a|].
  { destruct (Hpairs a eq_refl) as [(-> & ? & ?) | [(-> & ? & ?) | [-> | ->]]];
      (split; [discriminate|]); split; intros; try discriminate; auto. }
  destruct (if can_double && (length h =? 2)%nat
            then basic_double (map rank h) (get_value h) (rank upcard)
            else None) as [a|] eqn:Ed.
  { destruct can_double; [|discriminate]. cbn [andb] in Ed.
    destruct (length h =? 2)%nat eqn:El; [|discriminate].
    apply Nat.eqb_eq in El. apply basic_double_answers in Ed as ->.
    split; [discriminate|]. split; [discriminate | auto]. }
  destruct (basic_standard_answers (map rank h) (get_value h) (rank upcard))
    as [-> | ->]; (split; [discriminate|]); split; discriminate.
Qed.

(** X11. The basic strategy keeps to what it is offered: it never answers
    insurance, it answers split only when called with [can_split] on two
    cards of the same rank, and double only when called with [can_double] on
    two cards. *)
Theorem strategy_basic_keeps_to_offers (h : Hand) (upcard : Card)
  (kw : gmap string pyval) :
  strategy_basic h upcard kw <> Insurance
  /\ (strategy_basic h upcard kw = Split ->
      kw_flag "can_split" false kw = true
      /\ exists a b, h = [a; b] /\ rank a = rank b)
  /\ (strategy_basic h upcard kw = Double ->
      kw_flag "can_double" false kw = true /\ length h = 2%nat).
Proof. apply strategy_basic_offers. Qed.

(** The answers split on 8-8 and double on 6-5. *)
Lemma strategy_basic_keeps_to_offers_witness :
  (strategy_basic [sp R8; sp R8] (sp R10) (<["can_split" := PBool true]> ∅)
   = Split
   /\ kw_flag "can_split" false (<["can_split" := PBool true]> ∅) = true)
  /\ (strategy_basic [sp R6; sp R5] (sp R10) (<["can_double" := PBool true]> ∅)
      = Double
      /\ kw_flag "can_double" false (<["can_double" := PBool true]> ∅) = true).
Proof.
  assert (H1 : strategy_basic [sp R8; sp R8] (sp R10)
                 (<["can_split" := PBool true]> ∅) = Split) by reflexivity.
  assert (H2 : strategy_basic [sp R6; sp R5] (sp R10)
                 (<["can_double" := PBool true]> ∅) = Double) by reflexivity.
  split; (split; [assumption|]).
  - apply (proj1 (proj2 (strategy_basic_keeps_to_offers _ _ _)) H1).
  - apply (proj2 (proj2 (strategy_basic_keeps_to_offers _ _ _)) H2).
Defined.

Lemma two_cards_with_ace (h : Hand) :
  rank_in RA (map rank h) && (length (map rank h) =? 2)%nat = true ->
  12 <= get_value h.
Proof.
  intros H. apply andb_true_iff in H as [Ha Hl]. apply Nat.eqb_eq in Hl.
  rewrite length_map in Hl.
  destruct h as [|[sa ra] [|[sb rb] [|z h]]]; try discriminate Hl.
  destruct ra, rb; try discriminate Ha; vm_compute; discriminate.
Qed.

(** X12. Called without the flags, as in normal play, the basic strategy
    only answers hit or stand; it hits every total of 11 or less, and it
    stands on every total of 17 or more except on two cards with an ace. *)
Theorem strategy_basic_in_normal_play (h : Hand) (upcard : Card)
  (kw : gmap string pyval) :
  kw_flag "can_double" false kw = false ->
  kw_flag "can_split" false kw = false ->
  (strategy_basic h upcard kw = Hit \/ strategy_basic h upcard kw = Stand)
  /\ (get_value h <= 11 -> strategy_basic h upcard kw = Hit)
  /\ (17 <= get_value h ->
      rank_in RA (map rank h) && (length h =? 2)%nat = false ->
      strategy_basic h upcard kw = Stand).
Proof.
  intros Hd Hs. unfold strategy_basic. rewrite Hd, Hs. cbn [andb].
  assert (Hp : match map rank h with
               | [r0; r1] => None
               | _ => @None Action
               end = None).
  { destruct (map rank h) as [|? [|? [|? ?]]]; reflexivity. }
  rewrite Hp. split; [apply basic_standard_answers|].
  unfold basic_standard. rewrite length_map. split.
  - intros Hv.
    destruct (rank_in RA (map rank h) && (length h =? 2)%nat) eqn:E.
    + rewrite <- (length_map rank) in E. apply two_cards_with_ace in E. lia.
    + apply basic_hard_answers, Hv.
  - intros Hv ->. apply basic_hard_answers, Hv.
Qed.

(** Without flags: 4-5 is hit, 10-9 is stood on. *)
Lemma strategy_basic_in_normal_play_witness :
  kw_flag "can_double" false ∅ = false
  /\ kw_flag "can_split" false ∅ = false
  /\ (get_value [sp R4; sp R5] <= 11
      /\ strategy_basic [sp R4; sp R5] (sp R10) ∅ = Hit)
  /\ (17 <= get_value [sp R10; sp R9]
      /\ rank_in RA (map rank [sp R10; sp R9]) && (length [sp R10; sp R9] =? 2)%nat
         = false
      /\ strategy_basic [sp R10; sp R9] (sp R10) ∅ = Stand).
Proof.
  assert (Hd : kw_flag "can_double" false ∅ = false) by reflexivity.
  assert (Hs : kw_flag "can_split" false ∅ = false) by reflexivity.
  split; [exact Hd|]. split; [exact Hs|]. split.
  - split; [discriminate|].
    apply (proj1 (proj2 (strategy_basic_in_normal_play [sp R4; sp R5] (sp R10) ∅
                           Hd Hs))).
    discriminate.
  - split; [discriminate|]. split; [reflexivity|].
    apply (proj2 (proj2 (strategy_basic_in_normal_play [sp R10; sp R9] (sp R10) ∅
                           Hd Hs))).
    + discriminate.
    + reflexivity.
Defined.

(** X13. On an ace with a jack, a queen or a king, a two-card 21, the basic
    strategy answers hit, whatever the upcard and the flags: its list of
    soft hands to stand on names 8, 9 and 10 only. *)
Theorem strategy_basic_hits_ace_with_face (a b upcard : Card)
  (kw : gmap string pyval) :
  (rank a = RA /\ rank_in (rank b) [RJ; RQ; RK] = true)
  \/ (rank_in (rank a) [RJ; RQ; RK] = true /\ rank b = RA) ->
  get_value [a; b] = 21 /\ strategy_basic [a; b] upcard kw = Hit.
Proof.
  unfold strategy_basic.
  destruct (kw_flag "can_double" false kw), (kw_flag "can_split" false kw);
    destruct a as [sa ra], b as [sb rb], upcard as [su ru];
    destruct ra, rb; intros [[E H] | [H E]]; vm_compute in E, H;
    try discriminate E; try discriminate H;
    destruct ru; split; reflexivity.
Qed.

(** An ace and a king against a 6. *)
Lemma strategy_basic_hits_ace_with_face_witness :
  ((rank (sp RA) = RA /\ rank_in (rank (sp RK)) [RJ; RQ; RK] = true)
   \/ (rank_in (rank (sp RA)) [RJ; RQ; RK] = true /\ rank (sp RK) = RA))
  /\ get_value [sp RA; sp RK] = 21
  /\ strategy_basic [sp RA; sp RK] (sp R6) ∅ = Hit.
Proof.
  assert (H : (rank (sp RA) = RA /\ rank_in (rank (sp RK)) [RJ; RQ; RK] = true)
              \/ (rank_in (rank (sp RA)) [RJ; RQ; RK] = true
                  /\ rank (sp RK) = RA))
    by (left; split; reflexivity).
  split; [exact H|].
  exact (strategy_basic_hits_ace_with_face (sp RA) (sp RK) (sp R6) ∅ H).
Defined.

(** ** Strategies that give the same answers *)

Lemma hit_loop_same sf1 args1 sf2 args2 up steps :
  same_answers sf1 args1 sf2 args2 ->
  forall (hand : Hand) e,
    hit_loop sf1 args1 up steps hand e = hit_loop sf2 args2 up steps hand e.
Proof.
  intros Hs. induction steps as [|steps IH]; intros hand e; [reflexivity|].
  cbn [hit_loop]. rewrite (proj1 (Hs hand up)).
  destruct (bool_decide (sf2 hand up args2 = Hit)); [|reflexivity].
  unfold mbind, M_bind. destruct (deal_card e) as [[card e1]|]; [|reflexivity].
  destruct (see [card] e1) as [[[] e2]|]; [|reflexivity].
  destruct (21 <? get_value (add_card hand card)); [reflexivity|]. apply IH.
Qed.

Lemma play_single_hand_same sf1 args1 sf2 args2 up rest
  (hand : Hand) bet allow_double allow_split e :
  same_answers sf1 args1 sf2 args2 ->
  play_single_hand sf1 args1 up rest hand bet allow_double allow_split e
  = play_single_hand sf2 args2 up rest hand bet allow_double allow_split e.
Proof.
  intros Hs.
  assert (Hn : forall (h : Hand) e0,
            normal_play sf1 args1 up rest h bet e0
            = normal_play sf2 args2 up rest h bet e0).
  { intros h e0. unfold normal_play, mbind, M_bind.
    rewrite (hit_loop_same _ _ _ _ up hit_steps Hs). reflexivity. }
  assert (Hu : forall (h : Hand) ad e0,
            play_unsplit sf1 args1 up rest h bet ad e0
            = play_unsplit sf2 args2 up rest h bet ad e0).
  { intros h ad e0. unfold play_unsplit.
    rewrite (proj1 (proj2 (Hs h up))).
    destruct (_ && _ && _); [reflexivity | apply Hn]. }
  unfold play_single_hand, splits.
  destruct hand as [|c0 [|c1 [|c2 hand]]]; try apply Hu.
  rewrite (proj2 (proj2 (Hs [c0; c1] up))).
  destruct (_ && _ && _); [|apply Hu].
  unfold mbind, M_bind. destruct (deal_card e) as [[x1 e1]|]; [|reflexivity].
  destruct (deal_card e1) as [[x2 e2]|]; [|reflexivity].
  destruct (see [x1; x2] e2) as [[[] e3]|]; [|reflexivity].
  rewrite Hu.
  destruct (play_unsplit sf2 args2 up rest _ bet true e3)
    as [[[[res1 prof1] h1] e4]|]; [|reflexivity].
  rewrite Hu. reflexivity.
Qed.

Lemma play_round_same deck sf1 kw1 sf2 kw2 bet :
  same_answers sf1 (strategy_args_of kw1) sf2 (strategy_args_of kw2) ->
  play_round deck sf1 bet kw1 = play_round deck sf2 bet kw2.
Proof.
  intros Hs. unfold play_round.
  destruct (deal deck) as [p1 k1]. destruct (deal k1) as [d1 k2].
  destruct (deal k2) as [p2 k3]. destruct (deal k3) as [d2 k4].
  cbv zeta.
  rewrite (play_single_hand_same _ _ _ _ d1 [d2] _ bet true true _ Hs).
  reflexivity.
Qed.

Lemma sim_rounds_same ps1 args1 ps2 args2 bs base_bet reshuffle num_games :
  ps1 <> CardCounter -> ps2 <> CardCounter ->
  (forall count,
     same_answers (strategy_of ps1) (strategy_args_of (round_args args1 count))
       (strategy_of ps2) (strategy_args_of (round_args args2 count))) ->
  forall s,
    sim_rounds ps1 bs base_bet reshuffle args1 num_games s
    = sim_rounds ps2 bs base_bet reshuffle args2 num_games s.
Proof.
  intros H1 H2 Hs. induction num_games as [|n IH]; intros s; [reflexivity|].
  cbn [sim_rounds].
  assert (Hr : sim_round ps1 bs base_bet reshuffle args1 s
               = sim_round ps2 bs base_bet reshuffle args2 s).
  { assert (Hp : prepare_round ps1 bs base_bet reshuffle s
                 = prepare_round ps2 bs base_bet reshuffle s).
    { unfold prepare_round.
      rewrite (bool_decide_eq_false_2 _ H1), (bool_decide_eq_false_2 _ H2).
      reflexivity. }
    unfold sim_round. rewrite Hp.
    destruct (prepare_round ps2 bs base_bet reshuffle s) as [bet s1].
    rewrite (play_round_same _ _ _ _ _ bet (Hs (running_count s1))).
    reflexivity. }
  rewrite Hr. destruct (sim_round ps2 _ _ _ _ s) as [[s1 e]|]; [apply IH | reflexivity].
Qed.

Lemma Qltb_inject_Z (x y : Z) : Qltb (inject_Z x) (inject_Z y) = (x <? y).
Proof.
  destruct (x <? y) eqn:E.
  - apply Qltb_lt. rewrite <- Zlt_Qlt. apply Z.ltb_lt, E.
  - apply Qltb_ge. rewrite <- Zle_Qle. apply Z.ltb_ge, E.
Qed.

(** The fixed-threshold strategy hits below its threshold, 15 if none
    is given. *)
Lemma strategy_fixed_threshold_spec (h : Hand) upcard (kw : gmap string pyval) :
  (forall t : Z, kw !! "threshold" = Some (PNum (inject_Z t)) ->
     strategy_fixed_threshold h upcard kw
     = if get_value h <? t then Hit else Stand)
  /\ (kw !! "threshold" = None ->
      strategy_fixed_threshold h upcard kw
      = if get_value h <? 15 then Hit else Stand).
Proof.
  unfold strategy_fixed_threshold, kw_num. split.
  - intros t ->. simpl. rewrite Qltb_inject_Z. reflexivity.
  - intros ->. change 15%Q with (inject_Z 15). rewrite Qltb_inject_Z.
    reflexivity.
Qed.

(** X14. With the threshold 17 the fixed-threshold strategy is the mimic-
    dealer strategy, and a simulation of the one is, round for round, the
    simulation of the other on the same shuffles.  The keyword arguments
    repeat none of the names that the calls of a round bind themselves
    ([plain_keywords]). *)
Theorem fixed_threshold_17_is_mimic_dealer
  (strategy_args : gmap string pyval) (num_games : nat)
  (betting_strategy : BettingStrategy) (base_bet : Z)
  (reshuffle_each_hand : bool) (r : Random) :
  plain_keywords strategy_args ->
  strategy_args !! "threshold" = Some (PNum 17) ->
  (forall (h : Hand) upcard kw,
     strategy_fixed_threshold h upcard strategy_args
     = strategy_mimic_dealer h upcard kw)
  /\ run_simulation FixedThreshold num_games betting_strategy base_bet
       reshuffle_each_hand strategy_args r
     = run_simulation MimicDealer num_games betting_strategy base_bet
         reshuffle_each_hand ∅ r.
Proof.
  intros _.
  intros Ht.
  assert (Hsame : forall (h : Hand) upcard (kw kw' : gmap string pyval),
            kw !! "threshold" = Some (PNum 17) ->
            strategy_fixed_threshold h upcard kw
            = strategy_mimic_dealer h upcard kw').
  { intros h upcard kw kw' Hk.
    rewrite (proj1 (strategy_fixed_threshold_spec h upcard kw) 17 Hk).
    reflexivity. }
  split; [intros; apply Hsame, Ht|].
  unfold run_simulation. apply sim_rounds_same; try discriminate.
  intros count h upcard. rewrite strategy_args_without_count.
  assert (Hk : strategy_args_of strategy_args !! "threshold"
               = Some (PNum 17)).
  { unfold strategy_args_of. rewrite !lookup_delete_ne by discriminate.
    exact Ht. }
  cbn [strategy_of].
  repeat split; apply Hsame;
    rewrite ?lookup_insert_ne by discriminate; exact Hk.
Qed.

(** Twenty rounds with the threshold 17. *)
Lemma fixed_threshold_17_is_mimic_dealer_witness :
  plain_keywords {["threshold" := PNum 17]}
  /\ ({["threshold" := PNum 17]} : gmap string pyval) !! "threshold"
     = Some (PNum 17)
  /\ run_simulation FixedThreshold 20 Flat 10 true {["threshold" := PNum 17]}
       gen_count
     = run_simulation MimicDealer 20 Flat 10 true ∅ gen_count.
Proof.
  assert (K : plain_keywords {["threshold" := PNum 17]})
    by (repeat constructor).
  assert (H : ({["threshold" := PNum 17]} : gmap string pyval) !! "threshold"
              = Some (PNum 17)) by reflexivity.
  split; [exact K|]. split; [exact H|].
  apply (proj2 (fixed_threshold_17_is_mimic_dealer _ 20 Flat 10 true gen_count
                  K H)).
Defined.

(** ** The card counter without a count *)

(** X15. Called without the keyword [running_count], which is how the round
    engine calls it, the card counter never answers insurance: it stands on
    16 against a 10, hits 12 against a 3, and answers as the basic strategy
    everywhere else. *)
Theorem card_counter_without_count (h : Hand) (upcard : Card)
  (kw : gmap string pyval) :
  kw !! "running_count" = None ->
  strategy_card_counter h upcard kw <> Insurance
  /\ strategy_card_counter h upcard kw
     = if (get_value h =? 16) && bool_decide (rank upcard = R10) then Stand
       else if (get_value h =? 12) && bool_decide (rank upcard = R3) then Hit
       else strategy_basic h upcard kw.
Proof.
  intros Hnone.
  assert (Hz : (counter_true_count kw == 0)%Q).
  { unfold counter_true_count, counter_running_count, kw_num.
    rewrite Hnone. unfold Qdiv. apply Qmult_0_l. }
  assert (Hle : forall q : Q, Qle_bool q (counter_true_count kw) = Qle_bool q 0).
  { intros q. apply eq_true_iff_eq. rewrite !Qle_bool_iff, Hz. reflexivity. }
  assert (Hge : forall q : Q, Qle_bool (counter_true_count kw) q = Qle_bool 0 q).
  { intros q. apply eq_true_iff_eq. rewrite !Qle_bool_iff, Hz. reflexivity. }
  assert (Heq : strategy_card_counter h upcard kw
     = if (get_value h =? 16) && bool_decide (rank upcard = R10) then Stand
       else if (get_value h =? 12) && bool_decide (rank upcard = R3) then Hit
       else strategy_basic h upcard kw).
  { unfold strategy_card_counter. rewrite !Hle, !Hge, (delete_id _ _ Hnone).
    change (Qle_bool 3 0) with false. change (Qle_bool 0 0) with true.
    change (Qle_bool 4 0) with false. change (Qle_bool 0 (-1)) with false.
    rewrite !andb_false_r, !andb_true_r. reflexivity. }
  split; [|exact Heq]. rewrite Heq.
  destruct (_ && _); [discriminate|]. destruct (_ && _); [discriminate|].
  apply strategy_basic_offers.
Qed.

(** Sixteen against a 10, with no count passed. *)
Lemma card_counter_without_count_witness :
  (∅ : gmap string pyval) !! "running_count" = None
  /\ strategy_card_counter [sp R10; sp R6] (sp R10) ∅ = Stand.
Proof.
  assert (H : (∅ : gmap string pyval) !! "running_count" = None) by reflexivity.
  split; [exact H|].
  rewrite (proj2 (card_counter_without_count [sp R10; sp R6] (sp R10) ∅ H)).
  reflexivity.
Defined.

(** ** Bets *)

Lemma losing_streak_snoc l x :
  losing_streak (l ++ [x])
  = if bool_decide (x = Loss) then S (losing_streak l) else O.
Proof.
  unfold losing_streak. rewrite rev_unit. destruct x; reflexivity.
Qed.

(** A property of the variables of the driver that every pass of the
    loop keeps holds at the end of the run, which is always reached. *)
Lemma sim_rounds_invariant (I : Sim -> Prop) ps bs base_bet reshuffle
  strategy_args :
  (forall s s' e, I s ->
     sim_round ps bs base_bet reshuffle strategy_args s = Some (s', e) ->
     I s') ->
  forall num_games s, I s ->
    exists s', sim_rounds ps bs base_bet reshuffle strategy_args num_games s
               = Some s'
               /\ I s'.
Proof.
  intros Hstep. induction num_games as [|n IH]; intros s Hs; cbn [sim_rounds].
  - exists s. auto.
  - destruct (sim_round_spec ps bs base_bet reshuffle strategy_args s)
      as (s1 & e & r & Hr & _).
    rewrite Hr. apply IH, (Hstep _ _ _ Hs Hr).
Qed.

Lemma prepare_round_keeps ps bs base_bet reshuffle s :
  let prepared := prepare_round ps bs base_bet reshuffle s in
  game_results prepared.2 = game_results s
  /\ last_result prepared.2 = last_result s.
Proof.
  unfold prepare_round.
  destruct (bool_decide (ps = CardCounter)).
  - destruct (length (cards (sim_deck s)) =? 0)%nat; cbn; auto.
  - destruct (reshuffle || _), (bool_decide (bs = Martingale)); cbn; auto.
Qed.

(** What a pass of the loop stores. *)
Lemma sim_round_stores ps bs base_bet reshuffle strategy_args s s' e :
  sim_round ps bs base_bet reshuffle strategy_args s = Some (s', e) ->
  let prepared := prepare_round ps bs base_bet reshuffle s in
  exists r,
    game_results s' = game_results s ++ [r]
    /\ bet r = Some prepared.1
    /\ last_result s' = Some (result r)
    /\ current_bet s' = current_bet prepared.2.
Proof.
  pose proof (prepare_round_keeps ps bs base_bet reshuffle s) as [Hk _].
  unfold sim_round. cbv zeta in Hk.
  destruct (prepare_round ps bs base_bet reshuffle s) as [b s1].
  cbn [fst snd] in *.
  destruct (play_round _ _ _ _) as [[r env]|]; [|discriminate].
  intros H. injection H as <- <-. exists (with_bet r b). cbn. rewrite Hk.
  repeat (split; [reflexivity|]). reflexivity.
Qed.

Lemma prepare_round_martingale ps base_bet reshuffle s :
  ps <> CardCounter ->
  let prepared := prepare_round ps Martingale base_bet reshuffle s in
  prepared.1 = betting_martingale base_bet (last_result s) (current_bet s)
  /\ current_bet prepared.2 = prepared.1.
Proof.
  intros H. unfold prepare_round. rewrite (bool_decide_eq_false_2 _ H).
  destruct (reshuffle || _); cbn; auto.
Qed.

(** X16. Under the martingale system every recorded bet is the base bet
    doubled once for each round lost in a row just before it: the bet of
    round [i] is [base_bet * 2 ^ k] where [k] is the number of consecutive
    losses that end at round [i - 1].  The keyword arguments repeat none of
    the names that the calls of a round bind themselves ([plain_keywords]). *)
Theorem martingale_doubles_per_loss
  (playing_strategy : PlayingStrategy) (num_games : nat) (base_bet : Z)
  (reshuffle_each_hand : bool) (strategy_args : gmap string pyval)
  (r : Random) :
  plain_keywords strategy_args ->
  playing_strategy <> CardCounter ->
  exists s,
    run_simulation playing_strategy num_games Martingale base_bet
      reshuffle_each_hand strategy_args r = Some s
    /\ forall (i : nat) o, game_results s !! i = Some o ->
         bet o
         = Some (base_bet
                 * 2 ^ Z.of_nat
                         (losing_streak (map result (take i (game_results s))))).
Proof.
  intros _.
  intros Hps. unfold run_simulation.
  set (I := fun s : Sim =>
    betting_martingale base_bet (last_result s) (current_bet s)
    = base_bet * 2 ^ Z.of_nat (losing_streak (map result (game_results s)))
    /\ forall (i : nat) o, game_results s !! i = Some o ->
         bet o
         = Some (base_bet
                 * 2 ^ Z.of_nat
                         (losing_streak (map result (take i (game_results s)))))).
  destruct (sim_rounds_invariant I playing_strategy Martingale base_bet
              reshuffle_each_hand strategy_args) with
    (num_games := num_games)
    (s := mkSim (shuffle (new_deck 6 r)) 0 None base_bet [])
    as (s' & Hrun & _ & Hbets).
  - intros s s' e [Hnext Hrec] Hround.
    destruct (sim_round_stores _ _ _ _ _ _ _ _ Hround)
      as (o & Hres & Hbet & Hlast & Hcur).
    destruct (prepare_round_martingale playing_strategy base_bet
                reshuffle_each_hand s Hps) as [Hb Hc].
    cbv zeta in Hbet, Hcur. rewrite Hc, Hb, Hnext in Hcur.
    rewrite Hb, Hnext in Hbet. split.
    + rewrite Hlast, Hcur, Hres, map_app. cbn [map].
      rewrite losing_streak_snoc. unfold betting_martingale.
      destruct (result o);
        rewrite ?bool_decide_eq_true_2 by reflexivity;
        rewrite ?bool_decide_eq_false_2 by discriminate;
        rewrite ?Nat2Z.inj_succ, ?Z.pow_succ_r by lia;
        cbn [Z.of_nat]; rewrite ?Z.pow_0_r; lia.
    + intros i o' Hi. rewrite Hres in Hi |- *.
      destruct (decide (i < length (game_results s))%nat) as [Hlt|Hge].
      * rewrite lookup_app_l in Hi by exact Hlt.
        rewrite take_app_le by lia. apply Hrec, Hi.
      * apply lookup_lt_Some in Hi as Hlen. rewrite length_app in Hlen.
        cbn in Hlen.
        assert (i = length (game_results s)) as -> by lia.
        rewrite lookup_app_r, Nat.sub_diag in Hi by lia.
        injection Hi as <-.
        rewrite take_app_length. exact Hbet.
  - split; [|intros i o Hi; discriminate Hi].
    cbn [last_result current_bet game_results map]. unfold betting_martingale.
    rewrite bool_decide_eq_false_2 by discriminate.
    change (losing_streak []) with O. cbn [Z.of_nat]. rewrite Z.pow_0_r. lia.
  - exists s'. auto.
Qed.

(** The basic strategy under the martingale system, thirty rounds. *)
Lemma martingale_doubles_per_loss_witness :
  plain_keywords ∅ /\
  Basic <> CardCounter
  /\ exists s,
       run_simulation Basic 30 Martingale 10 true ∅ gen_count = Some s
       /\ forall (i : nat) o, game_results s !! i = Some o ->
            bet o
            = Some (10 * 2 ^ Z.of_nat
                              (losing_streak
                                 (map result (take i (game_results s))))).
Proof.
  assert (K : plain_keywords ∅) by apply plain_keywords_empty.
  split; [exact K|].
  assert (H : Basic <> CardCounter) by discriminate.
  split; [exact H|].
  exact (martingale_doubles_per_loss Basic 30 10 true ∅ gen_count K H).
Defined.

Lemma bet_spread_values true_count :
  bet_spread true_count ∈ [10; 25; 50; 100].
Proof.
  unfold bet_spread.
  repeat (match goal with |- context [if ?b then _ else _] => destruct b end);
    set_solver.
Qed.

Lemma prepare_round_counter bs bs' base_bet base_bet' reshuffle reshuffle' s s' :
  without_bet s = without_bet s' ->
  let prepared := prepare_round CardCounter bs base_bet reshuffle s in
  let prepared' := prepare_round CardCounter bs' base_bet' reshuffle' s' in
  prepared.1 = prepared'.1
  /\ without_bet prepared.2 = without_bet prepared'.2
  /\ prepared.1 ∈ [10; 25; 50; 100].
Proof.
  unfold without_bet. intros H. injection H as Hd Hc Hl Hg.
  unfold prepare_round. cbn [bool_decide decide_rel]. rewrite <- Hd, <- Hc, <- Hl, <- Hg.
  rewrite bool_decide_eq_true_2 by reflexivity.
  destruct (length (cards (sim_deck s)) =? 0)%nat; cbn;
    (split; [reflexivity|]); (split; [reflexivity|]); apply bet_spread_values.
Qed.

Lemma sim_round_counter bs bs' base_bet base_bet' reshuffle reshuffle'
  strategy_args s s' :
  without_bet s = without_bet s' ->
  exists t t' e,
    sim_round CardCounter bs base_bet reshuffle strategy_args s = Some (t, e)
    /\ sim_round CardCounter bs' base_bet' reshuffle' strategy_args s'
       = Some (t', e)
    /\ without_bet t = without_bet t'
    /\ exists o, game_results t = game_results s ++ [o]
                 /\ exists b, bet o = Some b /\ b ∈ [10; 25; 50; 100].
Proof.
  intros H.
  destruct (sim_round_spec CardCounter bs base_bet reshuffle strategy_args s)
    as (t & e & _ & Hr & _).
  destruct (prepare_round_counter bs bs' base_bet base_bet' reshuffle
              reshuffle' s s' H) as (Hb & Hw & Hin).
  destruct (sim_round_stores _ _ _ _ _ _ _ _ Hr) as (o & Hres & Hbet & _).
  exists t. revert Hr Hres Hbet. unfold sim_round. cbv zeta in Hb, Hw, Hin |- *.
  destruct (prepare_round CardCounter bs base_bet reshuffle s) as [b s1].
  destruct (prepare_round CardCounter bs' base_bet' reshuffle' s') as [b' s1'].
  cbn [fst snd] in *. subst b'. unfold without_bet in Hw.
  injection Hw as Hd Hc Hl Hg. rewrite <- Hd, <- Hc, <- Hg.
  destruct (play_round _ _ _ _) as [[r env]|]; [|discriminate].
  intros Hr Hres Hbet. injection Hr as <- <-.
  eexists _, env. split; [reflexivity|]. split; [reflexivity|].
  split; [reflexivity|]. exists o. split; [exact Hres|].
  exists b. auto.
Qed.

(** X17. For the card counter the arguments [betting_strategy], [base_bet]
    and [reshuffle_each_hand] have no effect: two runs that differ in them
    only give the same records, leave the same shoe and the same count, and
    every bet is 10, 25, 50 or 100.  The keyword arguments repeat none of
    the names that the calls of a round bind themselves ([plain_keywords]). *)
Theorem card_counter_ignores_betting_arguments
  (num_games : nat) (betting_strategy betting_strategy' : BettingStrategy)
  (base_bet base_bet' : Z) (reshuffle_each_hand reshuffle_each_hand' : bool)
  (strategy_args : gmap string pyval) (r : Random) :
  plain_keywords strategy_args ->
  exists s s',
    run_simulation CardCounter num_games betting_strategy base_bet
      reshuffle_each_hand strategy_args r = Some s
    /\ run_simulation CardCounter num_games betting_strategy' base_bet'
         reshuffle_each_hand' strategy_args r = Some s'
    /\ game_results s = game_results s'
    /\ sim_deck s = sim_deck s'
    /\ running_count s = running_count s'
    /\ Forall (fun o => exists b, bet o = Some b /\ b ∈ [10; 25; 50; 100])
         (game_results s).
Proof.
  intros _.
  unfold run_simulation.
  assert (Hgen : forall n s s',
            without_bet s = without_bet s' ->
            Forall (fun o => exists b, bet o = Some b /\ b ∈ [10; 25; 50; 100])
              (game_results s) ->
            exists t t',
              sim_rounds CardCounter betting_strategy base_bet
                reshuffle_each_hand strategy_args n s = Some t
              /\ sim_rounds CardCounter betting_strategy' base_bet'
                   reshuffle_each_hand' strategy_args n s' = Some t'
              /\ without_bet t = without_bet t'
              /\ Forall (fun o => exists b, bet o = Some b
                                            /\ b ∈ [10; 25; 50; 100])
                   (game_results t)).
  { induction n as [|n IH]; intros s s' Hw Hall; cbn [sim_rounds].
    - exists s, s'. auto.
    - destruct (sim_round_counter betting_strategy betting_strategy'
                  base_bet base_bet' reshuffle_each_hand reshuffle_each_hand'
                  strategy_args s s' Hw)
        as (t & t' & e & -> & -> & Hw' & o & Hres & Ho).
      apply IH; [exact Hw'|]. rewrite Hres.
      apply Forall_app. split; [exact Hall|]. constructor; [exact Ho|constructor]. }
  destruct (Hgen num_games
              (mkSim (shuffle (new_deck 6 r)) 0 None base_bet [])
              (mkSim (shuffle (new_deck 6 r)) 0 None base_bet' []))
    as (t & t' & Ht & Ht' & Hw & Hall).
  { unfold without_bet.
    cbn [sim_deck running_count last_result game_results]. reflexivity. }
  { constructor. }
  exists t, t'. unfold without_bet in Hw. injection Hw as Hd Hc _ Hg. auto 10.
Qed.

(** Thirty rounds of the card counter, once with flat bets of 10 and
    once under the martingale system with a base bet of 3. *)
Lemma card_counter_ignores_betting_arguments_witness :
  plain_keywords ∅
  /\ exists s s',
       run_simulation CardCounter 30 Flat 10 false ∅ gen_count = Some s
       /\ run_simulation CardCounter 30 Martingale 3 true ∅ gen_count = Some s'
       /\ game_results s = game_results s'.
Proof.
  assert (K : plain_keywords ∅) by apply plain_keywords_empty.
  split; [exact K|].
  destruct (card_counter_ignores_betting_arguments 30 Flat Martingale 10 3
              false true ∅ gen_count K) as (s & s' & H1 & H2 & H3 & _).
  exists s, s'. auto.
Defined.

(** ** Statistics *)

Lemma count_results_partition (l : list Outcome) :
  (count_results Win l + count_results Loss l + count_results Push l
   = length l)%nat.
Proof.
  unfold count_results. induction l as [|o l IH]; [reflexivity|].
  rewrite !filter_cons.
  destruct (result o) eqn:E;
    repeat (match goal with
            | |- context [decide ?P] => destruct (decide P); try congruence
            end);
    cbn [length]; lia.
Qed.

Lemma fold_left_add (l : list Z) : forall a,
  fold_left Z.add l a = a + sum_Z l.
Proof.
  unfold sum_Z. induction l as [|x l IH]; intros a; cbn [fold_left]; [lia|].
  rewrite (IH (a + x)), (IH (0 + x)). lia.
Qed.

Lemma sum_Z_cons x l : sum_Z (x :: l) = x + sum_Z l.
Proof. unfold sum_Z at 1. cbn [fold_left]. rewrite fold_left_add. lia. Qed.

Lemma fold_left_max (l : list Z) : forall a,
  a <= fold_left Z.max l a
  /\ Forall (fun x => x <= fold_left Z.max l a) l
  /\ (fold_left Z.max l a = a \/ fold_left Z.max l a ∈ l).
Proof.
  induction l as [|x l IH]; intros a; cbn [fold_left].
  - split; [lia|]. split; [constructor | auto].
  - destruct (IH (Z.max a x)) as (H1 & H2 & H3).
    split; [lia|]. split; [constructor; [lia | exact H2]|].
    destruct H3 as [H3 | H3]; [|right; apply list_elem_of_further, H3].
    rewrite H3. destruct (Z.max_spec a x) as [[_ ->] | [_ ->]];
      [right; apply list_elem_of_here | auto].
Qed.

Lemma fold_left_min (l : list Z) : forall a,
  fold_left Z.min l a <= a
  /\ Forall (fun x => fold_left Z.min l a <= x) l
  /\ (fold_left Z.min l a = a \/ fold_left Z.min l a ∈ l).
Proof.
  induction l as [|x l IH]; intros a; cbn [fold_left].
  - split; [lia|]. split; [constructor | auto].
  - destruct (IH (Z.min a x)) as (H1 & H2 & H3).
    split; [lia|]. split; [constructor; [lia | exact H2]|].
    destruct H3 as [H3 | H3]; [|right; apply list_elem_of_further, H3].
    rewrite H3. destruct (Z.min_spec a x) as [[_ ->] | [_ ->]];
      [auto | right; apply list_elem_of_here].
Qed.

Lemma max_of_spec l m :
  max_of l = Some m -> m ∈ l /\ Forall (fun x => x <= m) l.
Proof.
  destruct l as [|x l]; [discriminate|]. intros H. injection H as <-.
  destruct (fold_left_max l x) as (H1 & H2 & H3).
  split; [|constructor; assumption].
  destruct H3 as [-> | H3];
    [apply list_elem_of_here | apply list_elem_of_further, H3].
Qed.

Lemma min_of_spec l m :
  min_of l = Some m -> m ∈ l /\ Forall (fun x => m <= x) l.
Proof.
  destruct l as [|x l]; [discriminate|]. intros H. injection H as <-.
  destruct (fold_left_min l x) as (H1 & H2 & H3).
  split; [|constructor; assumption].
  destruct H3 as [-> | H3];
    [apply list_elem_of_here | apply list_elem_of_further, H3].
Qed.

Lemma sum_Z_between (l : list Z) lo hi :
  Forall (fun x => lo <= x <= hi) l ->
  Z.of_nat (length l) * lo <= sum_Z l <= Z.of_nat (length l) * hi.
Proof.
  induction 1 as [|x l Hx _ IH]; [cbn; lia|].
  rewrite sum_Z_cons. cbn [length]. lia.
Qed.

Lemma bets_spec (l : list Outcome) :
  Forall (fun o => is_Some (bet o)) l ->
  exists bs, bets l = Some bs /\ Forall2 (fun o b => bet o = Some b) l bs.
Proof.
  induction 1 as [|o l [b Hb] _ (bs & IH & Hall)].
  - exists []. split; [reflexivity | constructor].
  - exists (b :: bs). cbn [bets]. rewrite Hb, IH.
    split; [reflexivity | constructor; assumption].
Qed.

(** The loop stores one record per round, each with its bet. *)
Lemma run_simulation_records ps num_games bs base_bet reshuffle strategy_args r :
  exists s,
    run_simulation ps num_games bs base_bet reshuffle strategy_args r = Some s
    /\ length (game_results s) = num_games
    /\ Forall (fun o => is_Some (bet o)) (game_results s).
Proof.
  unfold run_simulation.
  assert (Hgen : forall n s,
            Forall (fun o => is_Some (bet o)) (game_results s) ->
            exists s',
              sim_rounds ps bs base_bet reshuffle strategy_args n s = Some s'
              /\ length (game_results s') = (length (game_results s) + n)%nat
              /\ Forall (fun o => is_Some (bet o)) (game_results s')).
  { induction n as [|n IH]; intros s Hall; cbn [sim_rounds].
    - exists s. split; [reflexivity|]. split; [lia | exact Hall].
    - destruct (sim_round_spec ps bs base_bet reshuffle strategy_args s)
        as (s1 & e & _ & Hr & _).
      rewrite Hr.
      destruct (sim_round_stores _ _ _ _ _ _ _ _ Hr) as (o & Hres & Hbet & _).
      destruct (IH s1) as (s' & Hrun & Hlen & Hall').
      { rewrite Hres. apply Forall_app. split; [exact Hall|].
        constructor; [eauto | constructor]. }
      exists s'. split; [exact Hrun|]. split; [|exact Hall'].
      rewrite Hlen, Hres, length_app. cbn [length]. lia. }
  destruct (Hgen num_games (mkSim (shuffle (new_deck 6 r)) 0 None base_bet []))
    as (s' & Hrun & Hlen & Hall); [constructor|].
  exists s'. auto.
Qed.

Lemma aggregate_spec (l : list Outcome) (n : nat) :
  Forall (fun o => is_Some (bet o)) l -> l <> [] -> n <> O ->
  exists stats bs,
    aggregate l n = inr stats
    /\ bets l = Some bs
    /\ Forall2 (fun o b => bet o = Some b) l bs
    /\ stats_num_games stats = n
    /\ total_profit stats = sum_profit l
    /\ total_bet stats = sum_Z bs
    /\ max_of bs = Some (max_bet stats)
    /\ min_of bs = Some (min_bet stats).
Proof.
  intros Hall Hne Hn. destruct (bets_spec l Hall) as (bs & Hbs & H2).
  unfold aggregate. rewrite Hbs.
  destruct (n =? 0)%nat eqn:E; [apply Nat.eqb_eq in E; contradiction|].
  destruct bs as [|b bs].
  { apply Forall2_nil_inv_r in H2. contradiction. }
  cbn [max_of min_of]. eexists _, _. split; [reflexivity|]. cbn. auto 10.
Qed.

Lemma run_simulation_stats_returns ps num_games bs base_bet reshuffle
  strategy_args r :
  (0 < num_games)%nat ->
  exists s stats bets_made,
    run_simulation ps num_games bs base_bet reshuffle strategy_args r = Some s
    /\ run_simulation_stats ps num_games bs base_bet reshuffle strategy_args r
       = Some (inr (game_results s, stats))
    /\ length (game_results s) = num_games
    /\ Forall2 (fun o b => bet o = Some b) (game_results s) bets_made
    /\ stats_num_games stats = num_games
    /\ total_profit stats = sum_profit (game_results s)
    /\ total_bet stats = sum_Z bets_made
    /\ max_of bets_made = Some (max_bet stats)
    /\ min_of bets_made = Some (min_bet stats).
Proof.
  intros Hn.
  destruct (run_simulation_records ps num_games bs base_bet reshuffle
              strategy_args r) as (s & Hrun & Hlen & Hall).
  destruct (aggregate_spec (game_results s) num_games Hall)
    as (stats & made & Hagg & _ & H2 & Hrest).
  { intros E. rewrite E in Hlen. cbn in Hlen. lia. }
  { lia. }
  exists s, stats, made. unfold run_simulation_stats. rewrite Hrun, Hagg.
  auto 10.
Qed.

(** X18. A run of at least one round returns its records and statistics: one
    record per round; wins, losses and pushes add up to the number of
    rounds; the smallest and the largest bet are bets of some round and
    bound every bet, and the total of the bets lies between the number of
    rounds times the one and times the other.  The keyword arguments repeat
    none of the names that the calls of a round bind themselves
    ([plain_keywords]) and the bets are in the range in which every profit
    and every sum of profits is exact as a double ([exact_sums]). *)
Theorem run_simulation_statistics
  (playing_strategy : PlayingStrategy) (num_games : nat)
  (betting_strategy : BettingStrategy) (base_bet : Z)
  (reshuffle_each_hand : bool) (strategy_args : gmap string pyval)
  (r : Random) :
  plain_keywords strategy_args ->
  exact_sums playing_strategy betting_strategy base_bet num_games ->
  (0 < num_games)%nat ->
  exists game_results stats,
    run_simulation_stats playing_strategy num_games betting_strategy base_bet
      reshuffle_each_hand strategy_args r = Some (inr (game_results, stats))
    /\ length game_results = num_games
    /\ stats_num_games stats = num_games
    /\ (count_results Win game_results + count_results Loss game_results
        + count_results Push game_results = num_games)%nat
    /\ Forall (fun o => exists b, bet o = Some b
                                  /\ min_bet stats <= b <= max_bet stats)
         game_results
    /\ Exists (fun o => bet o = Some (min_bet stats)) game_results
    /\ Exists (fun o => bet o = Some (max_bet stats)) game_results
    /\ Z.of_nat num_games * min_bet stats <= total_bet stats
       <= Z.of_nat num_games * max_bet stats.
Proof.
  intros _ _.
  intros Hn.
  destruct (run_simulation_stats_returns playing_strategy num_games
              betting_strategy base_bet reshuffle_each_hand strategy_args r Hn)
    as (s & stats & bs & _ & Hrun & Hlen & H2 & Hng & _ & Htot & Hmax & Hmin).
  exists (game_results s), stats.
  split; [exact Hrun|]. split; [exact Hlen|].
  split; [exact Hng|]. split; [rewrite count_results_partition; exact Hlen|].
  apply max_of_spec in Hmax as [Hmax_in Hmax_all].
  apply min_of_spec in Hmin as [Hmin_in Hmin_all].
  assert (Hboth : Forall (fun x => min_bet stats <= x <= max_bet stats) bs).
  { apply Forall_forall. intros x Hx.
    rewrite Forall_forall in Hmax_all, Hmin_all.
    split; [apply Hmin_all | apply Hmax_all]; exact Hx. }
  split.
  { clear -H2 Hboth. induction H2 as [|o b l bs' Hb _ IH]; [constructor|].
    apply Forall_cons in Hboth as [Hx Hrest].
    constructor; [exists b; auto | apply IH, Hrest]. }
  split.
  { clear -H2 Hmin_in. induction H2 as [|o b l bs' Hb _ IH]; [set_solver|].
    apply elem_of_cons in Hmin_in as [-> | Hin];
      [apply Exists_cons_hd; exact Hb | apply Exists_cons_tl, IH, Hin]. }
  split.
  { clear -H2 Hmax_in. induction H2 as [|o b l bs' Hb _ IH]; [set_solver|].
    apply elem_of_cons in Hmax_in as [-> | Hin];
      [apply Exists_cons_hd; exact Hb | apply Exists_cons_tl, IH, Hin]. }
  rewrite Htot, <- Hlen, (Forall2_length _ _ _ H2).
  apply sum_Z_between, Hboth.
Qed.

(** Twenty rounds of the basic strategy under the martingale system. *)
Lemma run_simulation_statistics_witness :
  plain_keywords ∅ /\ exact_sums Basic Martingale 10 20 /\
  (0 < 20)%nat
  /\ exists game_results stats,
       run_simulation_stats Basic 20 Martingale 10 true ∅ gen_count
       = Some (inr (game_results, stats))
       /\ length game_results = 20%nat.
Proof.
  assert (K : plain_keywords ∅) by apply plain_keywords_empty.
  split; [exact K|].
  assert (B : exact_sums Basic Martingale 10 20) by (vm_compute; reflexivity).
  split; [exact B|].
  assert (H : (0 < 20)%nat) by lia.
  split; [exact H|].
  destruct (run_simulation_statistics Basic 20 Martingale 10 true ∅ gen_count
              K B H)
    as (game_results & stats & Hrun & Hlen & _).
  exists game_results, stats. split; assumption.
Defined.



(** ** Profit against the bets *)

Lemma prepare_round_nonneg ps bs base_bet reshuffle s :
  0 <= base_bet -> 0 <= current_bet s ->
  let prepared := prepare_round ps bs base_bet reshuffle s in
  0 <= prepared.1 /\ 0 <= current_bet prepared.2.
Proof.
  intros Hb Hc. unfold prepare_round.
  destruct (bool_decide (ps = CardCounter)).
  - assert (H : forall tc, 0 <= bet_spread tc).
    { intros tc. pose proof (bet_spread_values tc) as H.
      repeat (apply elem_of_cons in H as [-> | H]; [lia|]).
      inversion H. }
    destruct (length (cards (sim_deck s)) =? 0)%nat; cbn; auto.
  - unfold betting_martingale, betting_flat.
    destruct (reshuffle || _), (bool_decide (bs = Martingale)),
      (bool_decide (last_result s = Some Loss)); cbn; split; lia.
Qed.

Lemma sim_round_profit ps bs base_bet reshuffle strategy_args s s' e :
  sim_round ps bs base_bet reshuffle strategy_args s = Some (s', e) ->
  let prepared := prepare_round ps bs base_bet reshuffle s in
  0 <= prepared.1 ->
  exists o,
    game_results s' = game_results s ++ [o]
    /\ bet o = Some prepared.1
    /\ (inject_Z (-4 * prepared.1) <= profit o <= inject_Z (4 * prepared.1))%Q
    /\ current_bet s' = current_bet prepared.2.
Proof.
  pose proof (prepare_round_keeps ps bs base_bet reshuffle s) as [Hk _].
  unfold sim_round. cbv zeta in Hk |- *.
  destruct (prepare_round ps bs base_bet reshuffle s) as [b s1].
  cbn [fst snd] in *. intros Hround Hb.
  destruct (initial_deal_total (sim_deck s1)) as (p1 & d1 & p2 & d2 & deck' & H).
  destruct (play_round_profit (sim_deck s1) (strategy_of ps) b
              (round_args strategy_args (running_count s1)) _ _ _ _ _ H Hb)
    as (r & env & Hr & Hbound & _).
  rewrite Hr in Hround. injection Hround as <- <-.
  exists (with_bet r b). cbn. rewrite Hk. auto.
Qed.

Lemma sum_profit_between (l : list Outcome) (bs : list Z) :
  Forall2 (fun o b =>
             bet o = Some b /\ 0 <= b
             /\ (inject_Z (-4 * b) <= profit o <= inject_Z (4 * b))%Q) l bs ->
  forall (a : Q) (B : Z),
    (inject_Z (-4 * B) <= a <= inject_Z (4 * B))%Q ->
    0 <= sum_Z bs
    /\ (inject_Z (-4 * (B + sum_Z bs))
        <= fold_left (fun acc r => acc + profit r) l a
        <= inject_Z (4 * (B + sum_Z bs)))%Q.
Proof.
  induction 1 as [|o b l bs (Hb & Hpos & Hlo & Hhi) _ IH]; intros a B [Ha1 Ha2].
  - change (sum_Z []) with 0. rewrite Z.add_0_r. cbn [fold_left].
    split; [lia | split; assumption].
  - rewrite sum_Z_cons. cbn [fold_left].
    destruct (IH (a + profit o)%Q (B + b)) as (Hs & H1 & H2).
    { replace (-4 * (B + b)) with (-4 * B + -4 * b) by lia.
      replace (4 * (B + b)) with (4 * B + 4 * b) by lia.
      rewrite !inject_Z_plus.
      split; apply Qplus_le_compat; assumption. }
    split; [lia|]. rewrite Z.add_assoc. split; assumption.
Qed.

(** X20. In a run with a base bet that is not negative no bet is negative,
    and the total profit lies within four times the total of the bets: no
    round wins or loses more than a doubled bet on each of two split hands.
    The keyword arguments repeat none of the names that the calls of a round
    bind themselves ([plain_keywords]) and the bets are in the range in
    which every profit and every sum of profits is exact as a double
    ([exact_sums]). *)
Theorem total_profit_within_four_times_total_bet
  (playing_strategy : PlayingStrategy) (num_games : nat)
  (betting_strategy : BettingStrategy) (base_bet : Z)
  (reshuffle_each_hand : bool) (strategy_args : gmap string pyval)
  (r : Random) :
  plain_keywords strategy_args ->
  exact_sums playing_strategy betting_strategy base_bet num_games ->
  (0 < num_games)%nat -> 0 <= base_bet ->
  exists game_results stats,
    run_simulation_stats playing_strategy num_games betting_strategy base_bet
      reshuffle_each_hand strategy_args r = Some (inr (game_results, stats))
    /\ 0 <= min_bet stats
    /\ 0 <= total_bet stats
    /\ (inject_Z (-4 * total_bet stats) <= total_profit stats
        <= inject_Z (4 * total_bet stats))%Q.
Proof.
  intros _ _.
  intros Hn Hbase.
  destruct (run_simulation_stats_returns playing_strategy num_games
              betting_strategy base_bet reshuffle_each_hand strategy_args r Hn)
    as (s & stats & made & Hrun & Hstats & _ & H2 & _ & Hprofit & Htot & _ & Hmin).
  set (Good := fun o : Outcome =>
         exists b, bet o = Some b /\ 0 <= b
                   /\ (inject_Z (-4 * b) <= profit o <= inject_Z (4 * b))%Q).
  destruct (sim_rounds_invariant
              (fun s => 0 <= current_bet s /\ Forall Good (game_results s))
              playing_strategy betting_strategy base_bet reshuffle_each_hand
              strategy_args) with
    (num_games := num_games)
    (s := mkSim (shuffle (new_deck 6 r)) 0 None base_bet [])
    as (s' & Hrun' & _ & Hgood).
  { intros s0 s1 e [Hcur Hall] Hround.
    destruct (prepare_round_nonneg playing_strategy betting_strategy base_bet
                reshuffle_each_hand s0 Hbase Hcur) as [Hb Hc].
    destruct (sim_round_profit _ _ _ _ _ _ _ _ Hround Hb)
      as (o & Hres & Hbet & Hbound & Hcur').
    cbv zeta in Hc. split; [rewrite Hcur'; exact Hc|].
    rewrite Hres. apply Forall_app. split; [exact Hall|].
    constructor; [|constructor]. eexists. eauto. }
  { split; [exact Hbase | constructor]. }
  unfold run_simulation in Hrun. rewrite Hrun in Hrun'. injection Hrun' as <-.
  assert (H2' : Forall2 (fun o b =>
                  bet o = Some b /\ 0 <= b
                  /\ (inject_Z (-4 * b) <= profit o <= inject_Z (4 * b))%Q)
                  (game_results s) made).
  { clear -H2 Hgood. induction H2 as [|o b l bs Hb _ IH]; [constructor|].
    apply Forall_cons in Hgood as [(b' & Hb' & Hpos & Hbound) Hrest].
    rewrite Hb in Hb'. injection Hb' as <-.
    constructor; [auto | apply IH, Hrest]. }
  destruct (sum_profit_between _ _ H2' 0%Q 0) as (Hs & H1 & H3).
  { split; apply Qle_refl. }
  exists (game_results s), stats. split; [exact Hstats|].
  apply min_of_spec in Hmin as [Hin _].
  split.
  { clear -H2' Hin. induction H2' as [|o b l bs (_ & Hpos & _) _ IH];
      [inversion Hin|].
    apply elem_of_cons in Hin as [-> | Hin]; [exact Hpos | apply IH, Hin]. }
  rewrite Htot, Hprofit. split; [exact Hs|]. unfold sum_profit.
  rewrite Z.add_0_l in H1, H3. split; assumption.
Qed.

(** Twenty rounds of the basic strategy under the martingale system. *)
Lemma total_profit_within_four_times_total_bet_witness :
  plain_keywords ∅ /\ exact_sums Basic Martingale 10 20 /\
  (0 < 20)%nat /\ 0 <= 10
  /\ exists game_results stats,
       run_simulation_stats Basic 20 Martingale 10 true ∅ gen_count
       = Some (inr (game_results, stats))
       /\ (inject_Z (-4 * total_bet stats) <= total_profit stats
           <= inject_Z (4 * total_bet stats))%Q.
Proof.
  assert (K : plain_keywords ∅) by apply plain_keywords_empty.
  split; [exact K|].
  assert (B : exact_sums Basic Martingale 10 20) by (vm_compute; reflexivity).
  split; [exact B|].
  assert (H : (0 < 20)%nat) by lia.
  assert (Hb : 0 <= 10) by lia.
  split; [exact H|]. split; [exact Hb|].
  destruct (total_profit_within_four_times_total_bet Basic 20 Martingale 10
              true ∅ gen_count K B H Hb)
    as (game_results & stats & Hrun & _ & _ & Hbound).
  exists game_results, stats. split; assumption.
Defined.

(** ** The player's side of the record *)

(** What [play_single_hand] returns, with the state of the [hand]
    object it was called on. *)
Lemma play_single_hand_returns
  (strategy_func : Strategy) (strategy_args : gmap string pyval)
  (dealer_up : Card) (dealer_rest : list Card)
  (hand : Hand) (bet : Z) (allow_double allow_split : bool) (e : RoundEnv)
  res prof hand' e' :
  play_single_hand strategy_func strategy_args dealer_up dealer_rest
    hand bet allow_double allow_split e = Some ((res, prof, hand'), e') ->
  if splits strategy_func strategy_args dealer_up hand allow_split
  then hand' = hand
       /\ exists c0 c1 x1 x2 hits1 hits2,
            hand = [c0; c1]
            /\ res = hand_str ([c0; x1] ++ hits1) +:+ "|"
                     +:+ hand_str ([c1; x2] ++ hits2)
  else exists hits, hand' = hand ++ hits /\ res = hand_str (hand ++ hits).
Proof.
  destruct (splits strategy_func strategy_args dealer_up hand allow_split) eqn:Es.
  - destruct hand as [|c0 [|c1 [|c2 hand]]]; try discriminate Es.
    unfold play_single_hand. rewrite Es.
    destruct (deal_card_spec e) as (x1 & e1 & Hd1 & _). mstep Hd1.
    destruct (deal_card_spec e1) as (x2 & e2 & Hd2 & _). mstep Hd2.
    destruct (see_spec [x1; x2] e2) as (e3 & Hsee & _). mstep Hsee.
    destruct (play_unsplit_spec strategy_func strategy_args dealer_up dealer_rest
                [c0; x1] bet true e3)
      as (hits1 & new1 & runs1 & prof1 & e4 & Hp1 & _).
    destruct (play_unsplit_spec strategy_func strategy_args dealer_up dealer_rest
                [c1; x2] bet true e4)
      as (hits2 & new2 & runs2 & prof2 & e5 & Hp2 & _).
    cbn zeta.
    change (add_card (add_card [] c0) x1) with [c0; x1].
    change (add_card (add_card [] c1) x2) with [c1; x2].
    mstep Hp1. mstep Hp2. intros H. injection H as <- <- <- <-.
    split; [reflexivity|]. exists c0, c1, x1, x2, hits1, hits2. auto.
  - assert (Hu : play_single_hand strategy_func strategy_args dealer_up
                   dealer_rest hand bet allow_double allow_split e
                 = play_unsplit strategy_func strategy_args dealer_up
                     dealer_rest hand bet allow_double e).
    { unfold play_single_hand.
      destruct hand as [|c0 [|c1 [|c2 hand]]]; try reflexivity.
      rewrite Es. reflexivity. }
    rewrite Hu.
    destruct (play_unsplit_spec strategy_func strategy_args dealer_up dealer_rest
                hand bet allow_double e)
      as (hits & new & runs & prof0 & e0 & Hp & _).
    rewrite Hp. intros H. injection H as <- <- <- <-. exists hits. auto.
Qed.

(** X21. The player's side of the record. When the hand is not split the
    record shows the hand as it stands at the end, with the cards drawn, and
    its value. When the hand is split the record shows the two hands that
    were played, but [player_final_value] is the value of the pair that was
    dealt: the two hands are new objects and the value is read from the
    object dealt to.  The keyword arguments repeat none of the names that
    the calls of a round bind themselves ([plain_keywords]). *)
Theorem record_of_split_keeps_value_of_pair
  (deck : Deck) (strategy_func : Strategy) (betting_amount : Z)
  (kw : gmap string pyval) (p1 d1 p2 d2 : Card) (deck' : Deck) :
  plain_keywords kw ->
  initial_deal deck = (p1, d1, p2, d2, deck') ->
  exists r e,
    play_round deck strategy_func betting_amount kw = Some (r, e)
    /\ if is_blackjack [p1; p2] || is_blackjack [d1; d2]
       then player_hand r = hand_str [p1; p2]
            /\ player_final_value r = get_value [p1; p2]
       else if splits strategy_func (strategy_args_of kw) d1 [p1; p2] true
       then player_final_value r = get_value [p1; p2]
            /\ exists x1 x2 hits1 hits2,
                 player_hand r = hand_str ([p1; x1] ++ hits1) +:+ "|"
                                 +:+ hand_str ([p2; x2] ++ hits2)
       else exists hits,
              player_hand r = hand_str ([p1; p2] ++ hits)
              /\ player_final_value r = get_value ([p1; p2] ++ hits).
Proof.
  intros _.
  intros H.
  destruct (play_round_outcome deck strategy_func betting_amount kw _ _ _ _ _ H)
    as (r & e & Hr & _ & _ & _ & B).
  exists r, e. split; [exact Hr|]. cbn zeta in B.
  revert Hr B. open_round H. intros Hr B.
  destruct (is_blackjack [p1; p2]) eqn:Ep, (is_blackjack [d1; d2]) eqn:Ed;
    cbn [orb andb] in *.
  1-3: injection Hr as <-; cbn; auto.
  destruct B as (res & prof & hand' & Hs & -> & _ & -> & _).
  apply play_single_hand_returns in Hs.
  destruct (splits strategy_func (strategy_args_of kw) d1 [p1; p2] true).
  - destruct Hs as (-> & c0 & c1 & x1 & x2 & hits1 & hits2 & Hc & ->).
    injection Hc as <- <-. split; [reflexivity|]. eauto.
  - destruct Hs as (hits & -> & ->). eauto.
Qed.

(** 8-8 against 10-6 under the basic strategy: the hands end as 8-10
    and 8-K, the record gives the value 16. *)
Lemma record_of_split_keeps_value_of_pair_witness :
  plain_keywords ∅ /\
  initial_deal shoe_eights
  = (sp R8, sp R10, sp R8, sp R6, (deal (deal (deal (deal shoe_eights).2).2).2).2)
  /\ exists r e,
       play_round shoe_eights strategy_basic 10 ∅ = Some (r, e)
       /\ player_final_value r = 16.
Proof.
  assert (K : plain_keywords ∅) by apply plain_keywords_empty.
  split; [exact K|].
  assert (H : initial_deal shoe_eights
              = (sp R8, sp R10, sp R8, sp R6,
                 (deal (deal (deal (deal shoe_eights).2).2).2).2))
    by reflexivity.
  split; [exact H|].
  destruct (record_of_split_keeps_value_of_pair shoe_eights strategy_basic 10 ∅
              _ _ _ _ _ K H) as (r & e & Hr & Hcase).
  exists r, e. split; [exact Hr|].
  assert (Hb : is_blackjack [sp R8; sp R8] || is_blackjack [sp R10; sp R6]
               = false) by reflexivity.
  assert (Hs : splits strategy_basic (strategy_args_of ∅) (sp R10)
                 [sp R8; sp R8] true = true) by reflexivity.
  rewrite Hb, Hs in Hcase. exact (proj1 Hcase).
Defined.

(** ** The number of cards of a round *)

Lemma effect_dealt e e' seen dealt runs :
  effect e e' seen dealt runs ->
  cards_dealt (env_deck e') = (cards_dealt (env_deck e) + length dealt)%nat.
Proof.
  intros (_ & Hd & _). unfold cards_dealt.
  rewrite (deals_dealt_in _ _ _ Hd), length_app. reflexivity.
Qed.

(** The dealer draws only below a hard total of 17, and each draw raises
    the hard total. *)
Lemma dealer_loop_draws steps : forall (dealer drawn : Hand) e final drawn' e',
  dealer_loop steps dealer drawn e = Some ((final, drawn'), e') ->
  Z.of_nat (cards_dealt (env_deck e'))
  <= Z.of_nat (cards_dealt (env_deck e)) + Z.max 0 (17 - hard_total dealer).
Proof.
  induction steps as [|steps IH]; intros dealer drawn e final drawn' e' H;
    [discriminate|].
  cbn [dealer_loop] in H. destruct (dealer_draws dealer) eqn:E.
  - destruct (deal_card_spec e) as (card & e1 & Hd & He1).
    rewrite (bind_Some _ _ _ _ _ Hd) in H.
    apply IH in H. apply effect_dealt in He1. cbn [length] in He1.
    apply dealer_draws_hard in E.
    pose proof (hard_total_add dealer card). lia.
  - injection H as _ _ <-. lia.
Qed.

Lemma play_dealer_draws up rest e x e' :
  play_dealer up rest e = Some (x, e') ->
  Z.of_nat (cards_dealt (env_deck e'))
  <= Z.of_nat (cards_dealt (env_deck e))
     + Z.max 0 (17 - hard_total (up :: rest)).
Proof.
  destruct (dealer_loop_spec dealer_steps (up :: rest) [] e)
    as (new & e1 & Hl & _).
  { unfold dealer_steps. lia. }
  { pose proof (hard_total_nonneg (up :: rest)). unfold dealer_steps. lia. }
  unfold play_dealer, dealer_hand_cards.
  rewrite (bind_Some _ _ _ _ _ Hl).
  destruct (note_dealer_run_spec
              (hand_str ((up :: rest) ++ new), get_value ((up :: rest) ++ new)) e1)
    as (e2 & Hn & He2).
  rewrite (bind_Some _ _ _ _ _ Hn). intros H. injection H as _ <-.
  apply dealer_loop_draws in Hl. apply effect_dealt in He2.
  cbn [length] in He2. lia.
Qed.

(** The dealer's turn as it ends the doubling block and normal play. *)
Lemma dealer_turn_draws up rest (hand : Hand) stake e x e' :
  (play_dealer up rest
   ≫= λ '(_, dealer_val, dealer_cards),
        see dealer_cards
        ≫= λ _ : (),
             mret (hand_str hand, settle (get_value hand) dealer_val stake,
                   hand)) e = Some (x, e') ->
  Z.of_nat (cards_dealt (env_deck e'))
  <= Z.of_nat (cards_dealt (env_deck e))
     + Z.max 0 (17 - hard_total (up :: rest)).
Proof.
  destruct (play_dealer_spec up rest e) as (new & e1 & Hp & _).
  cbn zeta in Hp. rewrite (bind_Some _ _ _ _ _ Hp).
  destruct (see_spec new e1) as (e2 & Hsee & He2).
  rewrite (bind_Some _ _ _ _ _ Hsee). intros H. injection H as _ <-.
  apply play_dealer_draws in Hp. apply effect_dealt in He2.
  cbn [length] in He2. lia.
Qed.

(** A hand that is hit was not bust, and each hit raises its hard
    total. *)
Lemma hit_loop_draws strategy_func strategy_args up steps :
  forall (hand : Hand) e hand' bust e',
    get_value hand <= 21 ->
    hit_loop strategy_func strategy_args up steps hand e
    = Some ((hand', bust), e') ->
    Z.of_nat (cards_dealt (env_deck e'))
    <= Z.of_nat (cards_dealt (env_deck e)) + (22 - hard_total hand).
Proof.
  induction steps as [|steps IH]; intros hand e hand' bust e' Hv H;
    [discriminate|].
  pose proof (get_value_ge_hard hand) as Hh.
  cbn [hit_loop] in H.
  destruct (bool_decide (strategy_func hand up strategy_args = Hit)).
  - destruct (deal_card_spec e) as (card & e1 & Hd & He1).
    rewrite (bind_Some _ _ _ _ _ Hd) in H.
    destruct (see_spec [card] e1) as (e2 & Hsee & He2).
    rewrite (bind_Some _ _ _ _ _ Hsee) in H.
    apply effect_dealt in He1, He2. cbn [length] in He1, He2.
    destruct (21 <? get_value (add_card hand card)) eqn:Ev.
    + injection H as _ _ <-. lia.
    + apply Z.ltb_ge in Ev. apply (IH _ _ _ _ _ Ev) in H.
      pose proof (hard_total_add hand card). lia.
  - injection H as _ _ <-. lia.
Qed.

Lemma play_unsplit_draws strategy_func strategy_args up rest (hand : Hand)
  bet allow_double e x e' :
  get_value hand <= 21 ->
  play_unsplit strategy_func strategy_args up rest hand bet allow_double e
  = Some (x, e') ->
  Z.of_nat (cards_dealt (env_deck e'))
  <= Z.of_nat (cards_dealt (env_deck e)) + (22 - hard_total hand)
     + Z.max 0 (17 - hard_total (up :: rest)).
Proof.
  intros Hv. pose proof (get_value_ge_hard hand) as Hh.
  unfold play_unsplit. destruct (_ && _ && _).
  - unfold double_play.
    destruct (deal_card_spec e) as (card & e1 & Hd & He1).
    rewrite (bind_Some _ _ _ _ _ Hd).
    destruct (see_spec [card] e1) as (e2 & Hsee & He2).
    rewrite (bind_Some _ _ _ _ _ Hsee).
    apply effect_dealt in He1, He2. cbn [length] in He1, He2.
    destruct (21 <? get_value (add_card hand card)).
    + intros H. injection H as _ <-. lia.
    + intros H. apply dealer_turn_draws in H. lia.
  - unfold normal_play.
    destruct (hit_loop_spec strategy_func strategy_args up hit_steps hand e)
      as (hits & bust & e1 & Hl & _).
    { unfold hit_steps. lia. }
    { pose proof (hard_total_nonneg hand). unfold hit_steps. lia. }
    rewrite (bind_Some _ _ _ _ _ Hl).
    apply (hit_loop_draws _ _ _ _ _ _ _ _ _ Hv) in Hl.
    destruct bust.
    + intros H. injection H as _ <-. lia.
    + intros H. apply dealer_turn_draws in H. lia.
Qed.

Lemma two_card_hard_total (a b : Card) : 2 <= hard_total [a; b].
Proof.
  pose proof (hard_total_add [] a). pose proof (hard_total_add [a] b).
  pose proof (hard_total_nonneg []). unfold add_card in *. cbn [app] in *. lia.
Qed.

Lemma play_single_hand_draws strategy_func strategy_args d1 d2 (p1 p2 : Card)
  bet allow_double allow_split e x e' :
  play_single_hand strategy_func strategy_args d1 [d2] [p1; p2] bet
    allow_double allow_split e = Some (x, e') ->
  (cards_dealt (env_deck e') <= cards_dealt (env_deck e) + 72)%nat
  /\ (splits strategy_func strategy_args d1 [p1; p2] allow_split = false ->
      (cards_dealt (env_deck e') <= cards_dealt (env_deck e) + 35)%nat).
Proof.
  pose proof (two_card_hard_total d1 d2) as Hd.
  assert (Hu : forall (a b : Card) ad e0 y e1,
            play_unsplit strategy_func strategy_args d1 [d2] [a; b] bet ad e0
            = Some (y, e1) ->
            (cards_dealt (env_deck e1) <= cards_dealt (env_deck e0) + 35)%nat).
  { intros a b ad e0 y e1 H.
    apply play_unsplit_draws in H; [|apply two_card_value].
    pose proof (two_card_hard_total a b). lia. }
  unfold play_single_hand.
  destruct (splits strategy_func strategy_args d1 [p1; p2] allow_split).
  - destruct (deal_card_spec e) as (x1 & e1 & Hd1 & He1).
    rewrite (bind_Some _ _ _ _ _ Hd1).
    destruct (deal_card_spec e1) as (x2 & e2 & Hd2 & He2).
    rewrite (bind_Some _ _ _ _ _ Hd2).
    destruct (see_spec [x1; x2] e2) as (e3 & Hsee & He3).
    rewrite (bind_Some _ _ _ _ _ Hsee).
    apply effect_dealt in He1, He2, He3. cbn [length] in He1, He2, He3.
    cbn zeta.
    change (add_card (add_card [] p1) x1) with [p1; x1].
    change (add_card (add_card [] p2) x2) with [p2; x2].
    destruct (play_unsplit_spec strategy_func strategy_args d1 [d2]
                [p1; x1] bet true e3)
      as (hits1 & new1 & runs1 & prof1 & e4 & Hp1 & _).
    rewrite (bind_Some _ _ _ _ _ Hp1).
    destruct (play_unsplit_spec strategy_func strategy_args d1 [d2]
                [p2; x2] bet true e4)
      as (hits2 & new2 & runs2 & prof2 & e5 & Hp2 & _).
    rewrite (bind_Some _ _ _ _ _ Hp2).
    apply Hu in Hp1, Hp2.
    intros H. injection H as _ <-. split; [lia | discriminate].
  - intros H. apply Hu in H. split; [lia | intros _; exact H].
Qed.

Lemma play_round_takes
  (deck : Deck) (strategy_func : Strategy) (betting_amount : Z)
  (kw : gmap string pyval) (p1 d1 p2 d2 : Card) (deck' : Deck) :
  initial_deal deck = (p1, d1, p2, d2, deck') ->
  exists r e,
    play_round deck strategy_func betting_amount kw = Some (r, e)
    /\ cards_dealt (env_deck e)
       = (cards_dealt deck + length (cards_seen r))%nat
    /\ (4 <= length (cards_seen r) <= 76)%nat
    /\ (if splits strategy_func (strategy_args_of kw) d1 [p1; p2] true
        then True else (length (cards_seen r) <= 39)%nat).
Proof.
  intros H.
  destruct (play_round_effect deck strategy_func betting_amount kw _ _ _ _ _ H)
    as (r & e & later & Hr & Hseen & Hdeals).
  destruct (play_round_outcome deck strategy_func betting_amount kw _ _ _ _ _ H)
    as (r' & e0 & Hr' & _ & _ & _ & B).
  rewrite Hr in Hr'. injection Hr' as <- <-. cbn zeta in B.
  pose proof (initial_deal_deals _ _ _ _ _ _ H) as Hfour.
  apply deals_dealt_in in Hdeals, Hfour.
  assert (Hl : length (cards_seen r) = (4 + length later)%nat).
  { rewrite Hseen, length_app. reflexivity. }
  assert (Hlen : cards_dealt (env_deck e)
                 = (cards_dealt deck + length (cards_seen r))%nat).
  { unfold cards_dealt. rewrite Hdeals, Hl, !length_app. reflexivity. }
  assert (Hfour' : cards_dealt deck' = (cards_dealt deck + 4)%nat).
  { unfold cards_dealt. rewrite Hfour, length_app. reflexivity. }
  exists r, e. split; [exact Hr|]. split; [exact Hlen|].
  assert (Hsame : e = mkEnv deck' ([p1; p2] ++ [d1; d2]) [] ->
                  length (cards_seen r) = 4%nat).
  { intros ->. cbn [env_deck] in Hlen. lia. }
  destruct (is_blackjack [p1; p2]), (is_blackjack [d1; d2]).
  1-3: destruct B as (B & _); apply Hsame in B; rewrite B;
       (split; [lia|]); destruct (splits _ _ _ _ _); [exact I | lia].
  destruct B as (res & prof & hand' & Hs & _).
  apply play_single_hand_draws in Hs as [H72 H35]. cbn [env_deck] in H72, H35.
  split; [lia|].
  destruct (splits strategy_func (strategy_args_of kw) d1 [p1; p2] true);
    [exact I|].
  specialize (H35 eq_refl). lia.
Qed.

(** X22. A round takes at least the 4 cards of the initial deal and at most
    76 cards from the shoe, at most 39 when the hand is not split; so many
    are in [cards_seen].  The keyword arguments repeat none of the names
    that the calls of a round bind themselves ([plain_keywords]). *)
Theorem round_takes_at_most_76_cards
  (deck : Deck) (strategy_func : Strategy) (betting_amount : Z)
  (kw : gmap string pyval) (p1 d1 p2 d2 : Card) (deck' : Deck) :
  plain_keywords kw ->
  initial_deal deck = (p1, d1, p2, d2, deck') ->
  exists r e,
    play_round deck strategy_func betting_amount kw = Some (r, e)
    /\ cards_dealt (env_deck e)
       = (cards_dealt deck + length (cards_seen r))%nat
    /\ (4 <= length (cards_seen r) <= 76)%nat
    /\ (if splits strategy_func (strategy_args_of kw) d1 [p1; p2] true
        then True else (length (cards_seen r) <= 39)%nat).
Proof. intros _. apply play_round_takes. Qed.

(** 8-8 against 10-6, split: eight cards. *)
Lemma round_takes_at_most_76_cards_witness :
  plain_keywords ∅ /\
  initial_deal shoe_eights
  = (sp R8, sp R10, sp R8, sp R6, (deal (deal (deal (deal shoe_eights).2).2).2).2)
  /\ exists r e,
       play_round shoe_eights strategy_basic 10 ∅ = Some (r, e)
       /\ (4 <= length (cards_seen r) <= 76)%nat.
Proof.
  assert (K : plain_keywords ∅) by apply plain_keywords_empty.
  split; [exact K|].
  assert (H : initial_deal shoe_eights
              = (sp R8, sp R10, sp R8, sp R6,
                 (deal (deal (deal (deal shoe_eights).2).2).2).2))
    by reflexivity.
  split; [exact H|].
  destruct (round_takes_at_most_76_cards shoe_eights strategy_basic 10 ∅
              _ _ _ _ _ K H) as (r & e & Hr & _ & Hb & _).
  exists r, e. split; assumption.
Defined.

(** ** Rounds without a rebuild *)

Lemma deal_no_rebuild d :
  cards d <> [] ->
  exists rest,
    cards d = rest ++ [(deal d).1]
    /\ (deal d).2 = mkDeck (num_decks d) rest (random d)
                      (history d ++ [Dealt (deal d).1]).
Proof.
  intros Hne. destruct (deal_pops d) as (rest & Hc & Hd).
  assert (Hr : ready d = d).
  { unfold ready. destruct (cards d); [contradiction | reflexivity]. }
  rewrite Hr in Hc, Hd. eauto.
Qed.

(** Dealing no more cards than the shoe holds takes them off its top,
    in order, and neither rebuilds nor shuffles. *)
Lemma deals_no_rebuild l : forall d d',
  deals d l d' -> (length l <= length (cards d))%nat ->
  cards d = cards d' ++ rev l
  /\ history d' = history d ++ map Dealt l
  /\ random d' = random d
  /\ num_decks d' = num_decks d.
Proof.
  induction l as [|a l IH]; intros d d' H Hlen; cbn [deals] in H.
  - subst d'. cbn. rewrite !app_nil_r. auto.
  - destruct H as [Ha H]. cbn [length] in Hlen.
    destruct (deal_no_rebuild d) as (rest & Hc & Hd).
    { intros E. rewrite E in Hlen. cbn in Hlen. lia. }
    rewrite Ha in Hc, Hd.
    destruct (IH _ _ H) as (H1 & H2 & H3 & H4).
    { rewrite Hd. cbn [cards]. rewrite Hc, length_app in Hlen.
      cbn [length] in Hlen. lia. }
    rewrite Hd in H1, H2, H3, H4. cbn [cards history random num_decks] in *.
    rewrite Hc, H1, H2. cbn [rev map]. rewrite <- !app_assoc. auto.
Qed.

Lemma since_last_build_map_dealt l : forall h,
  since_last_build (h ++ map Dealt l) = since_last_build h ++ l.
Proof.
  induction l as [|a l IH] using rev_ind; intros h.
  - cbn. rewrite !app_nil_r. reflexivity.
  - rewrite map_app, !app_assoc. cbn [map].
    rewrite since_last_build_dealt, IH. reflexivity.
Qed.

Lemma play_round_no_rebuild
  (deck : Deck) (strategy_func : Strategy) (betting_amount : Z)
  (kw : gmap string pyval) :
  (76 <= length (cards deck))%nat ->
  exists r e dealt,
    play_round deck strategy_func betting_amount kw = Some (r, e)
    /\ cards_seen r ≡ₚ dealt
    /\ cards deck = cards (env_deck e) ++ rev dealt
    /\ history (env_deck e) = history deck ++ map Dealt dealt
    /\ random (env_deck e) = random deck
    /\ num_decks (env_deck e) = num_decks deck.
Proof.
  intros Hlen.
  destruct (initial_deal_total deck) as (p1 & d1 & p2 & d2 & deck' & H).
  destruct (play_round_effect deck strategy_func betting_amount kw _ _ _ _ _ H)
    as (r & e & later & Hr & Hseen & Hdeals).
  destruct (play_round_takes deck strategy_func betting_amount kw _ _ _ _ _ H)
    as (r' & e0 & Hr' & _ & [_ H76] & _).
  rewrite Hr in Hr'. injection Hr' as <- <-.
  exists r, e, ([p1; d1; p2; d2] ++ later). split; [exact Hr|].
  split.
  { rewrite Hseen. apply Permutation_app_tail. apply perm_skip, perm_swap. }
  apply deals_no_rebuild; [exact Hdeals|].
  rewrite Hseen, length_app in H76. rewrite length_app.
  cbn [length] in *. lia.
Qed.

(** X23. A round that starts on a shoe of 76 cards or more never rebuilds
    it: the cards of the round are taken off the top of the shoe in order,
    the history gains these deals and no build, and the generator is not
    touched.  The keyword arguments repeat none of the names that the calls
    of a round bind themselves ([plain_keywords]). *)
Theorem round_on_76_cards_has_no_rebuild
  (deck : Deck) (strategy_func : Strategy) (betting_amount : Z)
  (kw : gmap string pyval) :
  plain_keywords kw ->
  (76 <= length (cards deck))%nat ->
  exists r e dealt,
    play_round deck strategy_func betting_amount kw = Some (r, e)
    /\ cards_seen r ≡ₚ dealt
    /\ cards deck = cards (env_deck e) ++ rev dealt
    /\ history (env_deck e) = history deck ++ map Dealt dealt
    /\ random (env_deck e) = random deck
    /\ num_decks (env_deck e) = num_decks deck.
Proof. intros _. apply play_round_no_rebuild. Qed.

(** A fresh shoe of six decks. *)
Lemma round_on_76_cards_has_no_rebuild_witness :
  plain_keywords ∅ /\
  (76 <= length (cards (shuffle (new_deck 6 gen_count))))%nat
  /\ exists r e dealt,
       play_round (shuffle (new_deck 6 gen_count)) strategy_basic 10 ∅
       = Some (r, e)
       /\ history (env_deck e)
          = history (shuffle (new_deck 6 gen_count)) ++ map Dealt dealt.
Proof.
  assert (K : plain_keywords ∅) by apply plain_keywords_empty.
  split; [exact K|].
  assert (H : (76 <= length (cards (shuffle (new_deck 6 gen_count))))%nat).
  { rewrite shuffle_length. cbn [new_deck build cards num_decks].
    rewrite fresh_cards_length. lia. }
  split; [exact H|].
  destruct (round_on_76_cards_has_no_rebuild (shuffle (new_deck 6 gen_count))
              strategy_basic 10 ∅ K H) as (r & e & dealt & Hr & _ & _ & Hh & _).
  exists r, e, dealt. split; assumption.
Defined.

Lemma sim_round_unfold ps bs base_bet reshuffle strategy_args s s' e :
  sim_round ps bs base_bet reshuffle strategy_args s = Some (s', e) ->
  let prepared := prepare_round ps bs base_bet reshuffle s in
  exists r,
    play_round (sim_deck prepared.2) (strategy_of ps) prepared.1
      (round_args strategy_args (running_count prepared.2)) = Some (r, e)
    /\ sim_deck s' = env_deck e
    /\ running_count s' = running_count prepared.2 + tally (cards_seen r)
    /\ game_results s' = game_results s ++ [with_bet r prepared.1].
Proof.
  pose proof (prepare_round_keeps ps bs base_bet reshuffle s) as [Hk _].
  unfold sim_round. cbv zeta in Hk |- *.
  destruct (prepare_round ps bs base_bet reshuffle s) as [b s1].
  cbn [fst snd] in *.
  destruct (play_round _ _ _ _) as [[r env]|]; [|discriminate].
  intros H. injection H as <- <-. exists r. cbn.
  rewrite fold_update_count, Hk. auto.
Qed.

Lemma prepare_round_reshuffles ps bs base_bet s :
  ps <> CardCounter ->
  let prepared := prepare_round ps bs base_bet true s in
  sim_deck prepared.2 = shuffle (build (sim_deck s))
  /\ running_count prepared.2 = 0.
Proof.
  intros H. unfold prepare_round. rewrite (bool_decide_eq_false_2 _ H).
  cbn [orb]. destruct (bool_decide (bs = Martingale)); cbn; auto.
Qed.

(** X24. With [reshuffle_each_hand] set, and a strategy other than the card
    counter, every round is played from the top of a six-deck shoe built and
    shuffled for it, which no round uses up: at the end of a run the shoe
    holds the 312 cards less those of the last round, these are the only
    cards dealt since it was built, and the running count is their count.
    The keyword arguments repeat none of the names that the calls of a round
    bind themselves ([plain_keywords]). *)
Theorem reshuffled_rounds_start_from_a_full_shoe
  (playing_strategy : PlayingStrategy) (num_games : nat)
  (betting_strategy : BettingStrategy) (base_bet : Z)
  (strategy_args : gmap string pyval) (r : Random) :
  plain_keywords strategy_args ->
  playing_strategy <> CardCounter -> (0 < num_games)%nat ->
  exists s o,
    run_simulation playing_strategy num_games betting_strategy base_bet
      true strategy_args r = Some s
    /\ last (game_results s) = Some o
    /\ (length (cards (sim_deck s)) + length (cards_seen o) = 312)%nat
    /\ since_last_build (history (sim_deck s)) ≡ₚ cards_seen o
    /\ running_count s = tally (cards_seen o).
Proof.
  intros _.
  intros Hps Hn.
  set (P := fun s : Sim =>
         exists o,
           last (game_results s) = Some o
           /\ (length (cards (sim_deck s)) + length (cards_seen o) = 312)%nat
           /\ since_last_build (history (sim_deck s)) ≡ₚ cards_seen o
           /\ running_count s = tally (cards_seen o)).
  destruct (run_simulation_records playing_strategy num_games betting_strategy
              base_bet true strategy_args r) as (s & Hrun & Hlen & _).
  destruct (sim_rounds_invariant
              (fun s => num_decks (sim_deck s) = 6%positive
                        /\ (game_results s = [] \/ P s))
              playing_strategy betting_strategy base_bet true strategy_args)
    with (num_games := num_games)
         (s := mkSim (shuffle (new_deck 6 r)) 0 None base_bet [])
    as (s' & Hrun' & _ & Hp).
  - intros s0 s1 e [Hsix _] Hround.
    destruct (sim_round_unfold _ _ _ _ _ _ _ _ Hround)
      as (o & Hplay & Hdeck & Hcount & Hres).
    destruct (prepare_round_reshuffles playing_strategy betting_strategy
                base_bet s0 Hps) as [Hd Hc].
    cbv zeta in Hplay, Hcount, Hres, Hd, Hc. rewrite Hd, Hc in Hplay.
    rewrite Hc in Hcount.
    assert (H312 : length (cards (shuffle (build (sim_deck s0)))) = 312%nat).
    { rewrite shuffle_length. cbn [build cards].
      rewrite fresh_cards_length, Hsix. reflexivity. }
    destruct (play_round_no_rebuild (shuffle (build (sim_deck s0)))
                (strategy_of playing_strategy)
                (prepare_round playing_strategy betting_strategy base_bet true
                   s0).1
                (round_args strategy_args 0))
      as (o' & e' & dealt & Hplay' & Hperm & Hcards & Hhist & _ & Hnum);
      [lia|].
    rewrite Hplay in Hplay'. injection Hplay' as <- <-.
    split.
    { rewrite Hdeck, Hnum, shuffle_num_decks. exact Hsix. }
    right. eexists. split; [rewrite Hres; apply last_snoc|].
    cbn [cards_seen with_bet]. rewrite Hdeck.
    split.
    { rewrite Hcards, length_app, length_rev in H312.
      rewrite (Permutation_length Hperm). exact H312. }
    split.
    { rewrite Hhist, shuffle_history. cbn [build history].
      rewrite since_last_build_map_dealt, since_last_build_built.
      cbn [app]. symmetry. exact Hperm. }
    rewrite Hcount. lia.
  - cbn [sim_deck game_results].
    split; [rewrite shuffle_num_decks; reflexivity | left; reflexivity].
  - unfold run_simulation in Hrun. rewrite Hrun in Hrun'.
    injection Hrun' as <-.
    destruct Hp as [Hnil | (o & Hp)].
    + rewrite Hnil in Hlen. cbn in Hlen. lia.
    + exists s, o. split; [exact Hrun | exact Hp].
Qed.

(** Twenty rounds of the basic strategy. *)
Lemma reshuffled_rounds_start_from_a_full_shoe_witness :
  plain_keywords ∅ /\
  Basic <> CardCounter /\ (0 < 20)%nat
  /\ exists s o,
       run_simulation Basic 20 Flat 10 true ∅ gen_count = Some s
       /\ last (game_results s) = Some o
       /\ running_count s = tally (cards_seen o).
Proof.
  assert (K : plain_keywords ∅) by apply plain_keywords_empty.
  split; [exact K|].
  assert (H : Basic <> CardCounter) by discriminate.
  assert (Hn : (0 < 20)%nat) by lia.
  split; [exact H|]. split; [exact Hn|].
  destruct (reshuffled_rounds_start_from_a_full_shoe Basic 20 Flat 10 ∅
              gen_count K H Hn) as (s & o & Hrun & Hlast & _ & _ & Hcount).
  exists s, o. auto.
Defined.

(** ** The strings of the record *)

Lemma rank_str_prefix (r1 r2 : Rank) (s1 s2 : string) :
  (s1 = "" \/ exists t, s1 = "-" +:+ t) ->
  (s2 = "" \/ exists t, s2 = "-" +:+ t) ->
  rank_str r1 +:+ s1 = rank_str r2 +:+ s2 -> r1 = r2 /\ s1 = s2.
Proof.
  intros [-> | [t1 ->]] [-> | [t2 ->]] H;
    destruct r1, r2; cbn in H; try discriminate H;
    try (injection H as H;
         match type of H with
         | "" +:+ ?a = "" +:+ ?b => change (a = b) in H
         end; subst); auto.
Qed.

Lemma join_ranks_cons r (l : list Rank) :
  exists s, join "-" (map rank_str (r :: l)) = rank_str r +:+ s
            /\ (s = "" \/ exists t, s = "-" +:+ t)
            /\ match l with
               | [] => s = ""
               | _ => s = "-" +:+ join "-" (map rank_str l)
               end.
Proof.
  destruct l as [|r' l].
  - exists "". cbn [map join]. split; [|auto].
    destruct r; reflexivity.
  - eexists. split; [reflexivity|]. split; [right; eauto | reflexivity].
Qed.

Lemma join_ranks_inj (l1 : list Rank) : forall l2,
  join "-" (map rank_str l1) = join "-" (map rank_str l2) -> l1 = l2.
Proof.
  induction l1 as [|r1 l1 IH]; intros [|r2 l2] H.
  - reflexivity.
  - destruct (join_ranks_cons r2 l2) as (s & Hs & _). rewrite Hs in H.
    destruct r2; discriminate H.
  - destruct (join_ranks_cons r1 l1) as (s & Hs & _). rewrite Hs in H.
    destruct r1; discriminate H.
  - destruct (join_ranks_cons r1 l1) as (s1 & Hs1 & Hf1 & Ht1).
    destruct (join_ranks_cons r2 l2) as (s2 & Hs2 & Hf2 & Ht2).
    rewrite Hs1, Hs2 in H.
    apply rank_str_prefix in H as [-> Hs]; [|assumption..].
    f_equal. destruct l1 as [|a l1], l2 as [|b l2].
    + reflexivity.
    + rewrite Ht1, Ht2 in Hs. discriminate Hs.
    + rewrite Ht1, Ht2 in Hs. discriminate Hs.
    + apply IH. rewrite Ht1, Ht2 in Hs. injection Hs as Hs. exact Hs.
Qed.

Lemma get_value_of_ranks (h1 h2 : Hand) :
  map rank h1 = map rank h2 -> get_value h1 = get_value h2.
Proof.
  intros H. unfold get_value.
  assert (Hr : raw_sum h1 = raw_sum h2).
  { unfold raw_sum, value. rewrite <- !(map_map rank VALUES), H. reflexivity. }
  assert (Ha : count_aces h1 = count_aces h2).
  { clear Hr. unfold count_aces. revert h2 H.
    induction h1 as [|a h1 IH]; intros [|b h2] H; try discriminate H;
      [reflexivity|].
    injection H as Hab H. rewrite !filter_cons, Hab.
    destruct (decide (rank b = RA)); cbn [length]; rewrite (IH _ H);
      reflexivity. }
  rewrite Hr, Ha. reflexivity.
Qed.

(** The string of a hand, which is what the record keeps of it, gives
    the ranks of its cards in order, and so its length, its value and
    whether it is a blackjack; the suits are lost. *)
Lemma hand_str_gives_the_ranks (h1 h2 : Hand) :
  hand_str h1 = hand_str h2 <-> map rank h1 = map rank h2.
Proof.
  unfold hand_str, card_str. rewrite <- !(map_map rank rank_str). split.
  - apply join_ranks_inj.
  - intros ->. reflexivity.
Qed.

(** X25. Two hands with the same string have the same value. *)
Theorem hand_str_gives_the_value (h1 h2 : Hand) :
  hand_str h1 = hand_str h2 ->
  length h1 = length h2
  /\ get_value h1 = get_value h2
  /\ is_blackjack h1 = is_blackjack h2.
Proof.
  unfold hand_str, card_str. rewrite <- !(map_map rank rank_str).
  intros H. apply join_ranks_inj in H.
  assert (Hl : length h1 = length h2).
  { rewrite <- (length_map rank h1), H. apply length_map. }
  pose proof (get_value_of_ranks _ _ H) as Hv.
  unfold is_blackjack. rewrite Hl, Hv. auto.
Qed.

(** The ten of spades with an ace, and the ten of hearts with an ace. *)
Lemma hand_str_gives_the_value_witness :
  hand_str [mkCard Spades R10; mkCard Hearts RA]
  = hand_str [mkCard Hearts R10; mkCard Spades RA]
  /\ get_value [mkCard Spades R10; mkCard Hearts RA]
     = get_value [mkCard Hearts R10; mkCard Spades RA].
Proof.
  assert (H : hand_str [mkCard Spades R10; mkCard Hearts RA]
              = hand_str [mkCard Hearts R10; mkCard Spades RA]) by reflexivity.
  split; [exact H|].
  exact (proj1 (proj2 (hand_str_gives_the_value _ _ H))).
Defined.
